(** * Cross-reference aggregation of [quran_scrapper.py]

    A shallow embedding of the scraping loop of [src/quran_scrapper.py]
    (lines 230-371): the five module-level dictionaries, the two
    "current chapter / current section" pointers, the nested page/verse
    loop that folds verse observations into the dictionaries, and the
    [try / except / finally] block that dumps them as JSON.

    Python integers are unbounded, so ids are [Z]; dictionaries are
    [gmap]s, Python sets are [gset]s, lists are [list]s.  A failed
    subscription [d[k]] raises [KeyError k]; exceptions leave the
    module-level state as it was when they were raised, with whatever the
    iteration had written by then. *)

From stdpp Require Import base gmap sets list strings pretty.
From Stdlib Require Import ZArith Lia Ascii.

Local Open Scope Z_scope.

(** ** Constants (lines 54-57) *)

Definition NO_BASMALA : list Z := [1; 9].

(** Python's [str] on an [int]: decimal digits, a leading minus sign for
    negative numbers. *)
Definition str (n : Z) : string := pretty n.

(** ** Records held by the five dictionaries *)

(** [explanations[explanation_id]], lines 291-301. *)
Record explanation := Explanation {
  ex_id : string;
  ex_text : string;
  ex_name : string;
  ex_language : string;
  ex_verse : string;
  ex_page : Z;
  ex_section : Z;
  ex_chapter : Z
}.

(** [verses[verse_id]], lines 303-312. *)
Record verse := Verse {
  v_id : string;
  v_number : Z;
  v_arabic_unicodes : list string;
  v_explanations : list string;
  v_page : Z;
  v_section : Z;
  v_chapter : Z
}.

(** [chapters[chapter_id]], lines 316-326. *)
Record chapter := Chapter {
  ch_id : Z;
  ch_number : Z;
  ch_name : string;
  ch_aranic_unicode : string;
  ch_basmalah : bool;
  ch_verses : list string;
  ch_pages : list Z;
  ch_sections : gset Z
}.

(** [sections[section_id]], lines 331-337. *)
Record section := SectionRec {
  sec_id : Z;
  sec_verses : list string;
  sec_pages : list Z;
  sec_chapters : gset Z
}.

(** [pages[page_id]], lines 264-271. *)
Record page := Page {
  pg_id : Z;
  pg_number : Z;
  pg_verses : list string;
  pg_chapters : gset Z;
  pg_sections : gset Z
}.

(** ** The browser as a data source

    The values the getters of one verse iteration return (lines 282-284,
    293-294, 306, 319-320). *)
Record observation := Observation {
  verse_number : Z;
  chapter_number : Z;
  section_number : Z;
  explanation_text : string;
  explanation_name : string;
  arabic_unicodes : list string;
  chapter_name : string;
  chapter_arabic_unicode : string
}.

Inductive exn :=
  | KeyboardInterrupt
  | SystemExit
  | KeyError (key : Z)
  | TypeError
  | ValueError
  | WebDriverException.

Global Instance exn_eq_dec : EqDecision exn.
Proof. solve_decision. Defined.

(** A call into the browser either delivers or raises: a time-out, an
    element that is not found, a signal that arrives while the driver
    blocks, or the [ValueError] of [int] on a text that is no number
    (lines 190, 198, 208, 212). *)
Inductive fetch (A : Type) :=
  | Got (a : A)
  | Fault (e : exn).
Arguments Got {A} a.
Arguments Fault {A} e.

(** One [span.aya]: what each call of a verse iteration does when the
    iteration gets to it, in the order of the source.  The click and the
    wait come first (lines 277-278), then the active chapter (line 280),
    the three numbers (lines 282-284) and the two explanation texts (lines
    293-294), which are evaluated before [explanations] is assigned.  The
    verse texts (line 306) are read after that assignment and before
    [verses] is assigned; the two chapter titles (lines 319-320) are read
    only inside the chapter block, after [current_chapter] is assigned. *)
Record verse_element := VerseElement {
  el_click : fetch unit;
  el_wait : fetch unit;
  el_active_chapter : fetch unit;
  el_verse_number : fetch Z;
  el_chapter_number : fetch Z;
  el_section_number : fetch Z;
  el_explanation_text : fetch string;
  el_explanation_name : fetch string;
  el_arabic_unicodes : fetch (list string);
  el_chapter_name : fetch string;
  el_chapter_arabic_unicode : fetch string
}.

(** One entry of the page list once it is open (lines 260-272): its number
    and its verse elements.  Between the assignment of [pages] and the
    first verse iteration nothing is written, so a time-out of the wait of
    line 274 or a failure of line 276 is a verse list whose only element
    raises at its first call. *)
Record page_element := PageElement {
  page_number : Z;
  verse_list : list verse_element
}.

(** ** Module-level state (lines 230-234, 254-255) *)

Record state := State {
  verses : gmap string verse;
  pages : gmap Z page;
  chapters : gmap Z chapter;
  sections : gmap Z section;
  explanations : gmap string explanation;
  current_chapter : Z;
  current_section : Z
}.

Definition module_state : state :=
  {| verses := ∅; pages := ∅; chapters := ∅; sections := ∅;
     explanations := ∅; current_chapter := 0; current_section := 0 |}.

(** ** Statements: state passing with exceptions *)

Inductive result (A : Type) :=
  | Return (a : A)
  | Raise (e : exn).
Arguments Return {A} a.
Arguments Raise {A} e.

Definition py (A : Type) : Type := state → result A * state.

Definition py_ret {A} (a : A) : py A := λ st, (Return a, st).

Definition py_bind {A B} (m : py A) (k : A → py B) : py B := λ st,
  match m st with
  | (Return a, st') => k a st'
  | (Raise e, st') => (Raise e, st')
  end.

Definition raise {A} (e : exn) : py A := λ st, (Raise e, st).

Definition modify (f : state → state) : py unit := λ st, (Return tt, f st).

Definition get {A} (f : state → A) : py A := λ st, (Return (f st), st).

Declare Scope py_scope.
Delimit Scope py_scope with py.
Notation "x <- m ;; k" := (py_bind m (λ x, k))
  (at level 100, m at next level, right associativity) : py_scope.
Notation "m ;; k" := (py_bind m (λ _, k))
  (at level 100, right associativity) : py_scope.
Local Open Scope py_scope.

(** [for x in l: body] *)
Fixpoint for_each {A} (body : A → py unit) (l : list A) : py unit :=
  match l with
  | [] => py_ret tt
  | x :: l' => body x ;; for_each body l'
  end.

(** Reading from the browser. *)
Definition fetched {A} (x : fetch A) : py A :=
  match x with
  | Got a => py_ret a
  | Fault e => raise e
  end.

(** ** Field updates *)

Definition set_verses f st :=
  {| verses := f (verses st); pages := pages st; chapters := chapters st;
     sections := sections st; explanations := explanations st;
     current_chapter := current_chapter st;
     current_section := current_section st |}.
Definition set_pages f st :=
  {| verses := verses st; pages := f (pages st); chapters := chapters st;
     sections := sections st; explanations := explanations st;
     current_chapter := current_chapter st;
     current_section := current_section st |}.
Definition set_chapters f st :=
  {| verses := verses st; pages := pages st; chapters := f (chapters st);
     sections := sections st; explanations := explanations st;
     current_chapter := current_chapter st;
     current_section := current_section st |}.
Definition set_sections f st :=
  {| verses := verses st; pages := pages st; chapters := chapters st;
     sections := f (sections st); explanations := explanations st;
     current_chapter := current_chapter st;
     current_section := current_section st |}.
Definition set_explanations f st :=
  {| verses := verses st; pages := pages st; chapters := chapters st;
     sections := sections st; explanations := f (explanations st);
     current_chapter := current_chapter st;
     current_section := current_section st |}.
Definition set_current_chapter c st :=
  {| verses := verses st; pages := pages st; chapters := chapters st;
     sections := sections st; explanations := explanations st;
     current_chapter := c;
     current_section := current_section st |}.
Definition set_current_section s st :=
  {| verses := verses st; pages := pages st; chapters := chapters st;
     sections := sections st; explanations := explanations st;
     current_chapter := current_chapter st;
     current_section := s |}.

(** [c['sections'].add(s)], [c['verses'].append(v)], [c['pages'].append(p)] *)
Definition chapter_sections_add (s : Z) (c : chapter) : chapter :=
  {| ch_id := ch_id c; ch_number := ch_number c; ch_name := ch_name c;
     ch_aranic_unicode := ch_aranic_unicode c; ch_basmalah := ch_basmalah c;
     ch_verses := ch_verses c; ch_pages := ch_pages c;
     ch_sections := ch_sections c ∪ {[ s ]} |}.
Definition chapter_verses_append (v : string) (c : chapter) : chapter :=
  {| ch_id := ch_id c; ch_number := ch_number c; ch_name := ch_name c;
     ch_aranic_unicode := ch_aranic_unicode c; ch_basmalah := ch_basmalah c;
     ch_verses := ch_verses c ++ [v]; ch_pages := ch_pages c;
     ch_sections := ch_sections c |}.
Definition chapter_pages_append (p : Z) (c : chapter) : chapter :=
  {| ch_id := ch_id c; ch_number := ch_number c; ch_name := ch_name c;
     ch_aranic_unicode := ch_aranic_unicode c; ch_basmalah := ch_basmalah c;
     ch_verses := ch_verses c; ch_pages := ch_pages c ++ [p];
     ch_sections := ch_sections c |}.

Definition section_chapters_add (c : Z) (s : section) : section :=
  {| sec_id := sec_id s; sec_verses := sec_verses s; sec_pages := sec_pages s;
     sec_chapters := sec_chapters s ∪ {[ c ]} |}.
Definition section_verses_append (v : string) (s : section) : section :=
  {| sec_id := sec_id s; sec_verses := sec_verses s ++ [v];
     sec_pages := sec_pages s; sec_chapters := sec_chapters s |}.
Definition section_pages_append (p : Z) (s : section) : section :=
  {| sec_id := sec_id s; sec_verses := sec_verses s;
     sec_pages := sec_pages s ++ [p]; sec_chapters := sec_chapters s |}.

Definition page_sections_add (s : Z) (p : page) : page :=
  {| pg_id := pg_id p; pg_number := pg_number p; pg_verses := pg_verses p;
     pg_chapters := pg_chapters p; pg_sections := pg_sections p ∪ {[ s ]} |}.
Definition page_chapters_add (c : Z) (p : page) : page :=
  {| pg_id := pg_id p; pg_number := pg_number p; pg_verses := pg_verses p;
     pg_chapters := pg_chapters p ∪ {[ c ]}; pg_sections := pg_sections p |}.
Definition page_verses_append (v : string) (p : page) : page :=
  {| pg_id := pg_id p; pg_number := pg_number p;
     pg_verses := pg_verses p ++ [v];
     pg_chapters := pg_chapters p; pg_sections := pg_sections p |}.

(** [d[k]] followed by an in-place mutation of the record found there:
    [KeyError k] when [k] is not a key of [d]. *)
Definition chapters_at (k : Z) (f : chapter → chapter) : py unit := λ st,
  match chapters st !! k with
  | Some c => (Return tt, set_chapters (insert k (f c)) st)
  | None => (Raise (KeyError k), st)
  end.
Definition sections_at (k : Z) (f : section → section) : py unit := λ st,
  match sections st !! k with
  | Some s => (Return tt, set_sections (insert k (f s)) st)
  | None => (Raise (KeyError k), st)
  end.
Definition pages_at (k : Z) (f : page → page) : py unit := λ st,
  match pages st !! k with
  | Some p => (Return tt, set_pages (insert k (f p)) st)
  | None => (Raise (KeyError k), st)
  end.

(** ** The record literals *)

Definition verse_id_of (o : observation) : string :=
  str (chapter_number o) +:+ ":" +:+ str (verse_number o).

Definition new_page (page_id page_number : Z) : page :=
  {| pg_id := page_id; pg_number := page_number;
     pg_verses := []; pg_chapters := ∅; pg_sections := ∅ |}.

Definition new_explanation (page_id : Z) (o : observation) : explanation :=
  {| ex_id := verse_id_of o;
     ex_text := explanation_text o;
     ex_name := explanation_name o;
     ex_language := "AR";
     ex_verse := verse_id_of o;
     ex_page := page_id;
     ex_section := section_number o;
     ex_chapter := chapter_number o |}.

Definition new_verse (page_id : Z) (o : observation) : verse :=
  {| v_id := verse_id_of o;
     v_number := verse_number o;
     v_arabic_unicodes := arabic_unicodes o;
     v_explanations := [verse_id_of o];
     v_page := page_id;
     v_section := section_number o;
     v_chapter := chapter_number o |}.

Definition new_chapter (o : observation) : chapter :=
  {| ch_id := chapter_number o;
     ch_number := chapter_number o;
     ch_name := chapter_name o;
     ch_aranic_unicode := chapter_arabic_unicode o;
     ch_basmalah := bool_decide (chapter_number o ∉ NO_BASMALA);
     ch_verses := []; ch_pages := []; ch_sections := ∅ |}.

Definition new_section (section_id : Z) : section :=
  {| sec_id := section_id;
     sec_verses := []; sec_pages := []; sec_chapters := ∅ |}.

(** ** The loops (lines 259-354) *)

(** [if cond: body] *)
Definition when (b : bool) (body : py unit) : py unit :=
  if b then body else py_ret tt.

(** Lines 286-349 for an element all of whose getters deliver: the body
    of the inner loop, given the values the getters return. *)
Definition ingest (page_id : Z) (o : observation) : py unit :=
  let verse_id := verse_id_of o in
  let explanation_id := verse_id in
  let chapter_id := chapter_number o in
  let section_id := section_number o in
  modify (set_explanations
            (insert explanation_id (new_explanation page_id o))) ;;
  modify (set_verses (insert verse_id (new_verse page_id o))) ;;
  cur <- get current_chapter ;;
  when (bool_decide (chapter_id ≠ cur))
    (modify (set_current_chapter chapter_id) ;;
     modify (set_chapters (insert chapter_id (new_chapter o)))) ;;
  cur <- get current_section ;;
  when (bool_decide (section_id ≠ cur))
    (modify (set_current_section section_id) ;;
     modify (set_sections (insert section_id (new_section section_id)))) ;;
  chapters_at chapter_id (chapter_sections_add section_id) ;;
  pages_at page_id (page_sections_add section_id) ;;
  sections_at section_id (section_chapters_add chapter_id) ;;
  pages_at page_id (page_chapters_add chapter_id) ;;
  chapters_at chapter_id (chapter_verses_append verse_id) ;;
  sections_at section_id (section_verses_append verse_id) ;;
  pages_at page_id (page_verses_append verse_id).

(** One iteration of the inner loop, lines 276-349, statement by
    statement: every call into the browser stands where the source makes
    it, and may raise there.  A dictionary literal is evaluated before it
    is assigned, its values in the order they are written. *)
Definition verse_iteration (page_id : Z) (x : verse_element) : py unit :=
  fetched (el_click x) ;;
  fetched (el_wait x) ;;
  fetched (el_active_chapter x) ;;
  verse_number <- fetched (el_verse_number x) ;;
  chapter_number <- fetched (el_chapter_number x) ;;
  section_number <- fetched (el_section_number x) ;;
  let verse_id := str chapter_number +:+ ":" +:+ str verse_number in
  let explanation_id := verse_id in
  let chapter_id := chapter_number in
  let section_id := section_number in
  text <- fetched (el_explanation_text x) ;;
  name <- fetched (el_explanation_name x) ;;
  modify (set_explanations
            (insert explanation_id
               {| ex_id := explanation_id;
                  ex_text := text;
                  ex_name := name;
                  ex_language := "AR";
                  ex_verse := verse_id;
                  ex_page := page_id;
                  ex_section := section_id;
                  ex_chapter := chapter_id |})) ;;
  arabic_unicodes <- fetched (el_arabic_unicodes x) ;;
  modify (set_verses
            (insert verse_id
               {| v_id := verse_id;
                  v_number := verse_number;
                  v_arabic_unicodes := arabic_unicodes;
                  v_explanations := [explanation_id];
                  v_page := page_id;
                  v_section := section_id;
                  v_chapter := chapter_id |})) ;;
  cur <- get current_chapter ;;
  when (bool_decide (chapter_id ≠ cur))
    (modify (set_current_chapter chapter_id) ;;
     name <- fetched (el_chapter_name x) ;;
     arabic_unicode <- fetched (el_chapter_arabic_unicode x) ;;
     modify (set_chapters
               (insert chapter_id
                  {| ch_id := chapter_id;
                     ch_number := chapter_number;
                     ch_name := name;
                     ch_aranic_unicode := arabic_unicode;
                     ch_basmalah := bool_decide (chapter_id ∉ NO_BASMALA);
                     ch_verses := []; ch_pages := []; ch_sections := ∅ |}))) ;;
  cur <- get current_section ;;
  when (bool_decide (section_id ≠ cur))
    (modify (set_current_section section_id) ;;
     modify (set_sections (insert section_id (new_section section_id)))) ;;
  chapters_at chapter_id (chapter_sections_add section_id) ;;
  pages_at page_id (page_sections_add section_id) ;;
  sections_at section_id (section_chapters_add chapter_id) ;;
  pages_at page_id (page_chapters_add chapter_id) ;;
  chapters_at chapter_id (chapter_verses_append verse_id) ;;
  sections_at section_id (section_verses_append verse_id) ;;
  pages_at page_id (page_verses_append verse_id).

(** The two statements after the inner loop, lines 353-354. *)
Definition page_end (page_id : Z) : py unit :=
  cur <- get current_chapter ;;
  chapters_at cur (chapter_pages_append page_id) ;;
  cur <- get current_section ;;
  sections_at cur (section_pages_append page_id).

(** One iteration of the outer loop, lines 259-354. *)
Definition page_iteration (x : fetch page_element) : py unit :=
  page_element <- fetched x ;;
  let page_id := page_number page_element in
  modify (set_pages (insert page_id (new_page page_id (page_number page_element)))) ;;
  for_each (verse_iteration page_id) (verse_list page_element) ;;
  page_end page_id.

(** The body of the [try], lines 254-354. *)
Definition scrapping (page_list : list (fetch page_element)) : py unit :=
  modify (set_current_chapter 0) ;;
  modify (set_current_section 0) ;;
  for_each page_iteration page_list.

(** ** Serialisation (lines 357-369)

    The values handed to [json.dump].  Python's encoder accepts [dict],
    [list], [str], [int] and [bool] and raises [TypeError] on any other
    object, a [set] among them. *)
#[local] Set Warnings "-register-all".
Inductive pyobj :=
  | PyInt (n : Z)
  | PyStr (s : string)
  | PyBool (b : bool)
  | PyList (l : list pyobj)
  | PySet (s : gset Z)
  | PyDict (items : list (string * pyobj)).

Fixpoint json_serializable (v : pyobj) : bool :=
  match v with
  | PyInt _ | PyStr _ | PyBool _ => true
  | PyList l => forallb json_serializable l
  | PySet _ => false
  | PyDict items => forallb (λ kv, json_serializable (snd kv)) items
  end.

Definition explanation_obj (e : explanation) : pyobj :=
  PyDict [("id", PyStr (ex_id e)); ("text", PyStr (ex_text e));
          ("name", PyStr (ex_name e)); ("language", PyStr (ex_language e));
          ("verse", PyStr (ex_verse e)); ("page", PyInt (ex_page e));
          ("section", PyInt (ex_section e)); ("chapter", PyInt (ex_chapter e))].

Definition verse_obj (v : verse) : pyobj :=
  PyDict [("id", PyStr (v_id v)); ("number", PyInt (v_number v));
          ("arabic_unicodes", PyList (PyStr <$> v_arabic_unicodes v));
          ("explanations", PyList (PyStr <$> v_explanations v));
          ("page", PyInt (v_page v)); ("section", PyInt (v_section v));
          ("chapter", PyInt (v_chapter v))].

Definition chapter_obj (c : chapter) : pyobj :=
  PyDict [("id", PyInt (ch_id c)); ("number", PyInt (ch_number c));
          ("name", PyStr (ch_name c));
          ("aranic_unicode", PyStr (ch_aranic_unicode c));
          ("basmalah", PyBool (ch_basmalah c));
          ("verses", PyList (PyStr <$> ch_verses c));
          ("pages", PyList (PyInt <$> ch_pages c));
          ("sections", PySet (ch_sections c))].

Definition section_obj (s : section) : pyobj :=
  PyDict [("id", PyInt (sec_id s));
          ("verses", PyList (PyStr <$> sec_verses s));
          ("pages", PyList (PyInt <$> sec_pages s));
          ("chapters", PySet (sec_chapters s))].

Definition page_obj (p : page) : pyobj :=
  PyDict [("id", PyInt (pg_id p)); ("number", PyInt (pg_number p));
          ("verses", PyList (PyStr <$> pg_verses p));
          ("chapters", PySet (pg_chapters p));
          ("sections", PySet (pg_sections p))].

(** Lines 236-245. *)
Definition languages : list pyobj :=
  [PyDict [("id", PyStr "AR"); ("name", PyStr "Arabic")];
   PyDict [("id", PyStr "EN"); ("name", PyStr "English")]].

(** The records of a dictionary, as [json.dump] walks them. *)
Definition records {K} `{Countable K} {V} (obj : V → pyobj)
    (d : gmap K V) : list pyobj :=
  obj <$> (snd <$> map_to_list d).

(** A sequence of [with open(name) as f: json.dump(d, f)] statements: the
    result, and the names of the files whose dump completed. *)
Fixpoint dump_all (jobs : list (string * list pyobj))
    : result unit * list string :=
  match jobs with
  | [] => (Return tt, [])
  | (name, values) :: rest =>
      if forallb json_serializable values then
        let '(r, written) := dump_all rest in (r, name :: written)
      else (Raise TypeError, [])
  end.

(** The [finally] block. *)
Definition finalization (st : state) : result unit * list string :=
  dump_all [("languages", languages);
            ("verses", records verse_obj (verses st));
            ("pages", records page_obj (pages st));
            ("chapters", records chapter_obj (chapters st));
            ("sections", records section_obj (sections st));
            ("explanations", records explanation_obj (explanations st))].

(** [except (KeyboardInterrupt, SystemExit): pass] *)
Definition except_clause (r : result unit) : result unit :=
  match r with
  | Raise KeyboardInterrupt | Raise SystemExit => Return tt
  | _ => r
  end.

(** Lines 253-371: what the interpreter is left with (an exception that
    escapes, or none), the dictionaries, and the files written. *)
Definition main (page_list : list (fetch page_element))
    : result unit * state * list string :=
  let '(r, st) := scrapping page_list module_state in
  let '(f, written) := finalization st in
  (match f with
   | Raise e => Raise e
   | Return _ => except_clause r
   end, st, written).

(** * Vocabulary of the properties *)

(** ** One verse iteration, in closed form *)

(** The state once the two change-detection blocks have run (lines
    291-339), for an element all of whose getters deliver: no dictionary
    is subscripted up to there. *)
Definition recorded (page_id : Z) (o : observation) (st : state) : state :=
  {| verses := <[verse_id_of o := new_verse page_id o]> (verses st);
     pages := pages st;
     chapters :=
       if decide (chapter_number o ≠ current_chapter st)
       then <[chapter_number o := new_chapter o]> (chapters st)
       else chapters st;
     sections :=
       if decide (section_number o ≠ current_section st)
       then <[section_number o := new_section (section_number o)]> (sections st)
       else sections st;
     explanations :=
       <[verse_id_of o := new_explanation page_id o]> (explanations st);
     current_chapter := chapter_number o;
     current_section := section_number o |}.
Arguments recorded : simpl never.

(** The state after the seven cross-reference updates (lines 341-349),
    given the three records they mutate. *)
Definition linked (page_id : Z) (o : observation) (st : state)
    (c : chapter) (p : page) (s : section) : state :=
  let st1 := recorded page_id o st in
  {| verses := verses st1;
     pages :=
       <[page_id :=
           page_verses_append (verse_id_of o)
             (page_chapters_add (chapter_number o)
                (page_sections_add (section_number o) p))]> (pages st1);
     chapters :=
       <[chapter_number o :=
           chapter_verses_append (verse_id_of o)
             (chapter_sections_add (section_number o) c)]> (chapters st1);
     sections :=
       <[section_number o :=
           section_verses_append (verse_id_of o)
             (section_chapters_add (chapter_number o) s)]> (sections st1);
     explanations := explanations st1;
     current_chapter := current_chapter st1;
     current_section := current_section st1 |}.

(** ** What a source delivers *)

Definition got {A} (x : fetch A) : option A :=
  match x with
  | Got a => Some a
  | Fault _ => None
  end.

(** An observation together with the page it was read on. *)
Definition entry : Type := Z * observation.

Definition entry_id (e : entry) : string := verse_id_of e.2.
Definition entry_chapter (e : entry) : Z := chapter_number e.2.
Definition entry_section (e : entry) : Z := section_number e.2.

(** The pair a verse id is printed from, line 286. *)
Definition entry_key (e : entry) : Z * Z :=
  (chapter_number e.2, verse_number e.2).
Definition key_id (k : Z * Z) : string := str k.1 +:+ ":" +:+ str k.2.

(** The element all of whose calls deliver, with the values [o]; and the
    element whose every call raises [e]. *)
Definition deliver (o : observation) : verse_element :=
  {| el_click := Got tt;
     el_wait := Got tt;
     el_active_chapter := Got tt;
     el_verse_number := Got (verse_number o);
     el_chapter_number := Got (chapter_number o);
     el_section_number := Got (section_number o);
     el_explanation_text := Got (explanation_text o);
     el_explanation_name := Got (explanation_name o);
     el_arabic_unicodes := Got (arabic_unicodes o);
     el_chapter_name := Got (chapter_name o);
     el_chapter_arabic_unicode := Got (chapter_arabic_unicode o) |}.

Definition failing (e : exn) : verse_element :=
  {| el_click := Fault e;
     el_wait := Fault e;
     el_active_chapter := Fault e;
     el_verse_number := Fault e;
     el_chapter_number := Fault e;
     el_section_number := Fault e;
     el_explanation_text := Fault e;
     el_explanation_name := Fault e;
     el_arabic_unicodes := Fault e;
     el_chapter_name := Fault e;
     el_chapter_arabic_unicode := Fault e |}.

(** What an element holds for the verse record and the cross references:
    the values of the calls made up to the assignment of [verses], when all
    of them deliver.  The two chapter titles are asked for only when the
    chapter changes; a title that would not be delivered counts as the
    empty text. *)
Definition reading (x : verse_element) : option observation :=
  match el_click x, el_wait x, el_active_chapter x,
        el_verse_number x, el_chapter_number x, el_section_number x,
        el_explanation_text x, el_explanation_name x, el_arabic_unicodes x
  with
  | Got _, Got _, Got _, Got verse, Got chapter, Got section,
    Got text, Got name, Got unicodes =>
      Some {| verse_number := verse;
              chapter_number := chapter;
              section_number := section;
              explanation_text := text;
              explanation_name := name;
              arabic_unicodes := unicodes;
              chapter_name := default "" (got (el_chapter_name x));
              chapter_arabic_unicode :=
                default "" (got (el_chapter_arabic_unicode x)) |}
  | _, _, _, _, _, _, _, _, _ => None
  end.

Definition page_entries (page_id : Z) (items : list verse_element)
    : list entry :=
  (λ o, (page_id, o)) <$> omap reading items.

Definition page_log (pe : page_element) : list entry :=
  page_entries (page_number pe) (verse_list pe).

(** Page numbers and observations of a page list, in reading order. *)
Definition page_numbers (page_list : list (fetch page_element)) : list Z :=
  page_number <$> omap got page_list.
Definition observed (page_list : list (fetch page_element)) : list entry :=
  omap got page_list ≫= page_log.

(** An id, once followed by a different one, does not come back: on such a
    sequence "differs from the previous id" and "seen for the first time"
    coincide. *)
Definition no_return (l : list Z) : Prop :=
  ∀ pre y x post, l = pre ++ y :: x :: post → x ≠ y → x ∉ pre.

Fixpoint has_colon (s : string) : bool :=
  match s with
  | EmptyString => false
  | String a s' => bool_decide (a = ":"%char) || has_colon s'
  end.

(** ** State properties *)

(** A state property that no statement of a block breaks, whether the block
    returns or raises. *)
Definition preserves {A} (P : state → Prop) (m : py A) : Prop :=
  ∀ st, P st → P (snd (m st)).

(** Every chapter record was built by the literal of lines 316-326 for its
    own key, and only its three collections were touched afterwards. *)
Definition chapters_wf (st : state) : Prop :=
  ∀ c ch, chapters st !! c = Some ch →
    ch_id ch = c ∧ ch_number ch = c ∧
    ch_basmalah ch = bool_decide (c ∉ NO_BASMALA).

(** Every explanation record was built by the literal of lines 291-301. *)
Definition explanations_wf (st : state) : Prop :=
  ∀ k e, explanations st !! k = Some e →
    ex_id e = k ∧ ex_verse e = k ∧ ex_language e = "AR".

Definition records_wf (st : state) : Prop :=
  chapters_wf st ∧ explanations_wf st.

(** Both pointers name a record. *)
Definition ready (st : state) : Prop :=
  is_Some (chapters st !! current_chapter st) ∧
  is_Some (sections st !! current_section st).

(** No verse iteration has started yet: the pointers still hold the
    sentinel and four of the dictionaries are empty. *)
Definition untouched (st : state) : Prop :=
  current_chapter st = 0 ∧ current_section st = 0 ∧
  chapters st = ∅ ∧ sections st = ∅ ∧
  verses st = ∅ ∧ explanations st = ∅.

(** What the dictionaries hold after the entries [seen] were ingested. *)
Record consistent (seen : list entry) (st : state) : Prop := {
  verses_from : ∀ k v, verses st !! k = Some v →
    ∃ e, e ∈ seen ∧ k = entry_id e ∧ v = new_verse e.1 e.2;
  verses_all : ∀ e, e ∈ seen → is_Some (verses st !! entry_id e);
  explanations_dom :
    dom (explanations st) = list_to_set (entry_id <$> seen);
  pages_from : ∀ p pg, pages st !! p = Some pg →
    ∃ l, l `sublist_of` seen ∧
      pg_verses pg = entry_id <$> l ∧
      pg_chapters pg = list_to_set (entry_chapter <$> l) ∧
      pg_sections pg = list_to_set (entry_section <$> l);
  chapters_from : ∀ c ch, chapters st !! c = Some ch →
    ∃ l, l `sublist_of` seen ∧ ch_verses ch = entry_id <$> l;
  sections_from : ∀ s sec, sections st !! s = Some sec →
    ∃ l, l `sublist_of` seen ∧ sec_verses sec = entry_id <$> l;
  resolves : ∀ e, e ∈ seen →
    is_Some (pages st !! e.1) ∧
    is_Some (chapters st !! entry_chapter e) ∧
    is_Some (sections st !! entry_section e)
}.

(** No record that an ingested entry was appended to has been replaced
    since. *)
Record complete (seen : list entry) (st : state) : Prop := {
  in_page : ∀ e, e ∈ seen →
    ∃ pg, pages st !! e.1 = Some pg ∧ entry_id e ∈ pg_verses pg;
  in_chapter : ∀ e, e ∈ seen →
    ∃ ch, chapters st !! entry_chapter e = Some ch ∧
          entry_id e ∈ ch_verses ch;
  in_section : ∀ e, e ∈ seen →
    ∃ sec, sections st !! entry_section e = Some sec ∧
           entry_id e ∈ sec_verses sec;
  at_chapter : current_chapter st = default 0 (last (entry_chapter <$> seen));
  at_section : current_section st = default 0 (last (entry_section <$> seen))
}.

(** ** Synthetic sources *)

(** An observation with the given chapter, section and verse numbers. *)
Definition synthetic (chapter section verse : Z) : observation :=
  {| verse_number := verse; chapter_number := chapter;
     section_number := section;
     explanation_text := "tafsir"; explanation_name := "name";
     arabic_unicodes := ["a"; "b"];
     chapter_name := "chapter"; chapter_arabic_unicode := "sura" |}.

(** A page whose verses are all delivered. *)
Definition delivered (page : Z) (os : list observation) : fetch page_element :=
  Got (PageElement page (deliver <$> os)).

(** The state in which the inner loop of the first page starts. *)
Definition first_page_open (page : Z) : state :=
  set_pages (insert page (new_page page page)) module_state.

(** The end-to-end scenario: one page, three verses, two chapters. *)
Definition three_observations : list (fetch page_element) :=
  [delivered 1 [synthetic 1 1 1; synthetic 1 1 2; synthetic 2 1 1]].

(** An element that is clicked and whose wait (line 278) raises [e]. *)
Definition wait_raises (e : exn) : verse_element :=
  {| el_click := Got tt;
     el_wait := Fault e;
     el_active_chapter := Fault e;
     el_verse_number := Fault e;
     el_chapter_number := Fault e;
     el_section_number := Fault e;
     el_explanation_text := Fault e;
     el_explanation_name := Fault e;
     el_arabic_unicodes := Fault e;
     el_chapter_name := Fault e;
     el_chapter_arabic_unicode := Fault e |}.

(** Five verses planned on one page; the interrupt arrives while the driver
    waits for the third. *)
Definition cancelled_after_two : list (fetch page_element) :=
  [Got (PageElement 1
     [deliver (synthetic 1 1 1); deliver (synthetic 1 1 2);
      wait_raises KeyboardInterrupt;
      deliver (synthetic 1 1 3); deliver (synthetic 1 1 4);
      deliver (synthetic 1 1 5)])].

(** Chapter 1 is left for chapter 2 and then entered again. *)
Definition two_chapters_seen : state :=
  snd (for_each (verse_iteration 1)
         (deliver <$> [synthetic 1 1 1; synthetic 2 1 1]) (first_page_open 1)).
Definition chapter_one_revisited : state :=
  snd (ingest 1 (synthetic 1 1 2) two_chapters_seen).

(** The state in which the interrupt of [cancelled_after_two] arrives. *)
Definition two_ingested : state :=
  snd (for_each (verse_iteration 1)
         (deliver <$> [synthetic 1 1 1; synthetic 1 1 2]) (first_page_open 1)).

(** The same verse delivered twice on one page. *)
Definition verse_repeated : list (fetch page_element) :=
  [delivered 1 [synthetic 1 1 1; synthetic 1 1 1]].

(** The same verse delivered twice, under section 1 and then section 2. *)
Definition verse_repeated_in_section_two : list (fetch page_element) :=
  [delivered 1 [synthetic 1 1 1; synthetic 1 2 1]].

(** One page on which chapter 1 is left for chapter 2 and entered again;
    the three verse ids are distinct. *)
Definition chapter_revisited : list (fetch page_element) :=
  [delivered 1 [synthetic 1 1 1; synthetic 2 1 1; synthetic 1 1 2]].

(** Section 1 is left for section 2 and entered again. *)
Definition section_revisited : list (fetch page_element) :=
  [delivered 1 [synthetic 1 1 1; synthetic 1 2 2; synthetic 1 1 3]].

(** The page list names page 1 twice. *)
Definition page_listed_twice : list (fetch page_element) :=
  [delivered 1 [synthetic 1 1 1]; delivered 1 [synthetic 1 1 2]].

(** * Further vocabulary *)

(** ** Exceptions a source holds *)

Definition fetch_faults {A} (x : fetch A) : list exn :=
  match x with Fault e => [e] | Got _ => [] end.

(** Every exception the calls of a verse element are set to raise. *)
Definition element_faults (x : verse_element) : list exn :=
  fetch_faults (el_click x) ++ fetch_faults (el_wait x)
    ++ fetch_faults (el_active_chapter x)
    ++ fetch_faults (el_verse_number x)
    ++ fetch_faults (el_chapter_number x)
    ++ fetch_faults (el_section_number x)
    ++ fetch_faults (el_explanation_text x)
    ++ fetch_faults (el_explanation_name x)
    ++ fetch_faults (el_arabic_unicodes x)
    ++ fetch_faults (el_chapter_name x)
    ++ fetch_faults (el_chapter_arabic_unicode x).

Definition verse_faults (items : list verse_element) : list exn :=
  items ≫= element_faults.

(** Every exception the browser and the getters are set to raise, at page
    or verse level. *)
Definition faults (page_list : list (fetch page_element)) : list exn :=
  page_list ≫= (λ x, match x with
                     | Fault e => [e]
                     | Got pe => verse_faults (verse_list pe)
                     end).

(** The element with the values [o] whose section title holds no number:
    [int] raises [ValueError] on line 208. *)
Definition without_section_number (o : observation) : verse_element :=
  {| el_click := Got tt;
     el_wait := Got tt;
     el_active_chapter := Got tt;
     el_verse_number := Got (verse_number o);
     el_chapter_number := Got (chapter_number o);
     el_section_number := Fault ValueError;
     el_explanation_text := Got (explanation_text o);
     el_explanation_name := Got (explanation_name o);
     el_arabic_unicodes := Got (arabic_unicodes o);
     el_chapter_name := Got (chapter_name o);
     el_chapter_arabic_unicode := Got (chapter_arabic_unicode o) |}.

(** The element with the values [o] whose verse texts cannot be read
    (line 306), and the one whose chapter name cannot (line 319). *)
Definition without_arabic_unicodes (e : exn) (o : observation)
    : verse_element :=
  {| el_click := Got tt;
     el_wait := Got tt;
     el_active_chapter := Got tt;
     el_verse_number := Got (verse_number o);
     el_chapter_number := Got (chapter_number o);
     el_section_number := Got (section_number o);
     el_explanation_text := Got (explanation_text o);
     el_explanation_name := Got (explanation_name o);
     el_arabic_unicodes := Fault e;
     el_chapter_name := Got (chapter_name o);
     el_chapter_arabic_unicode := Got (chapter_arabic_unicode o) |}.

Definition without_chapter_name (e : exn) (o : observation) : verse_element :=
  {| el_click := Got tt;
     el_wait := Got tt;
     el_active_chapter := Got tt;
     el_verse_number := Got (verse_number o);
     el_chapter_number := Got (chapter_number o);
     el_section_number := Got (section_number o);
     el_explanation_text := Got (explanation_text o);
     el_explanation_name := Got (explanation_name o);
     el_arabic_unicodes := Got (arabic_unicodes o);
     el_chapter_name := Fault e;
     el_chapter_arabic_unicode := Got (chapter_arabic_unicode o) |}.

Definition section_unreadable : list (fetch page_element) :=
  [Got (PageElement 1
     [deliver (synthetic 1 1 1); without_section_number (synthetic 1 1 2)])].

(** ** More state properties *)

(** The key sets after the entries [seen] were ingested on the pages
    [visited]. *)
Record keyed (seen : list entry) (visited : list Z) (st : state) : Prop := {
  keys_pages : dom (pages st) = list_to_set visited;
  keys_chapters : dom (chapters st) = list_to_set (entry_chapter <$> seen);
  keys_sections : dom (sections st) = list_to_set (entry_section <$> seen);
  keys_verses : dom (verses st) = list_to_set (entry_id <$> seen)
}.

(** No key of [st] is missing from [st']. *)
Definition grows (st st' : state) : Prop :=
  dom (verses st) ⊆ dom (verses st') ∧
  dom (pages st) ⊆ dom (pages st') ∧
  dom (chapters st) ⊆ dom (chapters st') ∧
  dom (sections st) ⊆ dom (sections st') ∧
  dom (explanations st) ⊆ dom (explanations st').

Definition extends {A} (m : py A) : Prop := ∀ st, grows st (snd (m st)).

(** Page and section records carry their key as id; a verse record carries
    its key, names itself as its only explanation, and is never without an
    explanation record. *)
Definition pages_wf (st : state) : Prop :=
  ∀ p pg, pages st !! p = Some pg → pg_id pg = p ∧ pg_number pg = p.
Definition sections_wf (st : state) : Prop :=
  ∀ s sec, sections st !! s = Some sec → sec_id sec = s.
Definition verses_wf (st : state) : Prop :=
  ∀ k v, verses st !! k = Some v →
    v_id v = k ∧ v_explanations v = [k] ∧ is_Some (explanations st !! k).

Definition ids_wf (st : state) : Prop :=
  pages_wf st ∧ sections_wf st ∧ verses_wf st.

(** Verse and explanation records come in pairs with the same back
    references. *)
Definition paired (st : state) : Prop :=
  (∀ k v, verses st !! k = Some v →
     ∃ e, explanations st !! k = Some e ∧
          ex_page e = v_page v ∧ ex_section e = v_section v ∧
          ex_chapter e = v_chapter v) ∧
  (∀ k, is_Some (explanations st !! k) → is_Some (verses st !! k)).

(** ** Value getters (lines 189-218)

    The texts are what [get_attribute] returns.  A Python [str] is taken in
    its UTF-8 encoding: the three patterns name ASCII characters only, and
    no byte of a multi-byte sequence is an ASCII character, so matching
    bytes and matching code points remove the same characters. *)

Definition is_digit (a : ascii) : bool :=
  (48 <=? nat_of_ascii a)%nat && (nat_of_ascii a <=? 57)%nat.

(** [re.sub(r'[^0-9]', '', s)], line 208: every character that is no ASCII
    digit is a match and is replaced by nothing. *)
Fixpoint sub_non_digits (s : string) : string :=
  match s with
  | EmptyString => EmptyString
  | String a s' =>
      if is_digit a then String a (sub_non_digits s') else sub_non_digits s'
  end.

(** [re.sub(r'[0-9]+', '', s)], line 218: every maximal run of ASCII digits
    is a match and is replaced by nothing. *)
Fixpoint sub_digits (s : string) : string :=
  match s with
  | EmptyString => EmptyString
  | String a s' =>
      if is_digit a then sub_digits s' else String a (sub_digits s')
  end.

(** Matching the literal part of a pattern at the start of [s]. *)
Fixpoint strip_prefix (p s : string) : option string :=
  match p with
  | EmptyString => Some s
  | String a p' =>
      match s with
      | EmptyString => None
      | String b s' => if decide (a = b) then strip_prefix p' s' else None
      end
  end.

(** The longest run of digits at the start of [s], and what follows. *)
Fixpoint digit_run (s : string) : nat * string :=
  match s with
  | EmptyString => (O, EmptyString)
  | String a s' =>
      if is_digit a
      then let '(n, rest) := digit_run s' in (S n, rest)
      else (O, s)
  end.

(** Length of the match of [sura_[0-9]+_aya_] at the start of [s].  The
    digits are matched greedily; giving some of them back cannot help, since
    the literal that follows starts with an underscore. *)
Definition match_sura_aya (s : string) : option nat :=
  match strip_prefix "sura_" s with
  | None => None
  | Some s1 =>
      match digit_run s1 with
      | (O, _) => None
      | (S n, s2) =>
          match strip_prefix "_aya_" s2 with
          | None => None
          | Some _ => Some (5 + S n + 5)%nat
          end
      end
  end.

(** [re.sub(r'sura_[0-9]+_aya_', '', s)], line 198: scanning from the left,
    a match is dropped and the scan goes on behind it; [skip] counts the
    characters of the current match still to drop. *)
Fixpoint sub_sura_aya_from (skip : nat) (s : string) : string :=
  match s with
  | EmptyString => EmptyString
  | String a s' =>
      match skip with
      | S k => sub_sura_aya_from k s'
      | O =>
          match match_sura_aya s with
          | Some (S k) => sub_sura_aya_from k s'
          | _ => String a (sub_sura_aya_from O s')
          end
      end
  end.

Definition sub_sura_aya (s : string) : string := sub_sura_aya_from O s.

Section value_getters.
(** The builtin [int] on a [str]: a number, or an exception
    ([ValueError]). *)
Variable int : string → result Z.

(** Line 190. *)
Definition get_page_number (text : string) : result Z := int text.

(** Line 198. *)
Definition get_verse_number (id : string) : result Z :=
  int (sub_sura_aya id).

(** Line 208. *)
Definition get_section_number (text : string) : result Z :=
  int (sub_non_digits text).

(** Line 212. *)
Definition get_chapter_number (text : string) : result Z := int text.

(** Line 218. *)
Definition get_chapter_arabic_unicode (text : string) : string :=
  sub_digits text.
End value_getters.

(** Reading a string of digits in base ten. *)
Definition digit_value (a : ascii) : Z := Z.of_nat (nat_of_ascii a) - 48.

Fixpoint decimal_from (acc : Z) (s : string) : Z :=
  match s with
  | EmptyString => acc
  | String a s' => decimal_from (10 * acc + digit_value a) s'
  end.

Definition decimal (s : string) : Z := decimal_from 0 s.

Fixpoint all_digits (s : string) : bool :=
  match s with
  | EmptyString => true
  | String a s' => is_digit a && all_digits s'
  end.

Fixpoint no_digit (s : string) : bool :=
  match s with
  | EmptyString => true
  | String a s' => negb (is_digit a) && no_digit s'
  end.

(** What is used of [int]: the empty string is refused, and a string of
    ASCII digits is read in base ten.  The bound is the one interpreters
    from 3.11 on put on the number of digits; older ones have none. *)
Definition decimal_int (int : string → result Z) : Prop :=
  int EmptyString = Raise ValueError ∧
  ∀ s, s ≠ EmptyString → all_digits s = true →
       (String.length s ≤ 4300)%nat → int s = Return (decimal s).

(** An [int] that reads ASCII digits and refuses everything else. *)
Definition digits_int (s : string) : result Z :=
  match s with
  | EmptyString => Raise ValueError
  | _ => if all_digits s then Return (decimal s) else Raise ValueError
  end.

(** ** The loop with its clicks, waits and log lines (lines 95-105, 253-354)

    The dictionaries together with what has been printed. *)
Record world := World {
  dicts : state;
  stdout : list string
}.

Definition io (A : Type) : Type := world → result A * world.

Definition io_ret {A} (a : A) : io A := λ w, (Return a, w).

Definition io_bind {A B} (m : io A) (k : A → io B) : io B := λ w,
  match m w with
  | (Return a, w') => k a w'
  | (Raise e, w') => (Raise e, w')
  end.

Declare Scope io_scope.
Delimit Scope io_scope with io.
Notation "x <- m ;; k" := (io_bind m (λ x, k))
  (at level 100, m at next level, right associativity) : io_scope.
Notation "m ;; k" := (io_bind m (λ _, k))
  (at level 100, right associativity) : io_scope.

(** A statement on the dictionaries, run in the world. *)
Definition lift {A} (m : py A) : io A := λ w,
  let '(r, st) := m (dicts w) in (r, {| dicts := st; stdout := stdout w |}).

(** The outcome of a call into the browser. *)
Definition of_result {A} (r : result A) : io A := λ w, (r, w).

Definition print (line : string) : io unit := λ w,
  (Return tt, {| dicts := dicts w; stdout := stdout w ++ [line] |}).

Fixpoint for_each_io {A} (body : A → io unit) (l : list A) : io unit :=
  match l with
  | [] => io_ret tt
  | x :: l' => (body x ;; for_each_io body l')%io
  end.

Definition when_io (b : bool) (body : io unit) : io unit :=
  if b then body else io_ret tt.

(** The two command line arguments [log] reads (lines 41-42). *)
Record args := Args {
  args_log : bool;
  args_log_width : Z
}.

(** [s * n] on a [str]: nothing for [n <= 0]. *)
Fixpoint string_times (n : nat) (s : string) : string :=
  match n with
  | O => EmptyString
  | S k => s +:+ string_times k s
  end.
Definition str_mul (s : string) (n : Z) : string := string_times (Z.to_nat n) s.

(** [log(key, value, wrapper)], lines 95-99; [value] is passed as
    [str(value)]. *)
Definition log (a : args) (key value : string) (wrapper : option string)
    : io unit :=
  when_io (args_log a)
    (match wrapper with
     | Some wr => print (str_mul wr (args_log_width a))
     | None => io_ret tt
     end ;;
     print (key +:+ ": " +:+ value) ;;
     match wrapper with
     | Some wr => print (str_mul wr (args_log_width a))
     | None => io_ret tt
     end)%io.

(** What the two ways of clicking an element do when tried. *)
Record click := Click {
  native_click : result unit;
  script_click : result unit
}.

(** [click_element], lines 101-105: the bare [except] catches whatever the
    native click raises. *)
Definition click_element (c : click) : io unit :=
  match native_click c with
  | Return _ => io_ret tt
  | Raise _ => of_result (script_click c)
  end.

(** One [span.aya] of a page, as the driver finds it: the inner span that
    is clicked (line 277), the wait of line 278, the active chapter entry
    (line 280), and the attributes the value getters read, as texts. *)
Record verse_dom := VerseDom {
  verse_target : fetch click;
  verse_wait : result unit;
  active_chapter_element : fetch unit;
  verse_id_attribute : fetch string;
  chapter_number_text : fetch string;
  section_title_text : fetch string;
  explanation_text_attribute : fetch string;
  explanation_name_attribute : fetch string;
  arabic_unicode_texts : fetch (list string);
  chapter_name_text : fetch string;
  chapter_title_text : fetch string
}.

(** One entry of the page list: finding its clickable part (line 260), the
    text of its badge (line 262), the wait of line 274, its verse elements
    (line 276). *)
Record page_dom := PageDom {
  page_target : fetch click;
  page_badge : fetch string;
  page_wait : result unit;
  page_verses : fetch (list verse_dom)
}.

(** The application: the commentary tab (line 257) and the page list
    (line 259). *)
Record browser := Browser {
  tafsir_tab : fetch click;
  page_list_elements : fetch (list page_dom)
}.

Section loop.
Variable int : string → result Z.

(** Lines 276-351. *)
Definition verse_iteration_io (a : args) (page_id : Z) (v : verse_dom)
    : io unit :=
  (c <- lift (fetched (verse_target v)) ;;
   click_element c ;;
   of_result (verse_wait v) ;;
   lift (fetched (active_chapter_element v)) ;;
   id <- lift (fetched (verse_id_attribute v)) ;;
   verse_number <- of_result (get_verse_number int id) ;;
   text <- lift (fetched (chapter_number_text v)) ;;
   chapter_number <- of_result (get_chapter_number int text) ;;
   text <- lift (fetched (section_title_text v)) ;;
   section_number <- of_result (get_section_number int text) ;;
   let verse_id := str chapter_number +:+ ":" +:+ str verse_number in
   let explanation_id := verse_id in
   let chapter_id := chapter_number in
   let section_id := section_number in
   text <- lift (fetched (explanation_text_attribute v)) ;;
   name <- lift (fetched (explanation_name_attribute v)) ;;
   lift (modify (set_explanations
                   (insert explanation_id
                      {| ex_id := explanation_id;
                         ex_text := text;
                         ex_name := name;
                         ex_language := "AR";
                         ex_verse := verse_id;
                         ex_page := page_id;
                         ex_section := section_id;
                         ex_chapter := chapter_id |}))) ;;
   arabic_unicodes <- lift (fetched (arabic_unicode_texts v)) ;;
   lift (modify (set_verses
                   (insert verse_id
                      {| v_id := verse_id;
                         v_number := verse_number;
                         v_arabic_unicodes := arabic_unicodes;
                         v_explanations := [explanation_id];
                         v_page := page_id;
                         v_section := section_id;
                         v_chapter := chapter_id |}))) ;;
   cur <- lift (get current_chapter) ;;
   when_io (bool_decide (chapter_id ≠ cur))
     (lift (modify (set_current_chapter chapter_id)) ;;
      name <- lift (fetched (chapter_name_text v)) ;;
      title <- lift (fetched (chapter_title_text v)) ;;
      lift (modify (set_chapters
                      (insert chapter_id
                         {| ch_id := chapter_id;
                            ch_number := chapter_number;
                            ch_name := name;
                            ch_aranic_unicode :=
                              get_chapter_arabic_unicode title;
                            ch_basmalah :=
                              bool_decide (chapter_id ∉ NO_BASMALA);
                            ch_verses := []; ch_pages := [];
                            ch_sections := ∅ |}))) ;;
      log a "Chapter" (str chapter_id) (Some "-")) ;;
   cur <- lift (get current_section) ;;
   when_io (bool_decide (section_id ≠ cur))
     (lift (modify (set_current_section section_id)) ;;
      lift (modify (set_sections (insert section_id (new_section section_id)))) ;;
      log a "Section" (str section_id) (Some "*")) ;;
   lift (chapters_at chapter_id (chapter_sections_add section_id)) ;;
   lift (pages_at page_id (page_sections_add section_id)) ;;
   lift (sections_at section_id (section_chapters_add chapter_id)) ;;
   lift (pages_at page_id (page_chapters_add chapter_id)) ;;
   lift (chapters_at chapter_id (chapter_verses_append verse_id)) ;;
   lift (sections_at section_id (section_verses_append verse_id)) ;;
   lift (pages_at page_id (page_verses_append verse_id)) ;;
   log a "Verse" verse_id None)%io.

(** Lines 259-354. *)
Definition page_iteration_io (a : args) (p : page_dom) : io unit :=
  (c <- lift (fetched (page_target p)) ;;
   click_element c ;;
   text <- lift (fetched (page_badge p)) ;;
   page_number <- of_result (get_page_number int text) ;;
   let page_id := page_number in
   lift (modify (set_pages (insert page_id (new_page page_id page_number)))) ;;
   log a "Page" (str page_id) (Some "=") ;;
   of_result (page_wait p) ;;
   verse_elements <- lift (fetched (page_verses p)) ;;
   for_each_io (verse_iteration_io a page_id) verse_elements ;;
   lift (page_end page_id))%io.

(** The body of the [try], lines 254-354. *)
Definition scrapping_io (a : args) (b : browser) : io unit :=
  (lift (modify (set_current_chapter 0)) ;;
   lift (modify (set_current_section 0)) ;;
   c <- lift (fetched (tafsir_tab b)) ;;
   click_element c ;;
   page_elements <- lift (fetched (page_list_elements b)) ;;
   for_each_io (page_iteration_io a) page_elements)%io.
End loop.

(** ** What the aggregator sees of the browser *)

Definition clicked (t : fetch click) : result unit :=
  match t with
  | Fault e => Raise e
  | Got c =>
      match native_click c with
      | Return _ => Return tt
      | Raise _ => script_click c
      end
  end.

Definition as_fetch {A} (r : result A) : fetch A :=
  match r with
  | Return a => Got a
  | Raise e => Fault e
  end.

(** A value getter: the attribute is read, then converted. *)
Definition read_with {A B} (f : A → result B) (x : fetch A) : fetch B :=
  match x with
  | Got a => as_fetch (f a)
  | Fault e => Fault e
  end.

Definition verse_fetch (int : string → result Z) (v : verse_dom)
    : verse_element :=
  {| el_click := as_fetch (clicked (verse_target v));
     el_wait := as_fetch (verse_wait v);
     el_active_chapter := active_chapter_element v;
     el_verse_number :=
       read_with (get_verse_number int) (verse_id_attribute v);
     el_chapter_number :=
       read_with (get_chapter_number int) (chapter_number_text v);
     el_section_number :=
       read_with (get_section_number int) (section_title_text v);
     el_explanation_text := explanation_text_attribute v;
     el_explanation_name := explanation_name_attribute v;
     el_arabic_unicodes := arabic_unicode_texts v;
     el_chapter_name := chapter_name_text v;
     el_chapter_arabic_unicode :=
       read_with (λ title, Return (get_chapter_arabic_unicode title))
         (chapter_title_text v) |}.

Definition page_fetch (int : string → result Z) (p : page_dom)
    : fetch page_element :=
  match clicked (page_target p),
        read_with (get_page_number int) (page_badge p) with
  | Raise e, _ => Fault e
  | Return _, Fault e => Fault e
  | Return _, Got n =>
      Got (PageElement n
             match page_wait p, page_verses p with
             | Raise e, _ => [failing e]
             | Return _, Fault e => [failing e]
             | Return _, Got vs => verse_fetch int <$> vs
             end)
  end.

Definition browser_fetch (int : string → result Z) (b : browser)
    : list (fetch page_element) :=
  match clicked (tafsir_tab b), page_list_elements b with
  | Raise e, _ => [Fault e]
  | Return _, Fault e => [Fault e]
  | Return _, Got ps => page_fetch int <$> ps
  end.

(** The statement [m_io] does to the dictionaries what [m] does, and ends
    the same way. *)
Definition tracks {A} (m_io : io A) (m : py A) : Prop :=
  ∀ w, fst (m_io w) = fst (m (dicts w)) ∧
       dicts (snd (m_io w)) = snd (m (dicts w)).

(** The statement [m] prints nothing. *)
Definition silent {A} (m : io A) : Prop :=
  ∀ w, stdout (snd (m w)) = stdout w.

(** A line printed by [log('Verse', ...)]. *)
Definition is_verse_line (line : string) : bool :=
  match line with
  | String "V" _ => true
  | _ => false
  end.

(** The verse element of verse [verse] of chapter [chapter] in section
    [section], with the given way of being clicked: texts from which the
    getters read what [synthetic] holds. *)
Definition verse_of (target : click) (chapter section verse : Z) : verse_dom :=
  {| verse_target := Got target;
     verse_wait := Return tt;
     active_chapter_element := Got tt;
     verse_id_attribute :=
       Got ("sura_" +:+ str chapter +:+ "_aya_" +:+ str verse);
     chapter_number_text := Got (str chapter);
     section_title_text := Got ("Juz " +:+ str section);
     explanation_text_attribute := Got "tafsir";
     explanation_name_attribute := Got "name";
     arabic_unicode_texts := Got ["a"; "b"];
     chapter_name_text := Got "chapter";
     chapter_title_text := Got (str chapter +:+ "sura") |}.

(** A verse element that is clicked natively, and one whose native click
    raises [e] while the fallback click works. *)
Definition clean_verse (unused : result unit) (chapter section verse : Z)
    : verse_dom :=
  verse_of {| native_click := Return tt; script_click := unused |}
    chapter section verse.

Definition disturbed_verse (e : exn) (chapter section verse : Z) : verse_dom :=
  verse_of {| native_click := Raise e; script_click := Return tt |}
    chapter section verse.

(** A statement that returns and leaves the dictionaries alone. *)
Definition aside (m : io unit) : Prop :=
  ∀ w, fst (m w) = Return tt ∧ dicts (snd (m w)) = dicts w.

(** The ['Verse'] lines of an output, and the line of an entry. *)
Definition verse_lines (out : list string) : list string :=
  filter (λ line, is_verse_line line = true) out.
Definition verse_line (e : entry) : string := "Verse: " +:+ entry_id e.

(** The statement [m] prints no ['Verse'] line. *)
Definition quiet {A} (m : io A) : Prop :=
  ∀ w, verse_lines (stdout (snd (m w))) = verse_lines (stdout w).

(** When the statement [m] returns it has printed the ['Verse'] lines
    [lines], in this order, among other lines. *)
Definition logs_on_return (m : io unit) (lines : list string) : Prop :=
  ∀ w w', m w = (Return tt, w') →
    verse_lines (stdout w') = verse_lines (stdout w) ++ lines.

(** ** A synthetic browser *)

(** One page with two verses; the native click on the second one is hit by
    an interrupt. *)
Definition two_verse_browser : browser :=
  {| tafsir_tab := Got {| native_click := Return tt; script_click := Return tt |};
     page_list_elements :=
       Got [ {| page_target :=
                  Got {| native_click := Return tt; script_click := Return tt |};
                page_badge := Got "1";
                page_wait := Return tt;
                page_verses :=
                  Got [ clean_verse (Return tt) 1 1 1;
                        disturbed_verse KeyboardInterrupt 1 1 2 ]
             |} ] |}.

Definition fresh_world : world := {| dicts := module_state; stdout := [] |}.

(** ** Exceptions of the browser that [click_element] does not catch *)

Definition result_faults (r : result unit) : list exn :=
  match r with Raise e => [e] | Return _ => [] end.

(** Finding the element, and the fallback click; the native click is left
    out. *)
Definition click_faults (t : fetch click) : list exn :=
  match t with
  | Fault e => [e]
  | Got c => result_faults (script_click c)
  end.

(** The click, the wait, and every read of a value getter, the conversion
    by [int] included. *)
Definition verse_dom_faults (int : string → result Z) (v : verse_dom)
    : list exn :=
  click_faults (verse_target v) ++ result_faults (verse_wait v)
    ++ fetch_faults (active_chapter_element v)
    ++ fetch_faults (read_with (get_verse_number int) (verse_id_attribute v))
    ++ fetch_faults
         (read_with (get_chapter_number int) (chapter_number_text v))
    ++ fetch_faults
         (read_with (get_section_number int) (section_title_text v))
    ++ fetch_faults (explanation_text_attribute v)
    ++ fetch_faults (explanation_name_attribute v)
    ++ fetch_faults (arabic_unicode_texts v)
    ++ fetch_faults (chapter_name_text v)
    ++ fetch_faults (chapter_title_text v).

Definition page_dom_faults (int : string → result Z) (p : page_dom)
    : list exn :=
  click_faults (page_target p)
    ++ fetch_faults (read_with (get_page_number int) (page_badge p))
    ++ result_faults (page_wait p)
    ++ match page_verses p with
       | Fault e => [e]
       | Got vs => vs ≫= verse_dom_faults int
       end.

Definition browser_faults (int : string → result Z) (b : browser)
    : list exn :=
  click_faults (tafsir_tab b)
    ++ match page_list_elements b with
       | Fault e => [e]
       | Got ps => ps ≫= page_dom_faults int
       end.

(** Every native click is interrupted; the wait for the first page times
    out. *)
Definition stalled_browser : browser :=
  {| tafsir_tab :=
       Got {| native_click := Raise KeyboardInterrupt;
              script_click := Return tt |};
     page_list_elements :=
       Got [ {| page_target :=
                  Got {| native_click := Raise KeyboardInterrupt;
                         script_click := Return tt |};
                page_badge := Got "1";
                page_wait := Raise WebDriverException;
                page_verses := Got [] |} ] |}.

(** ** Where the cross references come from *)

(** After the entries [seen] were ingested on the pages [visited]: the ids
    in the set and in the page list of a chapter or section record. *)
Record referenced (seen : list entry) (visited : list Z) (st : state)
    : Prop := {
  chapter_sections_from : ∀ c ch, chapters st !! c = Some ch →
    ∀ s, s ∈ ch_sections ch →
      ∃ e, e ∈ seen ∧ entry_chapter e = c ∧ entry_section e = s;
  chapter_pages_from : ∀ c ch, chapters st !! c = Some ch →
    ∀ p, p ∈ ch_pages ch → p ∈ visited;
  section_chapters_from : ∀ s sec, sections st !! s = Some sec →
    ∀ c, c ∈ sec_chapters sec →
      ∃ e, e ∈ seen ∧ entry_chapter e = c ∧ entry_section e = s;
  section_pages_from : ∀ s sec, sections st !! s = Some sec →
    ∀ p, p ∈ sec_pages sec → p ∈ visited
}.

(** * Properties *)

(** ** One verse iteration *)

Ltac unfold_setters :=
  unfold set_chapters, set_sections, set_pages, set_current_chapter,
    set_current_section, set_verses, set_explanations in *; simpl in *.

Lemma state_ext st1 st2 :
  verses st1 = verses st2 → pages st1 = pages st2 →
  chapters st1 = chapters st2 → sections st1 = sections st2 →
  explanations st1 = explanations st2 →
  current_chapter st1 = current_chapter st2 →
  current_section st1 = current_section st2 →
  st1 = st2.
Proof. destruct st1, st2; simpl; congruence. Qed.

Lemma ingest_recorded page_id o st :
  ingest page_id o st =
    (chapters_at (chapter_number o) (chapter_sections_add (section_number o)) ;;
     pages_at page_id (page_sections_add (section_number o)) ;;
     sections_at (section_number o) (section_chapters_add (chapter_number o)) ;;
     pages_at page_id (page_chapters_add (chapter_number o)) ;;
     chapters_at (chapter_number o) (chapter_verses_append (verse_id_of o)) ;;
     sections_at (section_number o) (section_verses_append (verse_id_of o)) ;;
     pages_at page_id (page_verses_append (verse_id_of o)))
    (recorded page_id o st).
Proof.
  unfold ingest, recorded, py_bind, modify, get, when, py_ret; simpl.
  destruct st as [vs ps cs ss es cc cs']; simpl.
  repeat (case_bool_decide; case_decide; try done; simpl);
    unfold_setters; by subst.
Qed.

Lemma ingest_return page_id o st c p s :
  chapters (recorded page_id o st) !! chapter_number o = Some c →
  pages st !! page_id = Some p →
  sections (recorded page_id o st) !! section_number o = Some s →
  ingest page_id o st = (Return tt, linked page_id o st c p s).
Proof.
  intros Hc Hp Hs. rewrite ingest_recorded.
  unfold py_bind, chapters_at, pages_at, sections_at; simpl in *.
  repeat (first [rewrite Hc | rewrite Hp | rewrite Hs
                 | rewrite lookup_insert_eq]; simpl).
  f_equal. apply state_ext; simpl; by rewrite ?insert_insert_eq.
Qed.

Lemma ingest_no_chapter page_id o st :
  chapters (recorded page_id o st) !! chapter_number o = None →
  ingest page_id o st =
    (Raise (KeyError (chapter_number o)), recorded page_id o st).
Proof.
  intros Hc. rewrite ingest_recorded.
  unfold py_bind, chapters_at; simpl in *. by rewrite Hc.
Qed.

Lemma ingest_no_page page_id o st c :
  chapters (recorded page_id o st) !! chapter_number o = Some c →
  pages st !! page_id = None →
  fst (ingest page_id o st) = Raise (KeyError page_id).
Proof.
  intros Hc Hp. rewrite ingest_recorded.
  unfold py_bind, chapters_at, pages_at; simpl in *. rewrite Hc; simpl. by rewrite Hp.
Qed.

Lemma ingest_no_section page_id o st c p :
  chapters (recorded page_id o st) !! chapter_number o = Some c →
  pages st !! page_id = Some p →
  sections (recorded page_id o st) !! section_number o = None →
  fst (ingest page_id o st) = Raise (KeyError (section_number o)) ∧
  sections (snd (ingest page_id o st)) = sections (recorded page_id o st).
Proof.
  intros Hc Hp Hs. rewrite ingest_recorded.
  unfold py_bind, chapters_at, pages_at, sections_at; simpl in *.
  rewrite Hc; simpl. rewrite Hp; simpl. by rewrite Hs.
Qed.

(** A verse iteration that returns went through all three lookups. *)
Lemma ingest_return_inv page_id o st st' :
  ingest page_id o st = (Return tt, st') →
  ∃ c p s,
    chapters (recorded page_id o st) !! chapter_number o = Some c ∧
    pages st !! page_id = Some p ∧
    sections (recorded page_id o st) !! section_number o = Some s ∧
    st' = linked page_id o st c p s.
Proof.
  intros Hrun.
  destruct (chapters (recorded page_id o st) !! chapter_number o) as [c|] eqn:Hc.
  2:{ rewrite ingest_no_chapter in Hrun by done. discriminate. }
  destruct (pages st !! page_id) as [p|] eqn:Hp.
  2:{ pose proof (ingest_no_page _ _ _ _ Hc Hp) as E.
      rewrite Hrun in E. discriminate. }
  destruct (sections (recorded page_id o st) !! section_number o) as [s|] eqn:Hs.
  2:{ pose proof (ingest_no_section _ _ _ _ _ Hc Hp Hs) as [E _].
      rewrite Hrun in E. discriminate. }
  exists c, p, s. repeat split; try done.
  rewrite (ingest_return _ _ _ _ _ _ Hc Hp Hs) in Hrun. congruence.
Qed.

(** ** Generic facts about statements *)

Lemma bind_return_inv {A B} (m : py A) (k : A → py B) st b st' :
  py_bind m k st = (Return b, st') →
  ∃ a st1, m st = (Return a, st1) ∧ k a st1 = (Return b, st').
Proof.
  unfold py_bind. destruct (m st) as [[a|e] st1]; [eauto | discriminate].
Qed.

Lemma bind_return {A B} (m : py A) (k : A → py B) st a st1 :
  m st = (Return a, st1) → py_bind m k st = k a st1.
Proof. unfold py_bind. by intros ->. Qed.

Lemma bind_raise {A B} (m : py A) (k : A → py B) st e st1 :
  m st = (Raise e, st1) → py_bind m k st = (Raise e, st1).
Proof. unfold py_bind. by intros ->. Qed.

Lemma for_each_cons {A} (body : A → py unit) x l :
  for_each body (x :: l) = (body x ;; for_each body l).
Proof. done. Qed.

Lemma for_each_app {A} (body : A → py unit) l1 l2 st :
  for_each body (l1 ++ l2) st =
    (for_each body l1 ;; for_each body l2) st.
Proof.
  revert st. induction l1 as [|x l1 IH]; intros st; simpl.
  - done.
  - unfold py_bind in *. destruct (body x st) as [[[]|e] st1]; [|done].
    apply IH.
Qed.

(** ** One verse iteration, call by call *)

(** When every call delivers, the iteration is the ingestion of the values
    delivered. *)
Lemma verse_iteration_deliver page_id o :
  verse_iteration page_id (deliver o) = ingest page_id o.
Proof. reflexivity. Qed.

Ltac fault_here :=
  rewrite ?elem_of_app; simpl;
  repeat first [ by (left; left) | by left | right ].

Ltac raises_fault e :=
  right; exists e; split; [reflexivity | fault_here].

Ltac chapter_getter_fault cn st e :=
  destruct (decide (cn = current_chapter st)) as [Heq|Hne];
  [ left; eexists; split; [reflexivity|];
    unfold verse_iteration, ingest, py_bind, fetched, py_ret, modify, get;
    simpl; rewrite bool_decide_eq_false_2 by (by intros H; apply H);
    reflexivity
  | right; exists e; split; [|fault_here];
    unfold verse_iteration, py_bind, fetched, py_ret, modify, get;
    simpl; rewrite bool_decide_eq_true_2 by done;
    reflexivity ].

(** An iteration either raises what one of its calls raises, or does what
    the ingestion of the values read does: the chapter titles are not asked
    for unless the chapter changes. *)
Lemma verse_iteration_cases page_id x st :
  (∃ o, reading x = Some o ∧
        verse_iteration page_id x st = ingest page_id o st) ∨
  (∃ e, fst (verse_iteration page_id x st) = Raise e ∧ e ∈ element_faults x).
Proof.
  destruct x as [c w ac vn cn sn t n us cname cuni].
  unfold element_faults; simpl.
  destruct c as [[]|e]; [|raises_fault e].
  destruct w as [[]|e]; [|raises_fault e].
  destruct ac as [[]|e]; [|raises_fault e].
  destruct vn as [vn|e]; [|raises_fault e].
  destruct cn as [cn|e]; [|raises_fault e].
  destruct sn as [sn|e]; [|raises_fault e].
  destruct t as [t|e]; [|raises_fault e].
  destruct n as [n|e]; [|raises_fault e].
  destruct us as [us|e]; [|raises_fault e].
  destruct cname as [cname|e], cuni as [cuni|e'].
  - left. eexists. split; reflexivity.
  - chapter_getter_fault cn st e'.
  - chapter_getter_fault cn st e.
  - chapter_getter_fault cn st e.
Qed.

Lemma verse_iteration_return_inv page_id x st st' :
  verse_iteration page_id x st = (Return tt, st') →
  ∃ o, reading x = Some o ∧ ingest page_id o st = (Return tt, st').
Proof.
  intros Hrun.
  destruct (verse_iteration_cases page_id x st)
    as [(o & Ho & Heq)|(e & He & _)].
  - exists o. by rewrite <-Heq.
  - by rewrite Hrun in He.
Qed.

Section preservation.
Context (P : state → Prop).

Lemma preserves_ret {A} (a : A) : preserves P (py_ret a).
Proof. by intros st. Qed.

Lemma preserves_raise {A} e : preserves P (@raise A e).
Proof. by intros st. Qed.

Lemma preserves_get {A} (f : state → A) : preserves P (get f).
Proof. by intros st. Qed.

Lemma preserves_bind {A B} (m : py A) (k : A → py B) :
  preserves P m → (∀ a, preserves P (k a)) → preserves P (py_bind m k).
Proof.
  intros Hm Hk st HP. unfold py_bind.
  specialize (Hm st HP). destruct (m st) as [[a|e] st1]; simpl in *.
  - by apply Hk.
  - done.
Qed.

Lemma preserves_for_each {A} (body : A → py unit) l :
  (∀ x, preserves P (body x)) → preserves P (for_each body l).
Proof.
  intros Hbody. induction l as [|x l IH]; simpl.
  - apply preserves_ret.
  - apply preserves_bind; [apply Hbody | intros _; apply IH].
Qed.

Lemma preserves_when b (body : py unit) :
  preserves P body → preserves P (when b body).
Proof. destruct b; simpl; [done | intros _; apply preserves_ret]. Qed.

Lemma preserves_fetched {A} (x : fetch A) : preserves P (fetched x).
Proof. destruct x; [apply preserves_ret | apply preserves_raise]. Qed.
End preservation.

Lemma records_wf_module_state : records_wf module_state.
Proof. split; intros k x; simpl; by rewrite lookup_empty. Qed.

Lemma records_wf_chapters_at k f :
  (∀ c, ch_id (f c) = ch_id c ∧ ch_number (f c) = ch_number c ∧
        ch_basmalah (f c) = ch_basmalah c) →
  preserves records_wf (chapters_at k f).
Proof.
  intros Hf st [Hc He]. unfold chapters_at.
  destruct (chapters st !! k) as [c0|] eqn:Hk; simpl; [|done].
  split; [|done]. intros c ch. simpl.
  rewrite lookup_insert. case_decide as E.
  - intros [= <-]. subst c. destruct (Hf c0) as (-> & -> & ->).
    by apply Hc.
  - apply Hc.
Qed.

Lemma records_wf_sections_at k f : preserves records_wf (sections_at k f).
Proof.
  intros st HP. unfold sections_at.
  by destruct (sections st !! k).
Qed.

Lemma records_wf_pages_at k f : preserves records_wf (pages_at k f).
Proof.
  intros st HP. unfold pages_at.
  by destruct (pages st !! k).
Qed.

Lemma records_wf_ingest page_id o : preserves records_wf (ingest page_id o).
Proof.
  unfold ingest.
  repeat first
    [ apply preserves_bind; [|intros ?]
    | apply preserves_when
    | apply preserves_get
    | apply records_wf_chapters_at; by intros []
    | apply records_wf_sections_at
    | apply records_wf_pages_at ].
  - intros st [Hc He]. split; [done|]. intros k e. simpl.
    rewrite lookup_insert. case_decide; [|apply He].
    by intros [= <-].
  - by intros st [Hc He].
  - by intros st [Hc He].
  - intros st [Hc He]. split; [|done]. intros c ch. simpl.
    rewrite lookup_insert. case_decide; [|apply Hc].
    intros [= <-]. by subst c.
  - by intros st [Hc He].
  - by intros st [Hc He].
Qed.

Lemma records_wf_verse_iteration page_id x :
  preserves records_wf (verse_iteration page_id x).
Proof.
  unfold verse_iteration.
  repeat first
    [ apply preserves_bind; [|intros ?]
    | apply preserves_when
    | apply preserves_get
    | apply preserves_fetched
    | apply records_wf_chapters_at; by intros []
    | apply records_wf_sections_at
    | apply records_wf_pages_at ].
  - intros st [Hc He]. split; [done|]. intros k e. simpl.
    rewrite lookup_insert. case_decide; [|apply He].
    by intros [= <-].
  - by intros st [Hc He].
  - by intros st [Hc He].
  - intros st [Hc He]. split; [|done]. intros c ch. simpl.
    rewrite lookup_insert. case_decide; [|apply Hc].
    intros [= <-]. by subst c.
  - by intros st [Hc He].
  - by intros st [Hc He].
Qed.

Lemma records_wf_page_end page_id : preserves records_wf (page_end page_id).
Proof.
  unfold page_end.
  repeat first
    [ apply preserves_bind; [|intros ?]
    | apply preserves_get
    | apply records_wf_chapters_at; by intros []
    | apply records_wf_sections_at ].
Qed.

Lemma records_wf_page_iteration x : preserves records_wf (page_iteration x).
Proof.
  unfold page_iteration.
  apply preserves_bind; [apply preserves_fetched|]. intros pe.
  apply preserves_bind; [by intros st [Hc He]|]. intros _.
  apply preserves_bind; [|intros _; apply records_wf_page_end].
  apply preserves_for_each. intros y. apply records_wf_verse_iteration.
Qed.

Lemma records_wf_scrapping page_list :
  records_wf (snd (scrapping page_list module_state)).
Proof.
  assert (preserves records_wf (scrapping page_list)) as H.
  { unfold scrapping.
    apply preserves_bind; [by intros st [Hc He]|]. intros _.
    apply preserves_bind; [by intros st [Hc He]|]. intros _.
    apply preserves_for_each, records_wf_page_iteration. }
  apply H, records_wf_module_state.
Qed.

(** C8. Whatever pages and verses the browser delivers, and whether the
    run returns or stops on an exception, every chapter record held by the
    [chapters] dictionary has its [basmalah] flag false exactly when its
    chapter id is 1 or 9, and true for every other id. *)
Theorem basmalah_flag page_list c ch :
  chapters (snd (scrapping page_list module_state)) !! c = Some ch →
  (ch_basmalah ch = false ↔ c = 1 ∨ c = 9) ∧
  (ch_basmalah ch = true ↔ c ≠ 1 ∧ c ≠ 9).
Proof.
  intros Hch.
  destruct (records_wf_scrapping page_list) as [Hc _].
  destruct (Hc c ch Hch) as (_ & _ & ->).
  unfold NO_BASMALA. rewrite bool_decide_eq_false, bool_decide_eq_true.
  rewrite !elem_of_cons, elem_of_nil. split; split; lia.
Qed.

(** ** The sentinel pointers *)

Lemma ingest_ready page_id o st st' :
  ingest page_id o st = (Return tt, st') →
  ready st' ∧ is_Some (pages st' !! page_id) ∧
  ∀ k, is_Some (pages st !! k) → is_Some (pages st' !! k).
Proof.
  intros (c & p & s & Hc & Hp & Hs & ->)%ingest_return_inv.
  unfold ready, linked; simpl. rewrite !lookup_insert_eq.
  repeat split; try done.
  intros k Hk. rewrite lookup_insert. by case_decide.
Qed.

(** With ids other than the sentinel, the three lookups of a verse
    iteration find their records. *)
Lemma ingest_total page_id o st :
  chapter_number o ≠ 0 → section_number o ≠ 0 →
  is_Some (pages st !! page_id) →
  untouched st ∨ ready st →
  ∃ st', ingest page_id o st = (Return tt, st').
Proof.
  intros Hc0 Hs0 [p Hp] Hst.
  assert (is_Some (chapters (recorded page_id o st) !! chapter_number o))
    as [c Hc].
  { unfold recorded; simpl. case_decide as E; [by rewrite lookup_insert_eq|].
    destruct Hst as [(Hcur & _)|[Hch _]]; [congruence|by rewrite E]. }
  assert (is_Some (sections (recorded page_id o st) !! section_number o))
    as [s Hs].
  { unfold recorded; simpl. case_decide as E; [by rewrite lookup_insert_eq|].
    destruct Hst as [(_ & Hcur & _)|[_ Hsec]]; [congruence|by rewrite E]. }
  eexists. by eapply ingest_return.
Qed.

Lemma verse_loop_total page_id os st :
  Forall (λ o, chapter_number o ≠ 0 ∧ section_number o ≠ 0) os →
  is_Some (pages st !! page_id) →
  untouched st ∨ ready st →
  ∃ st', for_each (verse_iteration page_id) (deliver <$> os) st = (Return tt, st') ∧
         ((os = [] ∧ st' = st) ∨ ready st').
Proof.
  intros Hos. revert st.
  induction Hos as [|o os [Hc0 Hs0] _ IH]; intros st Hp Hst.
  - exists st. split; [done|]. by left.
  - destruct (ingest_total page_id o st Hc0 Hs0 Hp Hst) as [st1 Hrun].
    destruct (ingest_ready _ _ _ _ Hrun) as (Hready & Hp1 & _).
    destruct (IH st1 Hp1 (or_intror Hready)) as (st' & Hloop & Hst').
    exists st'. split.
    + rewrite fmap_cons, for_each_cons, verse_iteration_deliver.
      by rewrite (bind_return _ _ _ _ _ Hrun).
    + right. destruct Hst' as [[_ ->]|?]; done.
Qed.

Lemma page_end_ready page_id st :
  ready st →
  ∃ ch sec,
    chapters st !! current_chapter st = Some ch ∧
    sections st !! current_section st = Some sec ∧
    page_end page_id st =
      (Return tt,
       set_sections
         (insert (current_section st) (section_pages_append page_id sec))
         (set_chapters
            (insert (current_chapter st) (chapter_pages_append page_id ch))
            st)).
Proof.
  intros [[ch Hch] [sec Hsec]]. exists ch, sec. repeat split; try done.
  unfold page_end, py_bind, get, chapters_at, sections_at; simpl.
  rewrite Hch; simpl. by rewrite Hsec.
Qed.

Lemma page_end_untouched page_id st :
  chapters st !! current_chapter st = None →
  page_end page_id st = (Raise (KeyError (current_chapter st)), st).
Proof.
  intros Hch. unfold page_end, py_bind, get, chapters_at; simpl.
  by rewrite Hch.
Qed.

Lemma page_iteration_delivered page_id os st :
  page_iteration (delivered page_id os) st =
    (for_each (verse_iteration page_id) (deliver <$> os) ;; page_end page_id)
      (set_pages (insert page_id (new_page page_id page_id)) st).
Proof. done. Qed.

Lemma page_iteration_total page_id os st :
  Forall (λ o, chapter_number o ≠ 0 ∧ section_number o ≠ 0) os →
  untouched st ∨ ready st →
  ∃ r st', page_iteration (delivered page_id os) st = (r, st') ∧
    ((r = Return tt ∧ ready st') ∨
     (r = Raise (KeyError 0) ∧ untouched st')).
Proof.
  intros Hos Hst. rewrite page_iteration_delivered.
  set (st0 := set_pages _ st).
  assert (is_Some (pages st0 !! page_id)) as Hp.
  { unfold st0; simpl. by rewrite lookup_insert_eq. }
  assert (untouched st0 ∨ ready st0) as Hst0 by done.
  destruct (verse_loop_total page_id os st0 Hos Hp Hst0)
    as (st1 & Hloop & Hst1).
  rewrite (bind_return _ _ _ _ _ Hloop).
  assert (ready st1 ∨ untouched st1) as [Hready|Hun].
  { destruct Hst1 as [[_ ->]|?]; [|by left]. destruct Hst0; auto. }
  - destruct (page_end_ready page_id st1 Hready) as (ch & sec & Hch & Hsec & ->).
    eexists _, _. split; [done|]. left. split; [done|].
    unfold ready; simpl. rewrite !lookup_insert_eq. done.
  - destruct Hun as (Hcur & Hsec & Hchs & Hrest).
    rewrite page_end_untouched by (by rewrite Hchs, lookup_empty).
    eexists _, _. split; [done|]. right. rewrite Hcur. done.
Qed.

Lemma page_loop_total (book : list (Z * list observation)) st :
  Forall (λ pg, Forall (λ o, chapter_number o ≠ 0 ∧ section_number o ≠ 0) pg.2)
    book →
  untouched st ∨ ready st →
  ∃ r st',
    for_each page_iteration (uncurry delivered <$> book) st = (r, st') ∧
    (r = Return tt ∨ (r = Raise (KeyError 0) ∧ untouched st')).
Proof.
  intros Hbook. revert st.
  induction Hbook as [|[p os] book Hos _ IH]; intros st Hst.
  - exists (Return tt), st. split; [done|]. by left.
  - destruct (page_iteration_total p os st Hos Hst)
      as (r & st1 & Hrun & [[-> Hready]|[-> Hun]]).
    + destruct (IH st1 (or_intror Hready)) as (r' & st' & Hloop & Hres).
      exists r', st'. split; [|done].
      simpl. by rewrite (bind_return _ _ _ _ _ Hrun).
    + exists (Raise (KeyError 0)), st1. split; [|by right].
      simpl. by rewrite (bind_raise _ _ _ _ _ Hrun).
Qed.

Lemma scrapping_first_page page_id items rest :
  scrapping (Got (PageElement page_id items) :: rest) module_state =
    ((for_each (verse_iteration page_id) items ;; page_end page_id) ;;
     for_each page_iteration rest) (first_page_open page_id).
Proof. done. Qed.

(** C10. The two appends after the inner loop look up the pointers as they
    stand.  If the first page delivers no verse, the pointer is still the
    sentinel 0, which is no key of [chapters] (nor of [sections]): the run
    stops with [KeyError 0] and the page id is recorded nowhere.  Once the
    inner loop of a page has run at least one verse iteration and returned,
    both appends find their records and put the page id last in the current
    chapter's and the current section's page lists. *)
Theorem page_end_sentinel :
  (∀ page_id rest,
     scrapping (Got (PageElement page_id []) :: rest) module_state =
       (Raise (KeyError 0), first_page_open page_id) ∧
     chapters (first_page_open page_id) !! 0 = None ∧
     sections (first_page_open page_id) !! 0 = None) ∧
  (∀ page_id x items st st',
     for_each (verse_iteration page_id) (x :: items) st = (Return tt, st') →
     ∃ st'' ch sec,
       page_end page_id st' = (Return tt, st'') ∧
       chapters st'' !! current_chapter st' = Some ch ∧
       last (ch_pages ch) = Some page_id ∧
       sections st'' !! current_section st' = Some sec ∧
       last (sec_pages sec) = Some page_id).
Proof.
  split.
  - intros page_id rest. split; [|done].
    rewrite scrapping_first_page. simpl.
    unfold py_bind at 1 2. simpl.
    by rewrite page_end_untouched.
  - intros page_id x items st st' Hloop.
    assert (ready st') as Hready.
    { revert x st Hloop. induction items as [|y items IH]; intros x st Hloop.
      - simpl in Hloop.
        apply bind_return_inv in Hloop as ([] & st1 & Hx & [= <-]).
        apply verse_iteration_return_inv in Hx as (o & _ & Hrun).
        by apply ingest_ready in Hrun as [? _].
      - change (for_each (verse_iteration page_id) (x :: y :: items))
          with (verse_iteration page_id x ;;
                for_each (verse_iteration page_id) (y :: items)) in Hloop.
        apply bind_return_inv in Hloop as ([] & st1 & _ & Hrest).
        by eapply IH. }
    destruct (page_end_ready page_id st' Hready) as (ch & sec & Hch & Hsec & ->).
    eexists _, _, _. split; [done|]. simpl.
    rewrite !lookup_insert_eq. repeat split; try done; simpl; apply last_snoc.
Qed.

(** ** Scenarios *)

(** C1, as claimed: the scenario's expectation that chapter 1 lists page 1
    fails.  The page id is appended once, after the inner loop, to the
    chapter current at that point, which is chapter 2. *)
Lemma chapter_one_misses_page :
  ch_pages <$> chapters (snd (scrapping three_observations module_state)) !! 1
    = Some [] ∧
  ch_pages <$> chapters (snd (scrapping three_observations module_state)) !! 1
    ≠ Some [1].
Proof. split; [by vm_compute | vm_compute; discriminate]. Qed.

(** C1, amended.  Feeding the three observations (page 1, chapter 1,
    section 1, verse 1), (page 1, chapter 1, section 1, verse 2), (page 1,
    chapter 2, section 1, verse 1) returns with: chapters keyed by {1, 2};
    chapter 1 with verses ["1:1", "1:2"] and an empty page list; chapter 2
    with verses ["2:1"] and pages [1]; page 1 with verses
    ["1:1", "1:2", "2:1"], chapter set {1, 2} and section set {1}; section 1
    with chapter set {1, 2} and pages [1]. *)
Theorem end_to_end :
  ∃ st, scrapping three_observations module_state = (Return tt, st) ∧
    dom (chapters st) = {[1; 2]} ∧
    ch_verses <$> chapters st !! 1 = Some ["1:1"; "1:2"] ∧
    ch_pages <$> chapters st !! 1 = Some [] ∧
    ch_verses <$> chapters st !! 2 = Some ["2:1"] ∧
    ch_pages <$> chapters st !! 2 = Some [1] ∧
    pg_verses <$> pages st !! 1 = Some ["1:1"; "1:2"; "2:1"] ∧
    pg_chapters <$> pages st !! 1 = Some {[1; 2]} ∧
    pg_sections <$> pages st !! 1 = Some {[1]} ∧
    sec_chapters <$> sections st !! 1 = Some {[1; 2]} ∧
    sec_pages <$> sections st !! 1 = Some [1].
Proof.
  exists (snd (scrapping three_observations module_state)).
  split_and!; vm_compute; reflexivity.
Qed.

(** C2, as claimed: a chapter that is left and entered again loses what it
    had.  After (chapter 1, verse 1) and (chapter 2, verse 1) the pointer is
    2 and chapter 1 holds ["1:1"]; ingesting (chapter 1, verse 2) stores a
    fresh record under key 1, whose verse list is ["1:2"] only. *)
Lemma revisited_chapter_is_reset :
  for_each (verse_iteration 1) (deliver <$> [synthetic 1 1 1; synthetic 2 1 1])
    (first_page_open 1) = (Return tt, two_chapters_seen) ∧
  ingest 1 (synthetic 1 1 2) two_chapters_seen
    = (Return tt, chapter_one_revisited) ∧
  current_chapter two_chapters_seen = 2 ∧
  ch_verses <$> chapters two_chapters_seen !! 1 = Some ["1:1"] ∧
  ch_verses <$> chapters chapter_one_revisited !! 1 = Some ["1:2"].
Proof. split_and!; vm_compute; reflexivity. Qed.

(** C2, amended.  A verse iteration whose chapter id differs from the
    pointer stores a fresh record under that id, whether or not the id was a
    key before: after the iteration the record holds this verse and this
    section only.  When the id equals the pointer the record found is kept
    and extended.  Records under every other chapter id are left as they
    were.  The same holds for sections. *)
Theorem change_detection page_id o st st' :
  ingest page_id o st = (Return tt, st') →
  (chapter_number o ≠ current_chapter st →
     chapters st' !! chapter_number o =
       Some (chapter_verses_append (verse_id_of o)
               (chapter_sections_add (section_number o) (new_chapter o)))) ∧
  (chapter_number o = current_chapter st →
     ∃ ch, chapters st !! chapter_number o = Some ch ∧
       chapters st' !! chapter_number o =
         Some (chapter_verses_append (verse_id_of o)
                 (chapter_sections_add (section_number o) ch))) ∧
  (∀ k, k ≠ chapter_number o → chapters st' !! k = chapters st !! k) ∧
  (section_number o ≠ current_section st →
     sections st' !! section_number o =
       Some (section_verses_append (verse_id_of o)
               (section_chapters_add (chapter_number o)
                  (new_section (section_number o))))) ∧
  (section_number o = current_section st →
     ∃ sec, sections st !! section_number o = Some sec ∧
       sections st' !! section_number o =
         Some (section_verses_append (verse_id_of o)
                 (section_chapters_add (chapter_number o) sec))) ∧
  (∀ k, k ≠ section_number o → sections st' !! k = sections st !! k).
Proof.
  intros (c & p & s & Hc & Hp & Hs & ->)%ingest_return_inv.
  unfold recorded in Hc, Hs; simpl in Hc, Hs.
  unfold linked, recorded; simpl.
  repeat split.
  - intros Hne. rewrite decide_True in Hc by done.
    rewrite lookup_insert_eq in Hc. injection Hc as <-.
    by rewrite lookup_insert_eq.
  - intros Heq. rewrite decide_False in Hc by (by intros ?).
    exists c. by rewrite lookup_insert_eq.
  - intros k Hk. rewrite lookup_insert_ne by congruence.
    destruct (decide (chapter_number o ≠ current_chapter st)); [|done].
    by rewrite lookup_insert_ne by congruence.
  - intros Hne. rewrite decide_True in Hs by done.
    rewrite lookup_insert_eq in Hs. injection Hs as <-.
    by rewrite lookup_insert_eq.
  - intros Heq. rewrite decide_False in Hs by (by intros ?).
    exists s. by rewrite lookup_insert_eq.
  - intros k Hk. rewrite lookup_insert_ne by congruence.
    destruct (decide (section_number o ≠ current_section st)); [|done].
    by rewrite lookup_insert_ne by congruence.
Qed.

Lemma change_detection_witness :
  ingest 1 (synthetic 1 1 2) two_chapters_seen
    = (Return tt, chapter_one_revisited) ∧
  chapters chapter_one_revisited !! 1 =
    Some (chapter_verses_append "1:2"
            (chapter_sections_add 1 (new_chapter (synthetic 1 1 2)))) ∧
  chapters chapter_one_revisited !! 2 = chapters two_chapters_seen !! 2.
Proof.
  assert (ingest 1 (synthetic 1 1 2) two_chapters_seen
            = (Return tt, chapter_one_revisited)) as Hrun by (by vm_compute).
  split; [exact Hrun|].
  destruct (change_detection _ _ _ _ Hrun) as (Hnew & _ & Hother & _).
  split; [apply Hnew; by vm_compute | by apply (Hother 2)].
Defined.

(** ** Two observations in the same context *)

Lemma add_again (X : gset Z) (x : Z) : X ∪ {[ x ]} ∪ {[ x ]} = X ∪ {[ x ]}.
Proof.
  apply set_eq. intros y. rewrite !elem_of_union, !elem_of_singleton. tauto.
Qed.

(** C6. When two consecutive observations share page, chapter and section
    and the first is ingested, the second is ingested too; it changes none
    of the four set-valued fields (the chapter's section set, the section's
    chapter set, the page's chapter set and section set), which already
    hold the ids, and each of the chapter's, section's and page's verse
    lists ends up with the two verse ids appended, in order, to what the
    first iteration found. *)
Theorem repeated_context page_id o1 o2 st st1 :
  chapter_number o2 = chapter_number o1 →
  section_number o2 = section_number o1 →
  ingest page_id o1 st = (Return tt, st1) →
  ∃ st2 c0 s0 p0 ch1 ch2 sec1 sec2 pg1 pg2,
    ingest page_id o2 st1 = (Return tt, st2) ∧
    chapters (recorded page_id o1 st) !! chapter_number o1 = Some c0 ∧
    sections (recorded page_id o1 st) !! section_number o1 = Some s0 ∧
    pages st !! page_id = Some p0 ∧
    chapters st1 !! chapter_number o1 = Some ch1 ∧
    chapters st2 !! chapter_number o1 = Some ch2 ∧
    sections st1 !! section_number o1 = Some sec1 ∧
    sections st2 !! section_number o1 = Some sec2 ∧
    pages st1 !! page_id = Some pg1 ∧
    pages st2 !! page_id = Some pg2 ∧
    (section_number o1 ∈ ch_sections ch1 ∧ ch_sections ch2 = ch_sections ch1) ∧
    (chapter_number o1 ∈ sec_chapters sec1 ∧
     sec_chapters sec2 = sec_chapters sec1) ∧
    (chapter_number o1 ∈ pg_chapters pg1 ∧ pg_chapters pg2 = pg_chapters pg1) ∧
    (section_number o1 ∈ pg_sections pg1 ∧ pg_sections pg2 = pg_sections pg1) ∧
    ch_verses ch2 = ch_verses c0 ++ [verse_id_of o1; verse_id_of o2] ∧
    sec_verses sec2 = sec_verses s0 ++ [verse_id_of o1; verse_id_of o2] ∧
    pg_verses pg2 = pg_verses p0 ++ [verse_id_of o1; verse_id_of o2].
Proof.
  intros Hc Hs (c0 & p0 & s0 & Hc0 & Hp0 & Hs0 & ->)%ingest_return_inv.
  set (st1 := linked page_id o1 st c0 p0 s0).
  set (ch1 := chapter_verses_append (verse_id_of o1)
                (chapter_sections_add (section_number o1) c0)).
  set (sec1 := section_verses_append (verse_id_of o1)
                 (section_chapters_add (chapter_number o1) s0)).
  set (pg1 := page_verses_append (verse_id_of o1)
                (page_chapters_add (chapter_number o1)
                   (page_sections_add (section_number o1) p0))).
  assert (chapters st1 !! chapter_number o1 = Some ch1) as Hch1.
  { unfold st1, linked; simpl. by rewrite lookup_insert_eq. }
  assert (sections st1 !! section_number o1 = Some sec1) as Hsec1.
  { unfold st1, linked; simpl. by rewrite lookup_insert_eq. }
  assert (pages st1 !! page_id = Some pg1) as Hpg1.
  { unfold st1, linked; simpl. by rewrite lookup_insert_eq. }
  assert (chapters (recorded page_id o2 st1) !! chapter_number o2 = Some ch1)
    as Hc2.
  { unfold recorded; simpl. rewrite Hc, decide_False by (by intros ?). done. }
  assert (sections (recorded page_id o2 st1) !! section_number o2 = Some sec1)
    as Hs2.
  { unfold recorded; simpl. rewrite Hs, decide_False by (by intros ?). done. }
  exists (linked page_id o2 st1 ch1 pg1 sec1), c0, s0, p0, ch1,
    (chapter_verses_append (verse_id_of o2)
       (chapter_sections_add (section_number o2) ch1)),
    sec1,
    (section_verses_append (verse_id_of o2)
       (section_chapters_add (chapter_number o2) sec1)),
    pg1,
    (page_verses_append (verse_id_of o2)
       (page_chapters_add (chapter_number o2)
          (page_sections_add (section_number o2) pg1))).
  split_and!; try done.
  1: by apply ingest_return.
  1-3: unfold linked; simpl; by rewrite <-?Hc, <-?Hs, lookup_insert_eq.
  all: unfold ch1, sec1, pg1; simpl; rewrite ?Hc, ?Hs.
  all: try (by rewrite <-app_assoc).
  all: try (apply set_eq; intros x).
  all: rewrite ?elem_of_union, ?elem_of_singleton; tauto.
Qed.

Lemma repeated_context_witness :
  ∃ st1 st2,
    ingest 1 (synthetic 1 1 1) (first_page_open 1) = (Return tt, st1) ∧
    ingest 1 (synthetic 1 1 2) st1 = (Return tt, st2) ∧
    ∃ pg2, pages st2 !! 1 = Some pg2 ∧
           pg_verses pg2 = [] ++ ["1:1"; "1:2"].
Proof.
  assert (ingest 1 (synthetic 1 1 1) (first_page_open 1)
            = (Return tt, snd (ingest 1 (synthetic 1 1 1) (first_page_open 1))))
    as Hrun by (vm_compute; reflexivity).
  destruct (repeated_context 1 (synthetic 1 1 1) (synthetic 1 1 2) _ _
              eq_refl eq_refl Hrun)
    as (st2 & c0 & s0 & p0 & ch1 & ch2 & sec1 & sec2 & pg1 & pg2 & Hrun2 & _ &
        _ & Hp0 & _ & _ & _ & _ & _ & Hpg2 & _ & _ & _ & _ & _ & _ & Hvs).
  exists (snd (ingest 1 (synthetic 1 1 1) (first_page_open 1))), st2.
  split; [exact Hrun|]. split; [exact Hrun2|].
  exists pg2. split; [exact Hpg2|].
  unfold first_page_open in Hp0. simpl in Hp0.
  rewrite lookup_insert_eq in Hp0. injection Hp0 as <-.
  exact Hvs.
Defined.

(** ** Cancellation and the [finally] block *)

(** An exception raised by the click on a verse, after some verses of the
    page, leaves the dictionaries as those verses made them. *)
Lemma verse_loop_interrupted page_id os e rest st st' :
  for_each (verse_iteration page_id) (deliver <$> os) st = (Return tt, st') →
  for_each (verse_iteration page_id) ((deliver <$> os) ++ failing e :: rest) st
    = (Raise e, st').
Proof.
  intros Hrun. rewrite for_each_app.
  rewrite (bind_return _ _ _ _ _ Hrun). done.
Qed.

Lemma strings_serializable (l : list string) :
  forallb json_serializable (PyStr <$> l) = true.
Proof. by induction l. Qed.

Lemma ints_serializable (l : list Z) :
  forallb json_serializable (PyInt <$> l) = true.
Proof. by induction l. Qed.

Lemma all_serializable {A} (obj : A → pyobj) (l : list A) :
  (∀ x, json_serializable (obj x) = true) →
  forallb json_serializable (obj <$> l) = true.
Proof.
  intros Hobj. induction l as [|x l IH]; [done|].
  change (obj <$> x :: l) with (obj x :: (obj <$> l)). simpl.
  by rewrite Hobj, IH.
Qed.

Lemma verses_serializable (d : gmap string verse) :
  forallb json_serializable (records verse_obj d) = true.
Proof.
  unfold records. apply all_serializable. intros v. simpl.
  by rewrite !strings_serializable.
Qed.

Lemma pages_not_serializable (d : gmap Z page) :
  d ≠ ∅ → forallb json_serializable (records page_obj d) = false.
Proof.
  intros Hd. unfold records.
  destruct (map_to_list d) as [|[k p] l] eqn:E.
  - by apply map_to_list_empty_iff in E.
  - simpl. by rewrite strings_serializable.
Qed.

(** As soon as one page has been opened, the [finally] block raises
    [TypeError] on the third dump: the page records hold [set] objects.
    Only the languages and verses files are completed. *)
Lemma finalization_raises st :
  pages st ≠ ∅ →
  finalization st = (Raise TypeError, ["languages"; "verses"]).
Proof.
  intros Hp. unfold finalization, dump_all.
  change (forallb json_serializable languages) with true. simpl.
  by rewrite verses_serializable, pages_not_serializable.
Qed.

Lemma main_raises page_list :
  pages (snd (scrapping page_list module_state)) ≠ ∅ →
  main page_list =
    (Raise TypeError, snd (scrapping page_list module_state),
     ["languages"; "verses"]).
Proof.
  intros Hp. unfold main.
  destruct (scrapping page_list module_state) as [r st]. simpl in Hp.
  by rewrite (finalization_raises st Hp).
Qed.

(** C7, evaluated.  Five verses are planned and the interrupt arrives
    after two of them.  The dictionaries then reflect exactly those two
    observations and the [except] clause leaves them alone, but the
    [finally] block does not complete: [json.dump(pages, ...)] raises
    [TypeError], after the languages and verses files only. *)
Theorem cancellation_after_two :
  for_each (verse_iteration 1) (deliver <$> [synthetic 1 1 1; synthetic 1 1 2])
    (first_page_open 1) = (Return tt, two_ingested) ∧
  scrapping cancelled_after_two module_state
    = (Raise KeyboardInterrupt, two_ingested) ∧
  except_clause (Raise KeyboardInterrupt) = Return tt ∧
  dom (verses two_ingested) = {["1:1"; "1:2"]} ∧
  dom (explanations two_ingested) = {["1:1"; "1:2"]} ∧
  main cancelled_after_two
    = (Raise TypeError, two_ingested, ["languages"; "verses"]).
Proof. split_and!; vm_compute; reflexivity. Qed.

(** ** Instances *)

Lemma basmalah_flag_witness :
  ∃ ch, chapters (snd (scrapping three_observations module_state)) !! 2
          = Some ch ∧
        (ch_basmalah ch = true ↔ 2 ≠ 1 ∧ 2 ≠ 9).
Proof.
  exists (chapter_pages_append 1
            (chapter_verses_append "2:1"
               (chapter_sections_add 1 (new_chapter (synthetic 2 1 1))))).
  assert (chapters (snd (scrapping three_observations module_state)) !! 2
            = Some (chapter_pages_append 1
                      (chapter_verses_append "2:1"
                         (chapter_sections_add 1
                            (new_chapter (synthetic 2 1 1))))))
    as Hch by (vm_compute; reflexivity).
  split; [exact Hch|].
  exact (proj2 (basmalah_flag three_observations 2 _ Hch)).
Defined.

Lemma page_end_sentinel_witness :
  scrapping [Got (PageElement 7 [])] module_state
    = (Raise (KeyError 0), first_page_open 7) ∧
  ∃ st'' ch,
    page_end 1 (snd (ingest 1 (synthetic 3 2 1) (first_page_open 1)))
      = (Return tt, st'') ∧
    chapters st'' !! 3 = Some ch ∧ last (ch_pages ch) = Some 1.
Proof.
  destruct page_end_sentinel as [Hempty Hsome].
  split; [apply (Hempty 7 [])|].
  destruct (Hsome 1 (deliver (synthetic 3 2 1)) [] (first_page_open 1)
              (snd (ingest 1 (synthetic 3 2 1) (first_page_open 1))))
    as (st'' & ch & sec & Hend & Hch & Hlast & _).
  { vm_compute. reflexivity. }
  exists st'', ch. split; [exact Hend|]. split; [exact Hch | exact Hlast].
Defined.

(** ** Verse ids *)

Lemma pretty_N_go_no_colon x s :
  has_colon s = false → has_colon (pretty_N_go x s) = false.
Proof.
  revert s. induction (N.lt_wf_0 x) as [x _ IH]; intros s Hs.
  destruct (decide (x = 0)%N) as [->|Hx].
  - by rewrite pretty_N_go_0.
  - rewrite pretty_N_go_step by lia. apply IH.
    + apply N.div_lt; lia.
    + simpl. rewrite Hs. unfold pretty_N_char.
      by repeat case_match.
Qed.

Lemma append_empty s : "" +:+ s = s.
Proof. done. Qed.

Lemma append_String x a s : String x a +:+ s = String x (a +:+ s).
Proof. done. Qed.

Lemma str_no_colon n : has_colon (str n) = false.
Proof.
  assert (∀ p : positive, has_colon (pretty p) = false) as Hpos.
  { intros p. unfold pretty, pretty_positive, pretty, pretty_N.
    case_decide; [done|]. by apply pretty_N_go_no_colon. }
  unfold str, pretty, pretty_Z. destruct n as [|p|p]; [done|apply Hpos|].
  rewrite append_String, append_empty. simpl. apply Hpos.
Qed.

Lemma split_at_colon a a' b b' :
  has_colon a = false → has_colon a' = false →
  a +:+ ":" +:+ b = a' +:+ ":" +:+ b' → a = a' ∧ b = b'.
Proof.
  revert a'. induction a as [|x a IH]; intros [|x' a'];
    rewrite ?append_String, ?append_empty; simpl.
  - intros _ _ [= ->]. done.
  - intros _ Hx' [= <- _]. by rewrite bool_decide_eq_true_2 in Hx'.
  - intros Hx _ [= -> _]. by rewrite bool_decide_eq_true_2 in Hx.
  - intros [_ Ha]%orb_false_iff [_ Ha']%orb_false_iff [= -> Heq].
    destruct (IH a' Ha Ha' Heq) as [-> ->]. done.
Qed.

(** Two verse ids are equal only if chapter and verse numbers are. *)
Lemma key_id_inj k1 k2 : key_id k1 = key_id k2 → k1 = k2.
Proof.
  destruct k1 as [c1 v1], k2 as [c2 v2]. unfold key_id; simpl. intros Heq.
  apply split_at_colon in Heq as [Hc Hv]; [|apply str_no_colon..].
  apply (inj pretty) in Hc. apply (inj pretty) in Hv. by subst.
Qed.

Lemma entry_id_key e : entry_id e = key_id (entry_key e).
Proof. done. Qed.

Lemma entry_id_chapter e1 e2 :
  entry_id e1 = entry_id e2 → entry_chapter e1 = entry_chapter e2.
Proof.
  rewrite !entry_id_key. intros Heq%key_id_inj.
  unfold entry_key in Heq. unfold entry_chapter. congruence.
Qed.

Lemma NoDup_entry_ids (l : list entry) :
  NoDup (entry_key <$> l) → NoDup (entry_id <$> l).
Proof.
  intros Hl.
  replace (entry_id <$> l) with (key_id <$> (entry_key <$> l)).
  - apply NoDup_fmap_2_strong; [|done]. intros ?? _ _. apply key_id_inj.
  - rewrite <-list_fmap_compose. done.
Qed.

(** ** Lists *)

Lemma NoDup_fmap_eq {A B} (f : A → B) (l : list A) x y :
  NoDup (f <$> l) → x ∈ l → y ∈ l → f x = f y → x = y.
Proof.
  induction l as [|a l IH]; simpl; [by intros _ ?%elem_of_nil|].
  intros [Hnotin Hnodup]%NoDup_cons Hx%elem_of_cons Hy%elem_of_cons Heq.
  destruct Hx as [->|Hx], Hy as [->|Hy]; try done.
  - destruct Hnotin. rewrite Heq. by apply list_elem_of_fmap_2.
  - destruct Hnotin. rewrite <-Heq. by apply list_elem_of_fmap_2.
  - by apply IH.
Qed.

Lemma sublist_fmap_of {A B} (f : A → B) (l1 l2 : list A) :
  l1 `sublist_of` l2 → (f <$> l1) `sublist_of` (f <$> l2).
Proof.
  induction 1 as [|x l1 l2 _ IH|x l1 l2 _ IH]; simpl.
  - constructor.
  - by constructor.
  - by constructor.
Qed.

Lemma count_occ_NoDup (l : list string) x :
  NoDup l → x ∈ l → count_occ String.string_dec l x = 1%nat.
Proof.
  intros Hl%NoDup_ListNoDup Hx%list_elem_of_In.
  by apply (proj1 (List.NoDup_count_occ' String.string_dec l) Hl).
Qed.

Lemma no_return_app_l l l' : no_return (l ++ l') → no_return l.
Proof.
  intros Hl pre y x post ->. apply (Hl pre y x (post ++ l')).
  by rewrite <-!app_assoc.
Qed.

(** On a sequence without returns, an id that differs from the last one
    read has not been read at all. *)
Lemma no_return_fresh l x post :
  no_return (l ++ x :: post) → x ≠ default 0 (last l) → x ∉ l.
Proof.
  intros Hl Hx.
  destruct (decide (l = [])) as [->|Hne]; [apply not_elem_of_nil|].
  destruct (exists_last Hne) as (pre & y & ->).
  rewrite last_snoc in Hx. simpl in Hx.
  rewrite not_elem_of_app. split.
  - apply (Hl pre y x post); [|done]. by rewrite <-app_assoc.
  - rewrite list_elem_of_singleton. done.
Qed.

(** ** What the dictionaries hold *)

Lemma recorded_chapters_lookup page_id o st k ch :
  chapters (recorded page_id o st) !! k = Some ch →
  (k = chapter_number o ∧ ch = new_chapter o) ∨ chapters st !! k = Some ch.
Proof.
  unfold recorded; simpl. case_decide; [|by right].
  rewrite lookup_insert. case_decide; [|by right].
  intros [= <-]. by left.
Qed.

Lemma recorded_sections_lookup page_id o st k sec :
  sections (recorded page_id o st) !! k = Some sec →
  (k = section_number o ∧ sec = new_section (section_number o)) ∨
  sections st !! k = Some sec.
Proof.
  unfold recorded; simpl. case_decide; [|by right].
  rewrite lookup_insert. case_decide; [|by right].
  intros [= <-]. by left.
Qed.

Lemma recorded_chapters_is_Some page_id o st k :
  is_Some (chapters st !! k) →
  is_Some (chapters (recorded page_id o st) !! k).
Proof.
  unfold recorded; simpl. case_decide; [|done].
  rewrite lookup_insert. by case_decide.
Qed.

Lemma recorded_sections_is_Some page_id o st k :
  is_Some (sections st !! k) →
  is_Some (sections (recorded page_id o st) !! k).
Proof.
  unfold recorded; simpl. case_decide; [|done].
  rewrite lookup_insert. by case_decide.
Qed.

Lemma insert_is_Some `{Countable K} {A} (m : gmap K A) i j x :
  is_Some (m !! j) → is_Some (<[i:=x]> m !! j).
Proof. rewrite lookup_insert. by case_decide. Qed.

Lemma consistent_start : consistent [] module_state.
Proof.
  constructor; simpl.
  - intros k v. by rewrite lookup_empty.
  - by intros e ?%elem_of_nil.
  - by rewrite dom_empty_L.
  - intros k v. by rewrite lookup_empty.
  - intros k v. by rewrite lookup_empty.
  - intros k v. by rewrite lookup_empty.
  - by intros e ?%elem_of_nil.
Qed.

Lemma consistent_ingest seen st page_id o st' :
  consistent seen st →
  ingest page_id o st = (Return tt, st') →
  consistent (seen ++ [(page_id, o)]) st'.
Proof.
  intros [Hv Hva He Hp Hc Hs Hr]
    (c0 & p0 & s0 & Hc0 & Hp0 & Hs0 & ->)%ingest_return_inv.
  constructor.
  - intros k v. unfold linked, recorded; simpl.
    rewrite lookup_insert. case_decide as Hk.
    + intros [= <-]. exists (page_id, o). split; [|done].
      apply elem_of_app. right. by apply list_elem_of_singleton.
    + intros (e & Hin & ? & ?)%Hv. exists e. split; [|done].
      apply elem_of_app. by left.
  - intros e. unfold linked, recorded; simpl.
    intros [Hin|Hin]%elem_of_app;
      [|apply list_elem_of_singleton in Hin as ->].
    + by apply insert_is_Some, Hva.
    + unfold entry_id; simpl. by rewrite lookup_insert_eq.
  - unfold linked, recorded; simpl.
    rewrite dom_insert_L, He, fmap_snoc, list_to_set_snoc_L.
    apply (comm_L (∪)).
  - intros k pg. unfold linked, recorded; simpl.
    rewrite lookup_insert. case_decide as Hk.
    + intros [= <-]. destruct (Hp _ _ Hp0) as (l & Hl & Hvs & Hcs & Hss).
      exists (l ++ [(page_id, o)]). split; [by apply sublist_app|].
      simpl. rewrite !fmap_snoc, !list_to_set_snoc_L, Hvs, Hcs, Hss. done.
    + intros (l & Hl & ?)%Hp. exists l. split; [|done].
      by apply sublist_inserts_r.
  - intros k ch. unfold linked; simpl.
    rewrite lookup_insert. case_decide as Hk.
    + intros [= <-]. simpl.
      destruct (recorded_chapters_lookup _ _ _ _ _ Hc0) as [[_ ->]|Hold].
      * exists [(page_id, o)]. split; [|done].
        by apply sublist_inserts_l.
      * destruct (Hc _ _ Hold) as (l & Hl & ->).
        exists (l ++ [(page_id, o)]). split; [by apply sublist_app|].
        by rewrite fmap_snoc.
    + intros Hlk.
      apply (recorded_chapters_lookup page_id o st) in Hlk as [[? _]|Hold];
        [congruence|].
      destruct (Hc _ _ Hold) as (l & Hl & ?). exists l. split; [|done].
      by apply sublist_inserts_r.
  - intros k sec. unfold linked; simpl.
    rewrite lookup_insert. case_decide as Hk.
    + intros [= <-]. simpl.
      destruct (recorded_sections_lookup _ _ _ _ _ Hs0) as [[_ ->]|Hold].
      * exists [(page_id, o)]. split; [|done].
        by apply sublist_inserts_l.
      * destruct (Hs _ _ Hold) as (l & Hl & ->).
        exists (l ++ [(page_id, o)]). split; [by apply sublist_app|].
        by rewrite fmap_snoc.
    + intros Hlk.
      apply (recorded_sections_lookup page_id o st) in Hlk as [[? _]|Hold];
        [congruence|].
      destruct (Hs _ _ Hold) as (l & Hl & ?). exists l. split; [|done].
      by apply sublist_inserts_r.
  - intros e. unfold linked; simpl.
    intros [Hin|Hin]%elem_of_app;
      [|apply list_elem_of_singleton in Hin as ->].
    + destruct (Hr e Hin) as (? & ? & ?). split_and!.
      * by apply insert_is_Some.
      * by apply insert_is_Some, (recorded_chapters_is_Some page_id).
      * by apply insert_is_Some, (recorded_sections_is_Some page_id).
    + unfold entry_chapter, entry_section; simpl.
      by rewrite !lookup_insert_eq.
Qed.

Lemma consistent_new_page seen st page_id pg :
  pg_verses pg = [] → pg_chapters pg = ∅ → pg_sections pg = ∅ →
  consistent seen st →
  consistent seen (set_pages (insert page_id pg) st).
Proof.
  intros Hvs Hcs Hss [Hv Hva He Hp Hc Hs Hr]. constructor; simpl; try done.
  - intros k pg'. rewrite lookup_insert. case_decide; [|apply Hp].
    intros [= <-]. exists []. split; [apply sublist_nil_l|].
    by rewrite Hvs, Hcs, Hss.
  - intros e Hin. destruct (Hr e Hin) as (? & ? & ?).
    split_and!; try done. by apply insert_is_Some.
Qed.

Lemma page_end_return_inv page_id st st' :
  page_end page_id st = (Return tt, st') →
  ∃ ch sec,
    chapters st !! current_chapter st = Some ch ∧
    sections st !! current_section st = Some sec ∧
    st' = set_sections
            (insert (current_section st) (section_pages_append page_id sec))
            (set_chapters
               (insert (current_chapter st) (chapter_pages_append page_id ch))
               st).
Proof.
  unfold page_end, py_bind, get, chapters_at, sections_at; simpl.
  destruct (chapters st !! current_chapter st) as [ch|] eqn:Hch; [|done].
  simpl. destruct (sections st !! current_section st) as [sec|] eqn:Hsec; [|done].
  intros [= <-]. by exists ch, sec.
Qed.

Lemma consistent_page_end seen st page_id st' :
  consistent seen st →
  page_end page_id st = (Return tt, st') →
  consistent seen st'.
Proof.
  intros [Hv Hva He Hp Hc Hs Hr]
    (ch & sec & Hch & Hsec & ->)%page_end_return_inv.
  constructor; simpl; try done.
  - intros k ch'. rewrite lookup_insert. case_decide; [|apply Hc].
    intros [= <-]. simpl. by apply (Hc _ _ Hch).
  - intros k sec'. rewrite lookup_insert. case_decide; [|apply Hs].
    intros [= <-]. simpl. by apply (Hs _ _ Hsec).
  - intros e Hin. destruct (Hr e Hin) as (? & ? & ?).
    split_and!; try done; by apply insert_is_Some.
Qed.

Lemma page_entries_cons page_id x o items :
  reading x = Some o →
  page_entries page_id (x :: items)
    = (page_id, o) :: page_entries page_id items.
Proof. intros Hx. unfold page_entries. simpl. by rewrite Hx. Qed.

Lemma verse_loop_consistent page_id items seen st st' :
  consistent seen st →
  for_each (verse_iteration page_id) items st = (Return tt, st') →
  consistent (seen ++ page_entries page_id items) st'.
Proof.
  revert seen st. induction items as [|x items IH]; intros seen st Hst Hrun.
  - injection Hrun as <-. by rewrite app_nil_r.
  - simpl in Hrun.
    apply bind_return_inv in Hrun as ([] & st1 & Hx & Hrest).
    apply verse_iteration_return_inv in Hx as (o & Ho & Hx).
    rewrite (page_entries_cons _ _ _ _ Ho), cons_middle, app_assoc.
    eapply IH; [|done]. by eapply consistent_ingest.
Qed.

Lemma page_iteration_return_inv x st st' :
  page_iteration x st = (Return tt, st') →
  ∃ pe st1,
    x = Got pe ∧
    for_each (verse_iteration (page_number pe)) (verse_list pe)
      (set_pages
         (insert (page_number pe)
            (new_page (page_number pe) (page_number pe))) st)
      = (Return tt, st1) ∧
    page_end (page_number pe) st1 = (Return tt, st').
Proof.
  destruct x as [pe|e]; [|done]. intros Hrun. exists pe.
  unfold page_iteration in Hrun. simpl in Hrun.
  change (py_bind (py_ret pe) ?k st) with (k pe st) in Hrun.
  apply bind_return_inv in Hrun as ([] & st0 & [= <-] & Hrun).
  apply bind_return_inv in Hrun as ([] & st1 & Hloop & Hend).
  by exists st1.
Qed.

Lemma observed_cons pe page_list :
  observed (Got pe :: page_list) = page_log pe ++ observed page_list.
Proof. done. Qed.

Lemma page_loop_consistent page_list seen st st' :
  consistent seen st →
  for_each page_iteration page_list st = (Return tt, st') →
  consistent (seen ++ observed page_list) st'.
Proof.
  revert seen st.
  induction page_list as [|x page_list IH]; intros seen st Hst Hrun.
  - injection Hrun as <-. by rewrite app_nil_r.
  - simpl in Hrun.
    apply bind_return_inv in Hrun as ([] & st2 & Hx & Hrest).
    apply page_iteration_return_inv in Hx as (pe & st1 & -> & Hloop & Hend).
    rewrite observed_cons, app_assoc.
    eapply IH; [|done].
    eapply consistent_page_end; [|done].
    eapply verse_loop_consistent; [|done].
    by apply consistent_new_page.
Qed.

Lemma scrapping_loop page_list :
  scrapping page_list module_state
    = for_each page_iteration page_list module_state.
Proof. done. Qed.

Lemma scrapping_consistent page_list st :
  scrapping page_list module_state = (Return tt, st) →
  consistent (observed page_list) st.
Proof.
  rewrite scrapping_loop. intros Hrun.
  apply (page_loop_consistent page_list [] module_state st);
    [apply consistent_start | done].
Qed.

(** ** Nothing ingested is forgotten *)

Lemma complete_start : complete [] module_state.
Proof. constructor; simpl; try done; by intros e ?%elem_of_nil. Qed.

Lemma linked_pages page_id o st c p s :
  pages (linked page_id o st c p s) =
    <[page_id :=
        page_verses_append (verse_id_of o)
          (page_chapters_add (chapter_number o)
             (page_sections_add (section_number o) p))]> (pages st).
Proof. done. Qed.

Lemma linked_chapters page_id o st c p s :
  chapters (linked page_id o st c p s) =
    <[chapter_number o :=
        chapter_verses_append (verse_id_of o)
          (chapter_sections_add (section_number o) c)]>
      (chapters (recorded page_id o st)).
Proof. done. Qed.

Lemma linked_sections page_id o st c p s :
  sections (linked page_id o st c p s) =
    <[section_number o :=
        section_verses_append (verse_id_of o)
          (section_chapters_add (chapter_number o) s)]>
      (sections (recorded page_id o st)).
Proof. done. Qed.

Lemma recorded_chapters_same page_id o st :
  chapter_number o = current_chapter st →
  chapters (recorded page_id o st) = chapters st.
Proof. intros Heq. unfold recorded; simpl. by rewrite decide_False by auto. Qed.

Lemma recorded_chapters_changed page_id o st :
  chapter_number o ≠ current_chapter st →
  chapters (recorded page_id o st)
    = <[chapter_number o := new_chapter o]> (chapters st).
Proof. intros Hne. unfold recorded; simpl. by rewrite decide_True. Qed.

Lemma recorded_sections_same page_id o st :
  section_number o = current_section st →
  sections (recorded page_id o st) = sections st.
Proof. intros Heq. unfold recorded; simpl. by rewrite decide_False by auto. Qed.

Lemma recorded_sections_changed page_id o st :
  section_number o ≠ current_section st →
  sections (recorded page_id o st)
    = <[section_number o := new_section (section_number o)]> (sections st).
Proof. intros Hne. unfold recorded; simpl. by rewrite decide_True. Qed.

Lemma complete_ingest seen st page_id o st' :
  complete seen st →
  (chapter_number o ≠ current_chapter st →
   ∀ e, e ∈ seen → entry_chapter e ≠ chapter_number o) →
  (section_number o ≠ current_section st →
   ∀ e, e ∈ seen → entry_section e ≠ section_number o) →
  ingest page_id o st = (Return tt, st') →
  complete (seen ++ [(page_id, o)]) st'.
Proof.
  intros [Hp Hc Hs Hcc Hcs] Hfc Hfs
    (c0 & p0 & s0 & Hc0 & Hp0 & Hs0 & ->)%ingest_return_inv.
  constructor.
  - intros e [Hin|Hin]%elem_of_app;
      [|apply list_elem_of_singleton in Hin as ->]; rewrite linked_pages.
    + destruct (Hp e Hin) as (pg & Hpg & Hk).
      rewrite lookup_insert.
      destruct (decide (page_id = e.1)) as [Heq|Hne]; [|by exists pg].
      eexists. split; [done|]. simpl.
      rewrite Heq, Hpg in Hp0. injection Hp0 as <-.
      apply elem_of_app. by left.
    + rewrite lookup_insert_eq. eexists. split; [done|]. simpl.
      apply elem_of_app. right. by apply list_elem_of_singleton.
  - intros e [Hin|Hin]%elem_of_app;
      [|apply list_elem_of_singleton in Hin as ->]; rewrite linked_chapters.
    + destruct (Hc e Hin) as (ch & Hch & Hk).
      rewrite lookup_insert.
      destruct (decide (chapter_number o = entry_chapter e)) as [Heq|Hne].
      * eexists. split; [done|]. simpl.
        destruct (decide (chapter_number o = current_chapter st)) as [Hsame|Hchg].
        2:{ by destruct (Hfc Hchg e Hin). }
        rewrite recorded_chapters_same, Heq, Hch in Hc0 by done.
        injection Hc0 as <-. apply elem_of_app. by left.
      * exists ch. split; [|done].
        destruct (decide (chapter_number o = current_chapter st)) as [Hsame|Hchg].
        -- by rewrite recorded_chapters_same.
        -- by rewrite recorded_chapters_changed, lookup_insert_ne.
    + unfold entry_chapter; simpl.
      rewrite lookup_insert_eq. eexists. split; [done|]. simpl.
      apply elem_of_app. right. by apply list_elem_of_singleton.
  - intros e [Hin|Hin]%elem_of_app;
      [|apply list_elem_of_singleton in Hin as ->]; rewrite linked_sections.
    + destruct (Hs e Hin) as (sec & Hsec & Hk).
      rewrite lookup_insert.
      destruct (decide (section_number o = entry_section e)) as [Heq|Hne].
      * eexists. split; [done|]. simpl.
        destruct (decide (section_number o = current_section st)) as [Hsame|Hchg].
        2:{ by destruct (Hfs Hchg e Hin). }
        rewrite recorded_sections_same, Heq, Hsec in Hs0 by done.
        injection Hs0 as <-. apply elem_of_app. by left.
      * exists sec. split; [|done].
        destruct (decide (section_number o = current_section st)) as [Hsame|Hchg].
        -- by rewrite recorded_sections_same.
        -- by rewrite recorded_sections_changed, lookup_insert_ne.
    + unfold entry_section; simpl.
      rewrite lookup_insert_eq. eexists. split; [done|]. simpl.
      apply elem_of_app. right. by apply list_elem_of_singleton.
  - unfold linked, recorded; simpl. by rewrite fmap_snoc, last_snoc.
  - unfold linked, recorded; simpl. by rewrite fmap_snoc, last_snoc.
Qed.

Lemma complete_new_page seen st page_id pg :
  (∀ e, e ∈ seen → e.1 ≠ page_id) →
  complete seen st →
  complete seen (set_pages (insert page_id pg) st).
Proof.
  intros Hfresh [Hp Hc Hs Hcc Hcs]. constructor; simpl; try done.
  intros e Hin. destruct (Hp e Hin) as (pg' & Hpg' & Hk).
  exists pg'. split; [|done].
  rewrite lookup_insert_ne; [done|]. intros ->. by apply (Hfresh e).
Qed.

Lemma complete_page_end seen st page_id st' :
  complete seen st →
  page_end page_id st = (Return tt, st') →
  complete seen st'.
Proof.
  intros [Hp Hc Hs Hcc Hcs]
    (ch & sec & Hch & Hsec & ->)%page_end_return_inv.
  constructor; simpl; try done.
  - intros e Hin. destruct (Hc e Hin) as (ch' & Hch' & Hk).
    rewrite lookup_insert. case_decide as Heq; [|by exists ch'].
    eexists. split; [done|]. simpl.
    rewrite Heq, Hch' in Hch. by injection Hch as <-.
  - intros e Hin. destruct (Hs e Hin) as (sec' & Hsec' & Hk).
    rewrite lookup_insert. case_decide as Heq; [|by exists sec'].
    eexists. split; [done|]. simpl.
    rewrite Heq, Hsec' in Hsec. by injection Hsec as <-.
Qed.

Lemma fresh_id (f : entry → Z) seen e rest :
  no_return (f <$> (seen ++ e :: rest)) →
  f e ≠ default 0 (last (f <$> seen)) →
  ∀ e', e' ∈ seen → f e' ≠ f e.
Proof.
  rewrite fmap_app, fmap_cons. intros Hnr Hne e' Hin Heq.
  apply (no_return_fresh _ _ _ Hnr Hne).
  rewrite <-Heq. by apply list_elem_of_fmap_2.
Qed.

Lemma verse_loop_complete page_id items seen st st' :
  complete seen st →
  no_return (entry_chapter <$> (seen ++ page_entries page_id items)) →
  no_return (entry_section <$> (seen ++ page_entries page_id items)) →
  for_each (verse_iteration page_id) items st = (Return tt, st') →
  complete (seen ++ page_entries page_id items) st'.
Proof.
  revert seen st.
  induction items as [|x items IH]; intros seen st Hst Hnc Hns Hrun.
  - injection Hrun as <-. by rewrite app_nil_r.
  - simpl in Hrun.
    apply bind_return_inv in Hrun as ([] & st1 & Hx & Hrest).
    apply verse_iteration_return_inv in Hx as (o & Ho & Hx).
    rewrite (page_entries_cons _ _ _ _ Ho) in *.
    assert (complete (seen ++ [(page_id, o)]) st1) as Hst1.
    { eapply complete_ingest; [done| | |done].
      - intros Hne. apply (fresh_id entry_chapter seen (page_id, o) _ Hnc).
        by rewrite <-(at_chapter _ _ Hst).
      - intros Hne. apply (fresh_id entry_section seen (page_id, o) _ Hns).
        by rewrite <-(at_section _ _ Hst). }
    rewrite cons_middle, app_assoc in Hnc, Hns |- *.
    by eapply IH.
Qed.

Lemma page_entries_page page_id items e :
  e ∈ page_entries page_id items → e.1 = page_id.
Proof.
  unfold page_entries. intros (o & -> & _)%list_elem_of_fmap. done.
Qed.

Lemma page_loop_complete page_list seen visited st st' :
  complete seen st →
  (∀ e, e ∈ seen → e.1 ∈ visited) →
  NoDup (visited ++ page_numbers page_list) →
  no_return (entry_chapter <$> (seen ++ observed page_list)) →
  no_return (entry_section <$> (seen ++ observed page_list)) →
  for_each page_iteration page_list st = (Return tt, st') →
  complete (seen ++ observed page_list) st'.
Proof.
  revert seen visited st.
  induction page_list as [|x page_list IH];
    intros seen visited st Hst Hvis Hnd Hnc Hns Hrun.
  - injection Hrun as <-. by rewrite app_nil_r.
  - simpl in Hrun.
    apply bind_return_inv in Hrun as ([] & st2 & Hx & Hrest).
    apply page_iteration_return_inv in Hx as (pe & st1 & -> & Hloop & Hend).
    rewrite observed_cons in *.
    change (page_numbers (Got pe :: page_list))
      with (page_number pe :: page_numbers page_list) in Hnd.
    rewrite app_assoc in Hnc, Hns |- *.
    apply (IH (seen ++ page_log pe) (visited ++ [page_number pe]) st2);
      try done.
    + eapply complete_page_end; [|done].
      eapply verse_loop_complete; [| | |done].
      * apply complete_new_page; [|done].
        intros e Hin Heq. apply NoDup_app in Hnd as (_ & Hnd & _).
        apply (Hnd (page_number pe)); [|by left].
        rewrite <-Heq. by apply Hvis.
      * rewrite fmap_app in Hnc. by apply no_return_app_l in Hnc.
      * rewrite fmap_app in Hns. by apply no_return_app_l in Hns.
    + intros e [Hin|Hin]%elem_of_app; apply elem_of_app.
      * left. by apply Hvis.
      * right. apply list_elem_of_singleton.
        by apply page_entries_page in Hin.
    + by rewrite <-app_assoc.
Qed.

Lemma scrapping_complete page_list st :
  NoDup (page_numbers page_list) →
  no_return (entry_chapter <$> observed page_list) →
  no_return (entry_section <$> observed page_list) →
  scrapping page_list module_state = (Return tt, st) →
  complete (observed page_list) st.
Proof.
  rewrite scrapping_loop. intros Hnd Hnc Hns Hrun.
  apply (page_loop_complete page_list [] [] module_state st);
    [apply complete_start | by intros e ?%elem_of_nil | done..].
Qed.

(** ** Cross references of a finished run *)

(** C3, as claimed: a chapter that is entered again has forgotten the
    verses of its first visit.  On one page, (chapter 1, verse 1),
    (chapter 2, verse 1), (chapter 1, verse 2) are delivered; the run
    returns, the verse record "1:1" names chapter 1, and the verse list of
    chapter 1 does not hold "1:1". *)
Lemma revisited_chapter_forgets :
  ∃ st v ch,
    scrapping chapter_revisited module_state = (Return tt, st) ∧
    verses st !! "1:1" = Some v ∧
    chapters st !! v_chapter v = Some ch ∧
    ch_verses ch = ["1:2"] ∧
    count_occ String.string_dec (ch_verses ch) "1:1" = 0%nat.
Proof.
  exists (snd (scrapping chapter_revisited module_state)).
  eexists _, _. split_and!; vm_compute; reflexivity.
Qed.

(** A second way to break the claim of C3: a verse delivered twice is
    listed twice. *)
Lemma repeated_verse_listed_twice :
  ∃ st v pg,
    scrapping verse_repeated module_state = (Return tt, st) ∧
    verses st !! "1:1" = Some v ∧
    pages st !! v_page v = Some pg ∧
    count_occ String.string_dec (pg_verses pg) "1:1" = 2%nat.
Proof.
  exists (snd (scrapping verse_repeated module_state)).
  eexists _, _. split_and!; vm_compute; reflexivity.
Qed.

(** The same happens to a section that is entered again and to a page
    number that the page list names twice. *)
Lemma revisited_section_forgets :
  ∃ st v sec,
    scrapping section_revisited module_state = (Return tt, st) ∧
    verses st !! "1:1" = Some v ∧
    sections st !! v_section v = Some sec ∧
    sec_verses sec = ["1:3"].
Proof.
  exists (snd (scrapping section_revisited module_state)).
  eexists _, _. split_and!; vm_compute; reflexivity.
Qed.

Lemma reopened_page_forgets :
  ∃ st v pg,
    scrapping page_listed_twice module_state = (Return tt, st) ∧
    verses st !! "1:1" = Some v ∧
    pages st !! v_page v = Some pg ∧
    pg_verses pg = ["1:2"].
Proof.
  exists (snd (scrapping page_listed_twice module_state)).
  eexists _, _. split_and!; vm_compute; reflexivity.
Qed.

(** C3, amended.  After a run that returns, the page, section and chapter
    ids of every verse record resolve to records of [pages], [sections] and
    [chapters].  Each of these three records lists the verse id exactly
    once provided that no (chapter, verse number) pair was delivered twice,
    no page number occurs twice in the page list, and no chapter id and no
    section id comes back after a different one. *)
Theorem verse_references page_list st k v :
  scrapping page_list module_state = (Return tt, st) →
  verses st !! k = Some v →
  ∃ pg sec ch,
    pages st !! v_page v = Some pg ∧
    sections st !! v_section v = Some sec ∧
    chapters st !! v_chapter v = Some ch ∧
    (NoDup (entry_key <$> observed page_list) →
     NoDup (page_numbers page_list) →
     no_return (entry_chapter <$> observed page_list) →
     no_return (entry_section <$> observed page_list) →
     count_occ String.string_dec (pg_verses pg) k = 1%nat ∧
     count_occ String.string_dec (sec_verses sec) k = 1%nat ∧
     count_occ String.string_dec (ch_verses ch) k = 1%nat).
Proof.
  intros Hrun Hk.
  pose proof (scrapping_consistent _ _ Hrun) as Hcons.
  destruct (verses_from _ _ Hcons _ _ Hk) as (e & Hin & -> & ->).
  destruct (resolves _ _ Hcons e Hin) as ([pg Hpg] & [ch Hch] & [sec Hsec]).
  exists pg, sec, ch. simpl. split_and!; try done.
  intros Hkeys%NoDup_entry_ids Hpages Hnc Hns.
  pose proof (scrapping_complete _ _ Hpages Hnc Hns Hrun) as Hcomp.
  split_and!; apply count_occ_NoDup.
  - destruct (pages_from _ _ Hcons _ _ Hpg) as (l & Hl & -> & _).
    eapply sublist_NoDup; [done|]. by apply sublist_fmap_of.
  - destruct (in_page _ _ Hcomp e Hin) as (pg' & Hpg' & Hin').
    rewrite Hpg in Hpg'. by injection Hpg' as <-.
  - destruct (sections_from _ _ Hcons _ _ Hsec) as (l & Hl & ->).
    eapply sublist_NoDup; [done|]. by apply sublist_fmap_of.
  - destruct (in_section _ _ Hcomp e Hin) as (sec' & Hsec' & Hin').
    rewrite Hsec in Hsec'.
    by injection Hsec' as <-.
  - destruct (chapters_from _ _ Hcons _ _ Hch) as (l & Hl & ->).
    eapply sublist_NoDup; [done|]. by apply sublist_fmap_of.
  - destruct (in_chapter _ _ Hcomp e Hin) as (ch' & Hch' & Hin').
    rewrite Hch in Hch'.
    by injection Hch' as <-.
Qed.

(** Small concrete sequences without returns. *)
Ltac no_return_by_cases :=
  intros pre y x post Heq Hne;
  do 4 (destruct pre as [|? pre];
        [simplify_eq/=; rewrite ?elem_of_cons, ?elem_of_nil; lia|]);
  simplify_eq/=.

Lemma no_return_1_1_2 : no_return [1; 1; 2].
Proof. no_return_by_cases. Qed.

Lemma no_return_1_1_1 : no_return [1; 1; 1].
Proof. no_return_by_cases. Qed.

Lemma verse_references_witness :
  ∃ st v pg sec ch,
    scrapping three_observations module_state = (Return tt, st) ∧
    verses st !! "1:2" = Some v ∧
    pages st !! v_page v = Some pg ∧
    sections st !! v_section v = Some sec ∧
    chapters st !! v_chapter v = Some ch ∧
    count_occ String.string_dec (pg_verses pg) "1:2" = 1%nat ∧
    count_occ String.string_dec (sec_verses sec) "1:2" = 1%nat ∧
    count_occ String.string_dec (ch_verses ch) "1:2" = 1%nat.
Proof.
  assert (scrapping three_observations module_state
            = (Return tt, snd (scrapping three_observations module_state)))
    as Hrun by (vm_compute; reflexivity).
  assert (verses (snd (scrapping three_observations module_state)) !! "1:2"
            = Some (new_verse 1 (synthetic 1 1 2)))
    as Hk by (vm_compute; reflexivity).
  destruct (verse_references _ _ _ _ Hrun Hk)
    as (pg & sec & ch & Hpg & Hsec & Hch & Hcount).
  exists (snd (scrapping three_observations module_state)),
    (new_verse 1 (synthetic 1 1 2)), pg, sec, ch.
  destruct Hcount as (Hpgs & Hsecs & Hchs).
  - apply (bool_decide_unpack _). vm_compute. exact I.
  - apply (bool_decide_unpack _). vm_compute. exact I.
  - exact no_return_1_1_2.
  - exact no_return_1_1_1.
  - split_and!; assumption.
Defined.

(** C4, as claimed: two observations of the same verse leave one
    explanation record, since the second assignment overwrites the first. *)
Lemma repeated_verse_one_explanation :
  ∃ st,
    scrapping verse_repeated module_state = (Return tt, st) ∧
    length (observed verse_repeated) = 2%nat ∧
    size (explanations st) = 1%nat.
Proof.
  exists (snd (scrapping verse_repeated module_state)).
  split_and!; vm_compute; reflexivity.
Qed.

(** C4, amended.  After a run that returns, every explanation record has
    language "AR", and when no (chapter, verse number) pair was delivered
    twice there are exactly as many explanation records as observations
    were ingested. *)
Theorem explanation_records page_list st :
  scrapping page_list module_state = (Return tt, st) →
  (∀ k e, explanations st !! k = Some e → ex_language e = "AR") ∧
  (NoDup (entry_key <$> observed page_list) →
   size (explanations st) = length (observed page_list)).
Proof.
  intros Hrun. split.
  - intros k e Hk.
    destruct (records_wf_scrapping page_list) as [_ Hwf].
    rewrite Hrun in Hwf. by destruct (Hwf k e Hk) as (_ & _ & ?).
  - intros Hkeys%NoDup_entry_ids.
    pose proof (scrapping_consistent _ _ Hrun) as Hcons.
    rewrite <-size_dom, (explanations_dom _ _ Hcons).
    rewrite size_list_to_set by done. by rewrite length_fmap.
Qed.

Lemma explanation_records_witness :
  ∃ st,
    scrapping three_observations module_state = (Return tt, st) ∧
    (ex_language <$> explanations st !! "2:1" = Some "AR") ∧
    size (explanations st) = 3%nat.
Proof.
  assert (scrapping three_observations module_state
            = (Return tt, snd (scrapping three_observations module_state)))
    as Hrun by (vm_compute; reflexivity).
  destruct (explanation_records _ _ Hrun) as [Hlang Hsize].
  exists (snd (scrapping three_observations module_state)).
  split_and!; [exact Hrun| |].
  - destruct (explanations (snd (scrapping three_observations module_state))
                !! "2:1") as [e|] eqn:He; [|by vm_compute in He].
    simpl. f_equal. by apply (Hlang "2:1").
  - apply Hsize. apply (bool_decide_unpack _). vm_compute. exact I.
Defined.

(** C5, as claimed: when a verse is delivered a second time under another
    section, the page's section set keeps both sections while the verse
    record, overwritten, names the second only: section 1 is in the set of
    page 1, and no verse of its list has section 1. *)
Lemma repeated_verse_extra_section :
  ∃ st pg,
    scrapping verse_repeated_in_section_two module_state = (Return tt, st) ∧
    pages st !! 1 = Some pg ∧
    pg_sections pg = {[1; 2]} ∧
    pg_verses pg = ["1:1"; "1:1"] ∧
    v_section <$> verses st !! "1:1" = Some 2.
Proof.
  exists (snd (scrapping verse_repeated_in_section_two module_state)).
  eexists. split_and!; vm_compute; reflexivity.
Qed.

(** C5, amended.  After a run that returns, the chapter set of every page
    record is exactly the set of chapter ids of the verses in its verse
    list; its section set is exactly the set of their section ids when no
    (chapter, verse number) pair was delivered twice. *)
Theorem page_sets page_list st p pg :
  scrapping page_list module_state = (Return tt, st) →
  pages st !! p = Some pg →
  (∀ c, c ∈ pg_chapters pg ↔
        ∃ k v, k ∈ pg_verses pg ∧ verses st !! k = Some v ∧ v_chapter v = c) ∧
  (NoDup (entry_key <$> observed page_list) →
   ∀ s, s ∈ pg_sections pg ↔
        ∃ k v, k ∈ pg_verses pg ∧ verses st !! k = Some v ∧ v_section v = s).
Proof.
  intros Hrun Hpg.
  pose proof (scrapping_consistent _ _ Hrun) as Hcons.
  destruct (pages_from _ _ Hcons _ _ Hpg) as (l & Hl & -> & -> & ->).
  pose proof (sublist_subseteq _ _ Hl) as Hsub.
  split.
  - intros c. rewrite elem_of_list_to_set, list_elem_of_fmap. split.
    + intros (e & -> & Hin).
      destruct (verses_all _ _ Hcons e (Hsub _ Hin)) as [v Hv].
      exists (entry_id e), v. split_and!; [by apply list_elem_of_fmap_2|done|].
      destruct (verses_from _ _ Hcons _ _ Hv) as (e' & _ & Hid & ->).
      simpl. symmetry. by apply entry_id_chapter.
    + intros (k & v & (e & -> & Hin)%list_elem_of_fmap & Hv & <-).
      exists e. split; [|done].
      destruct (verses_from _ _ Hcons _ _ Hv) as (e' & _ & Hid & ->).
      simpl. symmetry. by apply entry_id_chapter.
  - intros Hkeys%NoDup_entry_ids s.
    rewrite elem_of_list_to_set, list_elem_of_fmap. split.
    + intros (e & -> & Hin).
      destruct (verses_all _ _ Hcons e (Hsub _ Hin)) as [v Hv].
      exists (entry_id e), v. split_and!; [by apply list_elem_of_fmap_2|done|].
      destruct (verses_from _ _ Hcons _ _ Hv) as (e' & Hin' & Hid & ->).
      simpl. by rewrite (NoDup_fmap_eq _ _ _ _ Hkeys (Hsub _ Hin) Hin' Hid).
    + intros (k & v & (e & -> & Hin)%list_elem_of_fmap & Hv & <-).
      exists e. split; [|done].
      destruct (verses_from _ _ Hcons _ _ Hv) as (e' & Hin' & Hid & ->).
      simpl. by rewrite (NoDup_fmap_eq _ _ _ _ Hkeys (Hsub _ Hin) Hin' Hid).
Qed.

Lemma page_sets_witness :
  ∃ st pg,
    scrapping three_observations module_state = (Return tt, st) ∧
    pages st !! 1 = Some pg ∧
    (2 ∈ pg_chapters pg ↔
     ∃ k v, k ∈ pg_verses pg ∧ verses st !! k = Some v ∧ v_chapter v = 2) ∧
    (1 ∈ pg_sections pg ↔
     ∃ k v, k ∈ pg_verses pg ∧ verses st !! k = Some v ∧ v_section v = 1).
Proof.
  assert (scrapping three_observations module_state
            = (Return tt, snd (scrapping three_observations module_state)))
    as Hrun by (vm_compute; reflexivity).
  destruct (pages (snd (scrapping three_observations module_state)) !! 1)
    as [pg|] eqn:Hpg; [|by vm_compute in Hpg].
  destruct (page_sets _ _ _ _ Hrun Hpg) as [Hchapters Hsections].
  exists (snd (scrapping three_observations module_state)), pg.
  split_and!; [exact Hrun | exact Hpg | apply Hchapters | apply Hsections].
  apply (bool_decide_unpack _). vm_compute. exact I.
Defined.

(** * Beyond the scenarios *)

(** ** Which runs return *)

(** Once both pointers name a record, a verse iteration finds all it looks
    up, whatever ids it carries. *)
Lemma ingest_from_ready page_id o st :
  ready st → is_Some (pages st !! page_id) →
  ∃ st', ingest page_id o st = (Return tt, st').
Proof.
  intros [Hch Hsec] [p Hp].
  assert (is_Some (chapters (recorded page_id o st) !! chapter_number o))
    as [c Hc].
  { destruct (decide (chapter_number o = current_chapter st)) as [Heq|Hne].
    - by rewrite recorded_chapters_same, Heq.
    - by rewrite recorded_chapters_changed, lookup_insert_eq. }
  assert (is_Some (sections (recorded page_id o st) !! section_number o))
    as [s Hs].
  { destruct (decide (section_number o = current_section st)) as [Heq|Hne].
    - by rewrite recorded_sections_same, Heq.
    - by rewrite recorded_sections_changed, lookup_insert_eq. }
  eexists. by eapply ingest_return.
Qed.

(** While the pointers hold the sentinel, an observation with id 0 raises
    on its first lookup of that id. *)
Lemma ingest_sentinel page_id o st :
  untouched st → is_Some (pages st !! page_id) →
  chapter_number o = 0 ∨ section_number o = 0 →
  fst (ingest page_id o st) = Raise (KeyError 0).
Proof.
  intros (Hcur & Hcus & Hchs & Hsecs & _) [p Hp] Hzero.
  destruct (decide (chapter_number o = 0)) as [Hc0|Hc0].
  - rewrite ingest_no_chapter; [by rewrite Hc0|].
    rewrite recorded_chapters_same by congruence.
    by rewrite Hchs, lookup_empty.
  - destruct Hzero as [?|Hs0]; [done|].
    assert (chapters (recorded page_id o st) !! chapter_number o
              = Some (new_chapter o)) as Hc.
    { rewrite recorded_chapters_changed by congruence.
      by rewrite lookup_insert_eq. }
    assert (sections (recorded page_id o st) !! section_number o = None) as Hs.
    { rewrite recorded_sections_same by congruence.
      by rewrite Hsecs, lookup_empty. }
    destruct (ingest_no_section _ _ _ _ _ Hc Hp Hs) as [-> _].
    by rewrite Hs0.
Qed.

Lemma verse_loop_from_ready page_id os st :
  ready st → is_Some (pages st !! page_id) →
  ∃ st', for_each (verse_iteration page_id) (deliver <$> os) st = (Return tt, st') ∧
         ready st'.
Proof.
  revert st. induction os as [|o os IH]; intros st Hready Hp.
  - by exists st.
  - destruct (ingest_from_ready page_id o st Hready Hp) as [st1 Hrun].
    destruct (ingest_ready _ _ _ _ Hrun) as (Hready1 & Hp1 & _).
    destruct (IH st1 Hready1 Hp1) as (st' & Hloop & Hready').
    exists st'. split; [|done].
    rewrite fmap_cons, for_each_cons, verse_iteration_deliver.
    by rewrite (bind_return _ _ _ _ _ Hrun).
Qed.

Lemma page_iteration_from_ready page_id os st :
  ready st →
  ∃ st', page_iteration (delivered page_id os) st = (Return tt, st') ∧
         ready st'.
Proof.
  intros Hready. rewrite page_iteration_delivered.
  set (st0 := set_pages _ st).
  assert (is_Some (pages st0 !! page_id)) as Hp.
  { unfold st0; simpl. by rewrite lookup_insert_eq. }
  destruct (verse_loop_from_ready page_id os st0 Hready Hp)
    as (st1 & Hloop & Hready1).
  rewrite (bind_return _ _ _ _ _ Hloop).
  destruct (page_end_ready page_id st1 Hready1) as (ch & sec & Hch & Hsec & ->).
  eexists. split; [done|].
  unfold ready; simpl. by rewrite !lookup_insert_eq.
Qed.

Lemma page_loop_from_ready (book : list (Z * list observation)) st :
  ready st →
  ∃ st', for_each page_iteration (uncurry delivered <$> book) st
           = (Return tt, st').
Proof.
  revert st. induction book as [|[p os] book IH]; intros st Hready.
  - by exists st.
  - destruct (page_iteration_from_ready p os st Hready) as (st1 & Hrun & Hready1).
    destruct (IH st1 Hready1) as (st' & Hloop).
    exists st'. simpl. by rewrite (bind_return _ _ _ _ _ Hrun).
Qed.

Lemma untouched_first_page page_id : untouched (first_page_open page_id).
Proof. done. Qed.

Lemma first_page_has_page page_id :
  is_Some (pages (first_page_open page_id) !! page_id).
Proof. unfold first_page_open; simpl. by rewrite lookup_insert_eq. Qed.

(** X1. When the browser delivers every page and every verse, the run
    either returns or raises [KeyError 0], and the first observation alone
    decides which: the run returns exactly when the page list is empty, or
    its first page has a first verse whose chapter id and section id are
    both different from 0.  Ids 0 met later, and pages without verses met
    later, do no harm. *)
Theorem first_observation_decides (book : list (Z * list observation)) :
  ∃ r st,
    scrapping (uncurry delivered <$> book) module_state = (r, st) ∧
    (r = Return tt ∨ r = Raise (KeyError 0)) ∧
    (r = Return tt ↔
       book = [] ∨
       ∃ p o os rest, book = (p, o :: os) :: rest ∧
         chapter_number o ≠ 0 ∧ section_number o ≠ 0).
Proof.
  destruct book as [|[p [|o os]] rest].
  - exists (Return tt), module_state. split_and!; [done|by left|].
    split; [by left|done].
  - exists (Raise (KeyError 0)), (first_page_open p). split_and!.
    + change (uncurry delivered <$> (p, []) :: rest)
        with (Got (PageElement p []) :: (uncurry delivered <$> rest)).
      rewrite scrapping_first_page. simpl. unfold py_bind at 1 2. simpl.
      by rewrite page_end_untouched.
    + by right.
    + split; [done|]. intros [?|(? & ? & ? & ? & ? & _)]; done.
  - change (uncurry delivered <$> (p, o :: os) :: rest)
      with (Got (PageElement p (deliver o :: (deliver <$> os)))
              :: (uncurry delivered <$> rest)).
    destruct (decide (chapter_number o ≠ 0 ∧ section_number o ≠ 0))
      as [[Hc Hs]|Hzero].
    + destruct (ingest_total p o (first_page_open p) Hc Hs
                  (first_page_has_page p) (or_introl (untouched_first_page p)))
        as [st1 Hrun].
      destruct (ingest_ready _ _ _ _ Hrun) as (Hready1 & Hp1 & _).
      destruct (verse_loop_from_ready p os st1 Hready1 Hp1)
        as (st2 & Hloop & Hready2).
      destruct (page_end_ready p st2 Hready2) as (ch & sec & Hch & Hsec & Hend).
      match type of Hend with _ = (_, ?s) => set (st3 := s) in * end.
      assert (ready st3) as Hready3.
      { unfold ready, st3; simpl. by rewrite !lookup_insert_eq. }
      destruct (page_loop_from_ready rest st3 Hready3) as (st' & Hrest).
      exists (Return tt), st'. split_and!.
      * rewrite scrapping_first_page, for_each_cons, verse_iteration_deliver.
        assert (((ingest p o ;;
                  for_each (verse_iteration p) (deliver <$> os)) ;;
                 page_end p) (first_page_open p) = (Return tt, st3)) as Hpage.
        { rewrite (bind_return _ _ _ tt st2); [exact Hend|].
          by rewrite (bind_return _ _ _ _ _ Hrun). }
        by rewrite (bind_return _ _ _ _ _ Hpage).
      * by left.
      * split; [|done]. intros _. right. by exists p, o, os, rest.
    + assert (chapter_number o = 0 ∨ section_number o = 0) as Hz.
      { destruct (decide (chapter_number o = 0)); [by left|].
        destruct (decide (section_number o = 0)); [by right|].
        destruct Hzero. done. }
      pose proof (ingest_sentinel p o (first_page_open p)
                    (untouched_first_page p) (first_page_has_page p) Hz) as Hr.
      destruct (ingest p o (first_page_open p)) as [r1 st1] eqn:Hrun.
      simpl in Hr. subst r1.
      exists (Raise (KeyError 0)), st1. split_and!.
      * rewrite scrapping_first_page, for_each_cons, verse_iteration_deliver.
        assert (((ingest p o ;;
                  for_each (verse_iteration p) (deliver <$> os)) ;;
                 page_end p) (first_page_open p)
                = (Raise (KeyError 0), st1)) as Hpage.
        { rewrite (bind_raise _ _ _ (KeyError 0) st1); [done|].
          by rewrite (bind_raise _ _ _ _ _ Hrun). }
        by rewrite (bind_raise _ _ _ _ _ Hpage).
      * by right.
      * split; [done|].
        intros [?|(p' & o' & os' & rest' & [= -> -> -> ->] & Hc & Hs)]; [done|].
        destruct Hz; done.
Qed.

(** ** Which exceptions escape the loop *)

Lemma ingest_outcome page_id o st r st' :
  untouched st ∨ ready st → is_Some (pages st !! page_id) →
  ingest page_id o st = (r, st') →
  (r = Return tt ∧ ready st' ∧ is_Some (pages st' !! page_id)) ∨
  r = Raise (KeyError 0).
Proof.
  intros Hst Hp Hrun.
  assert ((∃ st1, ingest page_id o st = (Return tt, st1)) ∨
          fst (ingest page_id o st) = Raise (KeyError 0)) as [[st1 Hret]|Hraise].
  { destruct Hst as [Hun|Hready].
    - destruct (decide (chapter_number o = 0)) as [Hc|Hc].
      { right. apply ingest_sentinel; auto. }
      destruct (decide (section_number o = 0)) as [Hs|Hs].
      { right. apply ingest_sentinel; auto. }
      left. apply ingest_total; auto.
    - left. by apply ingest_from_ready. }
  - rewrite Hret in Hrun. injection Hrun as <- <-. left.
    destruct (ingest_ready _ _ _ _ Hret) as (? & ? & _). done.
  - rewrite Hrun in Hraise. simpl in Hraise. by right.
Qed.

Lemma verse_iteration_outcome page_id x st r st' :
  untouched st ∨ ready st → is_Some (pages st !! page_id) →
  verse_iteration page_id x st = (r, st') →
  (r = Return tt ∧ ready st' ∧ is_Some (pages st' !! page_id)) ∨
  r = Raise (KeyError 0) ∨
  (∃ e, r = Raise e ∧ e ∈ element_faults x).
Proof.
  intros Hst Hp Hrun.
  destruct (verse_iteration_cases page_id x st)
    as [(o & _ & Heq)|(e & He & Hin)].
  - rewrite Heq in Hrun.
    destruct (ingest_outcome _ _ _ _ _ Hst Hp Hrun) as [?| ->]; auto.
  - rewrite Hrun in He. simpl in He. subst r. right. right. by exists e.
Qed.

Lemma verse_loop_outcome page_id items st r st' :
  untouched st ∨ ready st → is_Some (pages st !! page_id) →
  for_each (verse_iteration page_id) items st = (r, st') →
  (r = Return tt ∧ (untouched st' ∨ ready st')) ∨
  r = Raise (KeyError 0) ∨
  (∃ e, r = Raise e ∧ e ∈ verse_faults items).
Proof.
  revert st. induction items as [|x items IH]; intros st Hst Hp Hrun.
  - injection Hrun as <- <-. by left.
  - rewrite for_each_cons in Hrun. unfold py_bind at 1 in Hrun.
    destruct (verse_iteration page_id x st) as [r1 st1] eqn:Hx.
    change (verse_faults (x :: items))
      with (element_faults x ++ verse_faults items).
    destruct (verse_iteration_outcome _ _ _ _ _ Hst Hp Hx)
      as [(-> & Hready1 & Hp1)|[->|(e & -> & He)]].
    + destruct (IH st1 (or_intror Hready1) Hp1 Hrun)
        as [?|[?|(e & ? & He)]]; [by left|by right; left|].
      right. right. exists e. split; [done|]. apply elem_of_app. by right.
    + injection Hrun as <- <-. auto.
    + injection Hrun as <- <-. right. right. exists e. split; [done|].
      apply elem_of_app. by left.
Qed.

Lemma page_iteration_outcome x st r st' :
  untouched st ∨ ready st →
  page_iteration x st = (r, st') →
  (r = Return tt ∧ (untouched st' ∨ ready st')) ∨
  r = Raise (KeyError 0) ∨
  (∃ e, r = Raise e ∧ e ∈ faults [x]).
Proof.
  intros Hst Hrun. destruct x as [pe|e].
  - unfold page_iteration in Hrun. simpl in Hrun.
    change (py_bind (py_ret pe) ?k st) with (k pe st) in Hrun.
    unfold py_bind at 1 2 in Hrun. simpl in Hrun.
    set (st0 := set_pages _ st) in Hrun.
    assert (untouched st0 ∨ ready st0) as Hst0 by done.
    assert (is_Some (pages st0 !! page_number pe)) as Hp.
    { unfold st0; simpl. by rewrite lookup_insert_eq. }
    destruct (for_each (verse_iteration (page_number pe)) (verse_list pe) st0)
      as [r1 st1] eqn:Hloop.
    destruct (verse_loop_outcome _ _ _ _ _ Hst0 Hp Hloop)
      as [[-> Hst1]|[->|(e & -> & He)]].
    + destruct Hst1 as [Hun|Hready].
      * rewrite page_end_untouched in Hrun.
        2:{ destruct Hun as (_ & _ & -> & _). apply lookup_empty. }
        injection Hrun as <- <-. right. left.
        by destruct Hun as (-> & _).
      * destruct (page_end_ready (page_number pe) st1 Hready)
          as (ch & sec & Hch & Hsec & Hend).
        rewrite Hend in Hrun. injection Hrun as <- <-. left.
        split; [done|]. right.
        unfold ready; simpl. by rewrite !lookup_insert_eq.
    + injection Hrun as <- <-. auto.
    + injection Hrun as <- <-. right. right. exists e. split; [done|].
      unfold faults. simpl. by rewrite app_nil_r.
  - injection Hrun as <- <-. right. right. exists e. split; [done|].
    unfold faults. simpl. by left.
Qed.

Lemma faults_cons x page_list : faults (x :: page_list) = faults [x] ++ faults page_list.
Proof. unfold faults. simpl. by rewrite app_nil_r. Qed.

Lemma page_loop_outcome page_list st r st' :
  untouched st ∨ ready st →
  for_each page_iteration page_list st = (r, st') →
  r = Return tt ∨ r = Raise (KeyError 0) ∨
  (∃ e, r = Raise e ∧ e ∈ faults page_list).
Proof.
  revert st. induction page_list as [|x page_list IH]; intros st Hst Hrun.
  - injection Hrun as <- <-. by left.
  - simpl in Hrun. unfold py_bind at 1 in Hrun.
    destruct (page_iteration x st) as [r1 st1] eqn:Hx.
    rewrite faults_cons.
    destruct (page_iteration_outcome _ _ _ _ Hst Hx)
      as [[-> Hst1]|[->|(e & -> & He)]].
    + destruct (IH st1 Hst1 Hrun) as [?|[?|(e & ? & He)]];
        [by left|by right; left|].
      right. right. exists e. split; [done|]. apply elem_of_app. by right.
    + injection Hrun as <- <-. auto.
    + injection Hrun as <- <-. right. right. exists e. split; [done|].
      apply elem_of_app. by left.
Qed.

(** X2. Whatever the calls into the browser do, an exception that escapes
    the loop is either one that such a call raised (a search, a click, a
    wait or a getter, the [ValueError] of [int] on an unreadable number
    among them), or [KeyError 0]: the dictionaries are never subscripted
    with a missing key other than the sentinel 0 of the two pointers. *)
Theorem only_sentinel_key_error page_list e st :
  scrapping page_list module_state = (Raise e, st) →
  e = KeyError 0 ∨ e ∈ faults page_list.
Proof.
  rewrite scrapping_loop. intros Hrun.
  destruct (page_loop_outcome page_list module_state _ _
              (or_introl (untouched_first_page 0 : untouched module_state)) Hrun)
    as [?|[[= ->]|(e' & [= ->] & He)]]; [done|by left|by right].
Qed.

Lemma only_sentinel_key_error_witness :
  scrapping section_unreadable module_state
    = (Raise ValueError, snd (scrapping section_unreadable module_state)) ∧
  (ValueError = KeyError 0 ∨ ValueError ∈ faults section_unreadable).
Proof.
  assert (scrapping section_unreadable module_state
            = (Raise ValueError,
               snd (scrapping section_unreadable module_state))) as Hrun
    by (vm_compute; reflexivity).
  split; [exact Hrun|].
  exact (only_sentinel_key_error _ _ _ Hrun).
Defined.

(** ** The sentinel ids, for every source *)




(** ** Key sets *)

Lemma dom_insert_present `{Countable K} {A} (m : gmap K A) i x :
  is_Some (m !! i) → dom (<[i:=x]> m) = dom m.
Proof.
  intros Hi. rewrite dom_insert_L. apply set_eq. intros j.
  rewrite elem_of_union, elem_of_singleton. split; [|by right].
  intros [->|?]; [by apply elem_of_dom|done].
Qed.

Lemma dom_recorded_chapters page_id o st c0 :
  chapters (recorded page_id o st) !! chapter_number o = Some c0 →
  dom (chapters (recorded page_id o st))
    = dom (chapters st) ∪ {[ chapter_number o ]}.
Proof.
  intros Hc0.
  destruct (decide (chapter_number o = current_chapter st)) as [Heq|Hne].
  - rewrite recorded_chapters_same in * by done.
    apply set_eq. intros j. rewrite elem_of_union, elem_of_singleton.
    split; [by left|]. intros [?| ->]; [done|]. by apply elem_of_dom.
  - rewrite recorded_chapters_changed by done.
    rewrite dom_insert_L. apply (comm_L (∪)).
Qed.

Lemma dom_recorded_sections page_id o st s0 :
  sections (recorded page_id o st) !! section_number o = Some s0 →
  dom (sections (recorded page_id o st))
    = dom (sections st) ∪ {[ section_number o ]}.
Proof.
  intros Hs0.
  destruct (decide (section_number o = current_section st)) as [Heq|Hne].
  - rewrite recorded_sections_same in * by done.
    apply set_eq. intros j. rewrite elem_of_union, elem_of_singleton.
    split; [by left|]. intros [?| ->]; [done|]. by apply elem_of_dom.
  - rewrite recorded_sections_changed by done.
    rewrite dom_insert_L. apply (comm_L (∪)).
Qed.

Lemma keyed_start : keyed [] [] module_state.
Proof. constructor; simpl; by rewrite dom_empty_L. Qed.

Lemma keyed_ingest seen visited st page_id o st' :
  keyed seen visited st →
  ingest page_id o st = (Return tt, st') →
  keyed (seen ++ [(page_id, o)]) visited st'.
Proof.
  intros [Hp Hc Hs Hv]
    (c0 & p0 & s0 & Hc0 & Hp0 & Hs0 & ->)%ingest_return_inv.
  constructor.
  - rewrite linked_pages, dom_insert_present; done.
  - rewrite linked_chapters, dom_insert_present by done.
    rewrite (dom_recorded_chapters _ _ _ _ Hc0), Hc.
    by rewrite fmap_snoc, list_to_set_snoc_L.
  - rewrite linked_sections, dom_insert_present by done.
    rewrite (dom_recorded_sections _ _ _ _ Hs0), Hs.
    by rewrite fmap_snoc, list_to_set_snoc_L.
  - unfold linked, recorded; simpl.
    rewrite dom_insert_L, Hv, fmap_snoc, list_to_set_snoc_L.
    apply (comm_L (∪)).
Qed.

Lemma keyed_new_page seen visited st page_id pg :
  keyed seen visited st →
  keyed seen (visited ++ [page_id]) (set_pages (insert page_id pg) st).
Proof.
  intros [Hp Hc Hs Hv]. constructor; simpl; try done.
  rewrite dom_insert_L, Hp, list_to_set_snoc_L. apply (comm_L (∪)).
Qed.

Lemma keyed_page_end seen visited st page_id st' :
  keyed seen visited st →
  page_end page_id st = (Return tt, st') →
  keyed seen visited st'.
Proof.
  intros [Hp Hc Hs Hv] (ch & sec & Hch & Hsec & ->)%page_end_return_inv.
  constructor; simpl; try done.
  - by rewrite dom_insert_present.
  - by rewrite dom_insert_present.
Qed.

Lemma verse_loop_keyed page_id items seen visited st st' :
  keyed seen visited st →
  for_each (verse_iteration page_id) items st = (Return tt, st') →
  keyed (seen ++ page_entries page_id items) visited st'.
Proof.
  revert seen st. induction items as [|x items IH]; intros seen st Hst Hrun.
  - injection Hrun as <-. by rewrite app_nil_r.
  - simpl in Hrun.
    apply bind_return_inv in Hrun as ([] & st1 & Hx & Hrest).
    apply verse_iteration_return_inv in Hx as (o & Ho & Hx).
    rewrite (page_entries_cons _ _ _ _ Ho), cons_middle, app_assoc.
    eapply IH; [|done]. by eapply keyed_ingest.
Qed.

Lemma page_numbers_cons pe page_list :
  page_numbers (Got pe :: page_list) = page_number pe :: page_numbers page_list.
Proof. done. Qed.

Lemma page_loop_keyed page_list seen visited st st' :
  keyed seen visited st →
  for_each page_iteration page_list st = (Return tt, st') →
  keyed (seen ++ observed page_list) (visited ++ page_numbers page_list) st'.
Proof.
  revert seen visited st.
  induction page_list as [|x page_list IH]; intros seen visited st Hst Hrun.
  - injection Hrun as <-. by rewrite !app_nil_r.
  - simpl in Hrun.
    apply bind_return_inv in Hrun as ([] & st2 & Hx & Hrest).
    apply page_iteration_return_inv in Hx as (pe & st1 & -> & Hloop & Hend).
    rewrite observed_cons, page_numbers_cons, app_assoc, cons_middle,
      (app_assoc visited).
    eapply IH; [|done].
    eapply keyed_page_end; [|done].
    eapply verse_loop_keyed; [|done].
    by apply keyed_new_page.
Qed.

(** X3. After a run that returns, the keys of the five dictionaries are
    exactly the ids that were read: [pages] is keyed by the page numbers of
    the page list, [chapters] and [sections] by the chapter and section ids
    of the observations, [verses] and [explanations] by their verse ids. *)
Theorem key_sets page_list st :
  scrapping page_list module_state = (Return tt, st) →
  dom (pages st) = list_to_set (page_numbers page_list) ∧
  dom (chapters st) = list_to_set (entry_chapter <$> observed page_list) ∧
  dom (sections st) = list_to_set (entry_section <$> observed page_list) ∧
  dom (verses st) = list_to_set (entry_id <$> observed page_list) ∧
  dom (explanations st) = list_to_set (entry_id <$> observed page_list).
Proof.
  intros Hrun.
  pose proof (scrapping_consistent _ _ Hrun) as Hcons.
  rewrite scrapping_loop in Hrun.
  destruct (page_loop_keyed page_list [] [] module_state st keyed_start Hrun)
    as [Hp Hc Hs Hv].
  split_and!; try done. apply (explanations_dom _ _ Hcons).
Qed.

Lemma key_sets_witness :
  ∃ st,
    scrapping three_observations module_state = (Return tt, st) ∧
    dom (pages st) = list_to_set [1] ∧
    dom (chapters st) = list_to_set [1; 1; 2] ∧
    dom (sections st) = list_to_set [1; 1; 1] ∧
    dom (verses st) = list_to_set ["1:1"; "1:2"; "2:1"] ∧
    dom (explanations st) = list_to_set ["1:1"; "1:2"; "2:1"].
Proof.
  assert (scrapping three_observations module_state
            = (Return tt, snd (scrapping three_observations module_state)))
    as Hrun by (vm_compute; reflexivity).
  exists (snd (scrapping three_observations module_state)).
  split; [exact Hrun|]. exact (key_sets _ _ Hrun).
Defined.

(** ** Keys stay *)

Lemma grows_refl st : grows st st.
Proof. by repeat split. Qed.

Lemma grows_trans st1 st2 st3 : grows st1 st2 → grows st2 st3 → grows st1 st3.
Proof.
  intros (? & ? & ? & ? & ?) (? & ? & ? & ? & ?).
  repeat split; by etrans.
Qed.

Lemma dom_insert_grows `{Countable K} {A} (m : gmap K A) i x :
  dom m ⊆ dom (<[i:=x]> m).
Proof. rewrite dom_insert_L. apply union_subseteq_r. Qed.

Lemma extends_bind {A B} (m : py A) (k : A → py B) :
  extends m → (∀ a, extends (k a)) → extends (py_bind m k).
Proof.
  intros Hm Hk st. unfold py_bind.
  specialize (Hm st). destruct (m st) as [[a|e] st1]; simpl in *; [|done].
  eapply grows_trans; [done|]. apply Hk.
Qed.

Lemma extends_for_each {A} (body : A → py unit) l :
  (∀ x, extends (body x)) → extends (for_each body l).
Proof.
  intros Hbody. induction l as [|x l IH]; simpl.
  - intros st. apply grows_refl.
  - apply extends_bind; [apply Hbody | by intros _].
Qed.

Lemma extends_same {A} (m : py A) :
  (∀ st, snd (m st) = st) → extends m.
Proof. intros Hm st. rewrite Hm. apply grows_refl. Qed.

Lemma extends_chapters_at k f : extends (chapters_at k f).
Proof.
  intros st. unfold chapters_at.
  destruct (chapters st !! k); simpl; [|apply grows_refl].
  repeat split; simpl; try done. apply dom_insert_grows.
Qed.

Lemma extends_sections_at k f : extends (sections_at k f).
Proof.
  intros st. unfold sections_at.
  destruct (sections st !! k); simpl; [|apply grows_refl].
  repeat split; simpl; try done. apply dom_insert_grows.
Qed.

Lemma extends_pages_at k f : extends (pages_at k f).
Proof.
  intros st. unfold pages_at.
  destruct (pages st !! k); simpl; [|apply grows_refl].
  repeat split; simpl; try done. apply dom_insert_grows.
Qed.

Lemma extends_when b (body : py unit) : extends body → extends (when b body).
Proof. destruct b; simpl; [done|]. intros _ st. apply grows_refl. Qed.

Lemma extends_ingest page_id o : extends (ingest page_id o).
Proof.
  unfold ingest.
  repeat first
    [ apply extends_bind; [|intros ?]
    | apply extends_when
    | apply extends_chapters_at
    | apply extends_sections_at
    | apply extends_pages_at
    | by apply extends_same ];
    intros st; repeat split; simpl; try done; apply dom_insert_grows.
Qed.

Lemma extends_fetched {A} (x : fetch A) : extends (fetched x).
Proof. destruct x; by apply extends_same. Qed.

Lemma extends_verse_iteration page_id x : extends (verse_iteration page_id x).
Proof.
  unfold verse_iteration.
  repeat first
    [ apply extends_bind; [|intros ?]
    | apply extends_when
    | apply extends_fetched
    | apply extends_chapters_at
    | apply extends_sections_at
    | apply extends_pages_at
    | by apply extends_same ];
    intros st; repeat split; simpl; try done; apply dom_insert_grows.
Qed.

Lemma extends_page_end page_id : extends (page_end page_id).
Proof.
  unfold page_end.
  repeat first
    [ apply extends_bind; [|intros ?]
    | apply extends_chapters_at
    | apply extends_sections_at
    | by apply extends_same ].
Qed.

Lemma extends_page_iteration x : extends (page_iteration x).
Proof.
  unfold page_iteration.
  apply extends_bind; [destruct x; by apply extends_same|]. intros pe.
  apply extends_bind.
  { intros st. repeat split; simpl; try done. apply dom_insert_grows. }
  intros _. apply extends_bind; [|intros _; apply extends_page_end].
  apply extends_for_each. intros y. apply extends_verse_iteration.
Qed.

(** X4. No key is ever removed.  If the run over a page list returns, then
    the run over that page list followed by any further pages, however it
    ends, leaves every dictionary with at least the keys it had. *)
Theorem keys_never_removed page_list more st1 :
  scrapping page_list module_state = (Return tt, st1) →
  dom (verses st1)
    ⊆ dom (verses (snd (scrapping (page_list ++ more) module_state))) ∧
  dom (pages st1)
    ⊆ dom (pages (snd (scrapping (page_list ++ more) module_state))) ∧
  dom (chapters st1)
    ⊆ dom (chapters (snd (scrapping (page_list ++ more) module_state))) ∧
  dom (sections st1)
    ⊆ dom (sections (snd (scrapping (page_list ++ more) module_state))) ∧
  dom (explanations st1)
    ⊆ dom (explanations (snd (scrapping (page_list ++ more) module_state))).
Proof.
  rewrite !scrapping_loop. intros Hrun.
  rewrite for_each_app, (bind_return _ _ _ _ _ Hrun).
  apply (extends_for_each page_iteration more extends_page_iteration st1).
Qed.

Lemma keys_never_removed_witness :
  dom (chapters (snd (scrapping three_observations module_state)))
    ⊆ dom (chapters (snd (scrapping (three_observations ++ chapter_revisited)
                            module_state))).
Proof.
  assert (scrapping three_observations module_state
            = (Return tt, snd (scrapping three_observations module_state)))
    as Hrun by (vm_compute; reflexivity).
  destruct (keys_never_removed three_observations chapter_revisited _ Hrun)
    as (_ & _ & Hch & _).
  exact Hch.
Defined.
(** ** Ids and back references *)

Lemma ids_wf_module_state : ids_wf module_state.
Proof.
  split_and!; intros k x; simpl; by rewrite lookup_empty.
Qed.

Lemma ids_wf_chapters_at k f : preserves ids_wf (chapters_at k f).
Proof.
  intros st HP. unfold chapters_at. by destruct (chapters st !! k).
Qed.

Lemma ids_wf_sections_at k f :
  (∀ s, sec_id (f s) = sec_id s) → preserves ids_wf (sections_at k f).
Proof.
  intros Hf st (Hp & Hs & Hv). unfold sections_at.
  destruct (sections st !! k) as [s0|] eqn:Hk; simpl; [|done].
  unfold ids_wf; split_and!; try done. intros s sec. simpl.
  rewrite lookup_insert. case_decide as E; [|apply Hs].
  intros [= <-]. subst s. rewrite Hf. by apply Hs.
Qed.

Lemma ids_wf_pages_at k f :
  (∀ p, pg_id (f p) = pg_id p ∧ pg_number (f p) = pg_number p) →
  preserves ids_wf (pages_at k f).
Proof.
  intros Hf st (Hp & Hs & Hv). unfold pages_at.
  destruct (pages st !! k) as [p0|] eqn:Hk; simpl; [|done].
  unfold ids_wf; split_and!; try done; intros p pg; simpl;
    rewrite lookup_insert; (case_decide as E; [|apply Hp]);
    intros [= <-]; subst p; destruct (Hf p0) as [-> ->]; by apply Hp.
Qed.

(** The assignments of lines 291-312: the explanation is stored first; the
    call of line 306 may raise before the verse is stored. *)
Lemma preserves_explained {A} (P : state → Prop) f (x : fetch A) g
    (k : py unit) :
  (∀ st, P st → P (f st)) →
  (∀ st a, P st → P (g a (f st))) →
  preserves P k →
  preserves P (modify f ;; a <- fetched x ;; modify (g a) ;; k).
Proof.
  intros Hf Hg Hk st HP. destruct x as [a|e].
  - apply Hk, Hg, HP.
  - apply Hf, HP.
Qed.

Lemma ids_wf_verse_iteration page_id x :
  preserves ids_wf (verse_iteration page_id x).
Proof.
  unfold verse_iteration.
  do 8 (apply preserves_bind; [apply preserves_fetched|intros ?]).
  apply (preserves_explained ids_wf _ _
           (λ us, set_verses (insert _ (Verse _ _ us _ _ _ _)))).
  - intros st (Hp & Hs & Hv). unfold ids_wf; split_and!; try done.
    intros k v Hk. destruct (Hv k v Hk) as (? & ? & ?).
    split_and!; try done. simpl. by apply insert_is_Some.
  - intros st us (Hp & Hs & Hv). unfold ids_wf; split_and!; try done.
    intros k v. simpl. rewrite lookup_insert.
    case_decide as Hk.
    + intros [= <-]. subst k. split_and!; try done.
      by rewrite lookup_insert_eq.
    + intros Hkv. destruct (Hv k v Hkv) as (? & ? & ?).
      split_and!; try done. by apply insert_is_Some.
  - repeat first
      [ apply preserves_bind; [|intros ?]
      | apply preserves_when
      | apply preserves_get
      | apply preserves_fetched
      | apply ids_wf_chapters_at
      | apply ids_wf_sections_at; by intros []
      | apply ids_wf_pages_at; by intros [] ].
    + by intros st (Hp & Hs & Hv).
    + by intros st (Hp & Hs & Hv).
    + by intros st (Hp & Hs & Hv).
    + intros st (Hp & Hs & Hv). unfold ids_wf; split_and!; try done.
      intros s sec. simpl. rewrite lookup_insert. case_decide; [|apply Hs].
      intros [= <-]. done.
Qed.

Lemma ids_wf_page_end page_id : preserves ids_wf (page_end page_id).
Proof.
  unfold page_end.
  repeat first
    [ apply preserves_bind; [|intros ?]
    | apply preserves_get
    | apply ids_wf_chapters_at
    | apply ids_wf_sections_at; by intros [] ].
Qed.

Lemma ids_wf_page_iteration x : preserves ids_wf (page_iteration x).
Proof.
  unfold page_iteration.
  apply preserves_bind; [apply preserves_fetched|]. intros pe.
  apply preserves_bind.
  { intros st (Hp & Hs & Hv). unfold ids_wf; split_and!; try done;
      intros p pg; simpl; rewrite lookup_insert;
      (case_decide; [|apply Hp]); by intros [= <-]. }
  intros _.
  apply preserves_bind; [|intros _; apply ids_wf_page_end].
  apply preserves_for_each. intros y. apply ids_wf_verse_iteration.
Qed.

Lemma ids_wf_scrapping page_list :
  ids_wf (snd (scrapping page_list module_state)).
Proof.
  assert (preserves ids_wf (scrapping page_list)) as H.
  { unfold scrapping.
    apply preserves_bind; [by intros st (? & ? & ?)|]. intros _.
    apply preserves_bind; [by intros st (? & ? & ?)|]. intros _.
    apply preserves_for_each, ids_wf_page_iteration. }
  apply H, ids_wf_module_state.
Qed.

(** Iterations that return store the explanation and the verse together. *)
Lemma paired_module_state : paired module_state.
Proof.
  split.
  - intros k v. simpl. by rewrite lookup_empty.
  - intros k. simpl. rewrite lookup_empty. by intros [? ?].
Qed.

Lemma paired_ingest page_id o st st' :
  paired st → ingest page_id o st = (Return tt, st') → paired st'.
Proof.
  intros [Hv He] (c & p & s & _ & _ & _ & ->)%ingest_return_inv.
  split.
  - intros k v. unfold linked, recorded; simpl. rewrite !lookup_insert.
    case_decide as Hk.
    + intros [= <-]. by eexists.
    + apply Hv.
  - intros k. unfold linked, recorded; simpl. rewrite !lookup_insert.
    case_decide; [done|]. apply He.
Qed.

Lemma paired_same st st' :
  verses st' = verses st → explanations st' = explanations st →
  paired st → paired st'.
Proof. intros Hv He [? ?]. unfold paired. by rewrite Hv, He. Qed.

Lemma paired_page_end page_id st st' :
  paired st → page_end page_id st = (Return tt, st') → paired st'.
Proof.
  intros Hst (ch & sec & _ & _ & ->)%page_end_return_inv.
  by apply (paired_same st).
Qed.

Lemma verse_loop_paired page_id items st st' :
  paired st →
  for_each (verse_iteration page_id) items st = (Return tt, st') →
  paired st'.
Proof.
  revert st. induction items as [|x items IH]; intros st Hst Hrun.
  - by injection Hrun as <-.
  - rewrite for_each_cons in Hrun.
    apply bind_return_inv in Hrun as ([] & st1 & Hx & Hrest).
    apply verse_iteration_return_inv in Hx as (o & _ & Hx).
    eapply IH; [|done]. by eapply paired_ingest.
Qed.

Lemma page_loop_paired page_list st st' :
  paired st →
  for_each page_iteration page_list st = (Return tt, st') →
  paired st'.
Proof.
  revert st. induction page_list as [|x page_list IH]; intros st Hst Hrun.
  - by injection Hrun as <-.
  - rewrite for_each_cons in Hrun.
    apply bind_return_inv in Hrun as ([] & st2 & Hx & Hrest).
    apply page_iteration_return_inv in Hx as (pe & st1 & -> & Hloop & Hend).
    eapply IH; [|done].
    eapply paired_page_end; [|done].
    eapply verse_loop_paired; [|done].
    by apply (paired_same st).
Qed.

(** X5. However a run ends, every record sits under its own id: a page
    record under key [p] has id and number [p], a chapter record under [c]
    has id and number [c], a section record under [s] has id [s]; a verse
    record under [k] has id [k], lists [k] as its only explanation, and the
    explanation record under [k] exists and names verse [k].  After a run
    that returns, verse and explanation records come in pairs: the
    explanation under [k] carries the page, section and chapter ids of the
    verse under [k], and there is no explanation record without its verse
    record. *)
Theorem records_under_their_ids page_list :
  (∀ p pg, pages (snd (scrapping page_list module_state)) !! p = Some pg →
     pg_id pg = p ∧ pg_number pg = p) ∧
  (∀ c ch, chapters (snd (scrapping page_list module_state)) !! c = Some ch →
     ch_id ch = c ∧ ch_number ch = c) ∧
  (∀ s sec, sections (snd (scrapping page_list module_state)) !! s = Some sec →
     sec_id sec = s) ∧
  (∀ k v, verses (snd (scrapping page_list module_state)) !! k = Some v →
     v_id v = k ∧ v_explanations v = [k] ∧
     ∃ e, explanations (snd (scrapping page_list module_state)) !! k = Some e ∧
          ex_id e = k ∧ ex_verse e = k) ∧
  (∀ st, scrapping page_list module_state = (Return tt, st) →
     (∀ k v, verses st !! k = Some v →
        ∃ e, explanations st !! k = Some e ∧
             ex_page e = v_page v ∧ ex_section e = v_section v ∧
             ex_chapter e = v_chapter v) ∧
     (∀ k, is_Some (explanations st !! k) → is_Some (verses st !! k))).
Proof.
  destruct (ids_wf_scrapping page_list) as (Hp & Hs & Hv).
  destruct (records_wf_scrapping page_list) as [Hc Hx].
  split_and!; try done.
  - intros c ch Hch. by destruct (Hc c ch Hch) as (? & ? & _).
  - intros k v Hk. destruct (Hv k v Hk) as (? & ? & e & Hek).
    split_and!; try done. exists e.
    destruct (Hx k e Hek) as (? & ? & _). done.
  - intros st Hrun. rewrite scrapping_loop in Hrun.
    apply (page_loop_paired page_list module_state st paired_module_state Hrun).
Qed.

Lemma records_under_their_ids_witness :
  (∃ v e,
     verses (snd (scrapping cancelled_after_two module_state)) !! "1:2"
       = Some v ∧
     explanations (snd (scrapping cancelled_after_two module_state)) !! "1:2"
       = Some e ∧
     v_id v = "1:2" ∧ ex_verse e = "1:2") ∧
  (∀ k, is_Some (explanations (snd (scrapping three_observations module_state))
                   !! k) →
        is_Some (verses (snd (scrapping three_observations module_state))
                   !! k)).
Proof.
  split.
  - destruct (records_under_their_ids cancelled_after_two)
      as (_ & _ & _ & Hv & _).
    destruct (verses (snd (scrapping cancelled_after_two module_state))
                !! "1:2") as [v|] eqn:Hk; [|by vm_compute in Hk].
    destruct (Hv "1:2" v Hk) as (? & ? & e & ? & ? & ?).
    by exists v, e.
  - assert (scrapping three_observations module_state
              = (Return tt, snd (scrapping three_observations module_state)))
      as Hrun by (vm_compute; reflexivity).
    destruct (records_under_their_ids three_observations)
      as (_ & _ & _ & _ & Hret).
    exact (proj2 (Hret _ Hrun)).
Defined.

(** X16. Where a getter raises decides what the iteration leaves behind.
    The three numbers are read before anything is assigned: when the
    section title holds no number (line 208, [ValueError]) the iteration
    raises with the dictionaries as they were.  When the verse texts cannot
    be read (line 306) it raises with the explanation record stored and
    nothing else changed: an explanation without its verse, if the verse id
    is new.  When the chapter name cannot be read (line 319) and the chapter
    differs from the pointer, it raises with the explanation and the verse
    stored and the pointer moved, but no chapter record written; when the
    chapter is the current one the name is not asked for, and the iteration
    does what it does for an element that delivers everything. *)
Theorem getter_fault_between_writes page_id o e st :
  verse_iteration page_id (without_section_number o) st
    = (Raise ValueError, st) ∧
  verse_iteration page_id (without_arabic_unicodes e o) st
    = (Raise e,
       set_explanations
         (insert (verse_id_of o) (new_explanation page_id o)) st) ∧
  (chapter_number o ≠ current_chapter st →
     verse_iteration page_id (without_chapter_name e o) st
       = (Raise e,
          set_current_chapter (chapter_number o)
            (set_verses (insert (verse_id_of o) (new_verse page_id o))
               (set_explanations
                  (insert (verse_id_of o) (new_explanation page_id o)) st)))) ∧
  (chapter_number o = current_chapter st →
     verse_iteration page_id (without_chapter_name e o) st
       = ingest page_id o st).
Proof.
  split_and!.
  - reflexivity.
  - reflexivity.
  - intros Hne.
    unfold verse_iteration, py_bind, fetched, py_ret, modify, get.
    simpl. by rewrite bool_decide_eq_true_2.
  - intros Heq.
    unfold verse_iteration, ingest, py_bind, fetched, py_ret, modify, get.
    simpl. by rewrite bool_decide_eq_false_2 by (by intros H; apply H).
Qed.

Lemma getter_fault_between_writes_witness :
  verse_iteration 1 (without_chapter_name WebDriverException (synthetic 2 1 1))
    two_ingested
    = (Raise WebDriverException,
       set_current_chapter 2
         (set_verses (insert "2:1" (new_verse 1 (synthetic 2 1 1)))
            (set_explanations
               (insert "2:1" (new_explanation 1 (synthetic 2 1 1)))
               two_ingested))) ∧
  verse_iteration 1 (without_chapter_name WebDriverException (synthetic 1 1 3))
    two_ingested
    = ingest 1 (synthetic 1 1 3) two_ingested.
Proof.
  destruct (getter_fault_between_writes 1 (synthetic 2 1 1) WebDriverException
              two_ingested) as (_ & _ & Hchanged & _).
  destruct (getter_fault_between_writes 1 (synthetic 1 1 3) WebDriverException
              two_ingested) as (_ & _ & _ & Hsame).
  split.
  - apply Hchanged. vm_compute. discriminate.
  - apply Hsame. vm_compute. reflexivity.
Defined.

(** ** The [finally] block and the script as a whole *)

Lemma chapters_not_serializable (d : gmap Z chapter) :
  d ≠ ∅ → forallb json_serializable (records chapter_obj d) = false.
Proof.
  intros Hd. unfold records.
  destruct (map_to_list d) as [|[k c] l] eqn:E.
  - by apply map_to_list_empty_iff in E.
  - simpl. by rewrite strings_serializable, ints_serializable.
Qed.

Lemma sections_not_serializable (d : gmap Z section) :
  d ≠ ∅ → forallb json_serializable (records section_obj d) = false.
Proof.
  intros Hd. unfold records.
  destruct (map_to_list d) as [|[k c] l] eqn:E.
  - by apply map_to_list_empty_iff in E.
  - simpl. by rewrite strings_serializable, ints_serializable.
Qed.

Lemma explanations_serializable (d : gmap string explanation) :
  forallb json_serializable (records explanation_obj d) = true.
Proof. unfold records. by apply all_serializable. Qed.

Lemma records_empty {K} `{Countable K} {V} (obj : V → pyobj) :
  records obj (∅ : gmap K V) = [].
Proof. unfold records. by rewrite map_to_list_empty. Qed.

(** X6. The [finally] block completes exactly when [pages], [chapters] and
    [sections] are all empty.  Otherwise it raises [TypeError] at the first
    of these three that holds a record (each of their records holds a
    [set]), so that the files after it, the explanations file among them,
    are not written; the languages and verses files always are. *)
Theorem finalization_outcome st :
  (pages st ≠ ∅ →
     finalization st = (Raise TypeError, ["languages"; "verses"])) ∧
  (pages st = ∅ → chapters st ≠ ∅ →
     finalization st = (Raise TypeError, ["languages"; "verses"; "pages"])) ∧
  (pages st = ∅ → chapters st = ∅ → sections st ≠ ∅ →
     finalization st
       = (Raise TypeError, ["languages"; "verses"; "pages"; "chapters"])) ∧
  (pages st = ∅ → chapters st = ∅ → sections st = ∅ →
     finalization st
       = (Return tt, ["languages"; "verses"; "pages"; "chapters"; "sections";
                      "explanations"])).
Proof.
  split_and!.
  - apply finalization_raises.
  - intros Hp Hc. unfold finalization, dump_all.
    change (forallb json_serializable languages) with true. simpl.
    rewrite verses_serializable, Hp, records_empty. simpl.
    by rewrite chapters_not_serializable.
  - intros Hp Hc Hs. unfold finalization, dump_all.
    change (forallb json_serializable languages) with true. simpl.
    rewrite verses_serializable, Hp, Hc, !records_empty. simpl.
    by rewrite sections_not_serializable.
  - intros Hp Hc Hs. unfold finalization, dump_all.
    change (forallb json_serializable languages) with true. simpl.
    rewrite verses_serializable, Hp, Hc, Hs, !records_empty. simpl.
    by rewrite explanations_serializable.
Qed.

Lemma finalization_outcome_witness :
  finalization two_ingested = (Raise TypeError, ["languages"; "verses"]) ∧
  finalization (set_chapters (insert 1 (new_chapter (synthetic 1 1 1)))
                  module_state)
    = (Raise TypeError, ["languages"; "verses"; "pages"]) ∧
  finalization (set_sections (insert 1 (new_section 1)) module_state)
    = (Raise TypeError, ["languages"; "verses"; "pages"; "chapters"]) ∧
  finalization module_state
    = (Return tt, ["languages"; "verses"; "pages"; "chapters"; "sections";
                   "explanations"]).
Proof.
  split_and!.
  - apply (proj1 (finalization_outcome two_ingested)).
    intros Hempty. apply (f_equal (λ m : gmap Z page, m !! 1)) in Hempty.
    by vm_compute in Hempty.
  - apply (proj1 (proj2 (finalization_outcome _))); [done|].
    simpl. apply insert_non_empty.
  - apply (proj1 (proj2 (proj2 (finalization_outcome _)))); [done|done|].
    simpl. apply insert_non_empty.
  - by apply (proj2 (proj2 (proj2 (finalization_outcome module_state)))).
Defined.

Lemma first_page_stays page_id items rest :
  pages (snd (scrapping (Got (PageElement page_id items) :: rest) module_state))
    ≠ ∅.
Proof.
  rewrite scrapping_first_page.
  assert (extends ((for_each (verse_iteration page_id) items ;;
                    page_end page_id) ;;
                   for_each page_iteration rest)) as Hext.
  { apply extends_bind; [|intros _].
    - apply extends_bind; [|intros _; apply extends_page_end].
      apply extends_for_each. intros y. apply extends_verse_iteration.
    - apply extends_for_each, extends_page_iteration. }
  destruct (Hext (first_page_open page_id)) as (_ & Hp & _).
  intros Hempty. rewrite Hempty, dom_empty_L in Hp.
  assert (page_id ∈ dom (pages (first_page_open page_id))) as Hin.
  { apply elem_of_dom, first_page_has_page. }
  by apply Hp in Hin.
Qed.

(** X7. What the script ends with, by how its page list starts.  With no
    page at all, or with an exception raised before the first page is
    opened, the dictionaries are empty, all six files are written, and the
    exception escapes unless it is [KeyboardInterrupt] or [SystemExit].  As
    soon as the first page has been opened the script ends with the
    [TypeError] of the [finally] block, whatever the loop did, returned or
    raised, and only the languages and verses files are written. *)
Theorem main_outcome page_list :
  match page_list with
  | [] =>
      main page_list
        = (Return tt, module_state,
           ["languages"; "verses"; "pages"; "chapters"; "sections";
            "explanations"])
  | Fault e :: _ =>
      main page_list
        = (except_clause (Raise e), module_state,
           ["languages"; "verses"; "pages"; "chapters"; "sections";
            "explanations"])
  | Got _ :: _ =>
      main page_list
        = (Raise TypeError, snd (scrapping page_list module_state),
           ["languages"; "verses"])
  end.
Proof.
  destruct page_list as [|[[page_id items]|e] rest].
  - done.
  - apply main_raises, first_page_stays.
  - done.
Qed.

(** ** Value getters *)

Lemma sub_digits_filter s :
  String.list_ascii_of_string (sub_digits s)
    = filter (λ a, is_digit a = false) (String.list_ascii_of_string s).
Proof.
  induction s as [|a s IH]; [done|]. simpl.
  destruct (is_digit a) eqn:Ha.
  - rewrite filter_cons_False by (rewrite Ha; done). done.
  - rewrite filter_cons_True by done. simpl. by rewrite IH.
Qed.

Lemma sub_digits_no_digit s : no_digit (sub_digits s) = true.
Proof.
  induction s as [|a s IH]; [done|]. simpl.
  destruct (is_digit a) eqn:Ha; [done|]. simpl. by rewrite Ha.
Qed.

Lemma sub_digits_fixed s : sub_digits s = s ↔ no_digit s = true.
Proof.
  split.
  - intros <-. apply sub_digits_no_digit.
  - induction s as [|a s IH]; [done|]. simpl.
    destruct (is_digit a); [done|]. simpl. intros Hs. by rewrite IH.
Qed.

Lemma sub_digits_app s t : sub_digits (s +:+ t) = sub_digits s +:+ sub_digits t.
Proof.
  induction s as [|a s IH]; [done|].
  rewrite append_String. simpl. destruct (is_digit a); [done|].
  by rewrite append_String, IH.
Qed.

(** X8. The native chapter name is the title text with exactly its ASCII
    digits removed: the other characters are kept, in order; no digit is
    left; a text without digits is returned as it is, and only such a text;
    stripping a second time changes nothing; and the name of a
    concatenation is the concatenation of the names. *)
Theorem chapter_arabic_unicode_strips_digits text :
  String.list_ascii_of_string (get_chapter_arabic_unicode text)
    = filter (λ a, is_digit a = false) (String.list_ascii_of_string text) ∧
  no_digit (get_chapter_arabic_unicode text) = true ∧
  (get_chapter_arabic_unicode text = text ↔ no_digit text = true) ∧
  get_chapter_arabic_unicode (get_chapter_arabic_unicode text)
    = get_chapter_arabic_unicode text ∧
  (∀ other, get_chapter_arabic_unicode (text +:+ other)
            = get_chapter_arabic_unicode text
              +:+ get_chapter_arabic_unicode other).
Proof.
  unfold get_chapter_arabic_unicode. split_and!.
  - apply sub_digits_filter.
  - apply sub_digits_no_digit.
  - apply sub_digits_fixed.
  - apply sub_digits_fixed, sub_digits_no_digit.
  - apply sub_digits_app.
Qed.

Lemma chapter_arabic_unicode_strips_digits_witness :
  get_chapter_arabic_unicode "2 Al-Baqarah 286" = " Al-Baqarah " ∧
  (get_chapter_arabic_unicode " Al-Baqarah " = " Al-Baqarah "
   ↔ no_digit " Al-Baqarah " = true).
Proof.
  split; [reflexivity|].
  exact (proj1 (proj2 (proj2
           (chapter_arabic_unicode_strips_digits " Al-Baqarah ")))).
Defined.

(** *** Digits *)

Lemma sub_non_digits_app s t :
  sub_non_digits (s +:+ t) = sub_non_digits s +:+ sub_non_digits t.
Proof.
  induction s as [|a s IH]; [done|].
  rewrite append_String. simpl. destruct (is_digit a); [|done].
  by rewrite append_String, IH.
Qed.

Lemma sub_non_digits_all_digits s :
  all_digits s = true → sub_non_digits s = s.
Proof.
  induction s as [|a s IH]; [done|]. simpl.
  intros [-> Hs]%andb_true_iff. by rewrite IH.
Qed.

Lemma sub_non_digits_no_digit s :
  no_digit s = true → sub_non_digits s = EmptyString.
Proof.
  induction s as [|a s IH]; [done|]. simpl.
  intros [Ha Hs]%andb_true_iff. apply negb_true_iff in Ha. rewrite Ha.
  by apply IH.
Qed.

Lemma sub_non_digits_empty s :
  sub_non_digits s = EmptyString → no_digit s = true.
Proof.
  induction s as [|a s IH]; [done|]. simpl.
  destruct (is_digit a); [done|]. simpl. apply IH.
Qed.

Lemma sub_non_digits_digits s : all_digits (sub_non_digits s) = true.
Proof.
  induction s as [|a s IH]; [done|]. simpl.
  destruct (is_digit a) eqn:Ha; [|done]. simpl. by rewrite Ha.
Qed.

Lemma all_digits_app s t :
  all_digits (s +:+ t) = all_digits s && all_digits t.
Proof.
  induction s as [|a s IH]; [done|].
  rewrite append_String. simpl. by rewrite IH, andb_assoc.
Qed.

Lemma length_append s t :
  String.length (s +:+ t) = (String.length s + String.length t)%nat.
Proof.
  induction s as [|a s IH]; [done|].
  rewrite append_String. simpl. by rewrite IH.
Qed.

Lemma decimal_from_acc acc s :
  decimal_from acc s
    = acc * 10 ^ Z.of_nat (String.length s) + decimal_from 0 s.
Proof.
  revert acc. induction s as [|a s IH]; intros acc.
  - simpl. lia.
  - cbn [decimal_from String.length].
    rewrite (IH (10 * acc + digit_value a)), (IH (10 * 0 + digit_value a)).
    rewrite Nat2Z.inj_succ, Z.pow_succ_r by lia. lia.
Qed.

Lemma decimal_from_app acc s t :
  decimal_from acc (s +:+ t) = decimal_from (decimal_from acc s) t.
Proof.
  revert acc. induction s as [|a s IH]; intros acc; [done|].
  rewrite append_String. simpl. apply IH.
Qed.

Lemma decimal_app s t :
  decimal (s +:+ t)
    = decimal s * 10 ^ Z.of_nat (String.length t) + decimal t.
Proof. unfold decimal. by rewrite decimal_from_app, decimal_from_acc. Qed.

Lemma decimal_from_nonneg acc s :
  0 ≤ acc → all_digits s = true → 0 ≤ decimal_from acc s.
Proof.
  revert acc. induction s as [|a s IH]; intros acc Hacc; [done|]. simpl.
  intros [Ha Hs]%andb_true_iff. apply IH; [|done].
  unfold is_digit in Ha. apply andb_true_iff in Ha as [Hlo _].
  apply Nat.leb_le in Hlo. unfold digit_value. lia.
Qed.

Lemma pretty_N_char_digit x :
  (x < 10)%N →
  is_digit (pretty_N_char x) = true ∧ digit_value (pretty_N_char x) = Z.of_N x.
Proof.
  intros Hx.
  assert (x = 0 ∨ x = 1 ∨ x = 2 ∨ x = 3 ∨ x = 4 ∨ x = 5 ∨ x = 6 ∨ x = 7
          ∨ x = 8 ∨ x = 9)%N as Hcases by lia.
  repeat (destruct Hcases as [->|Hcases]; [by vm_compute|]).
  subst. by vm_compute.
Qed.

Lemma pretty_N_go_digits x s :
  all_digits s = true →
  all_digits (pretty_N_go x s) = true ∧
  decimal (pretty_N_go x s)
    = Z.of_N x * 10 ^ Z.of_nat (String.length s) + decimal s.
Proof.
  revert s. induction (N.lt_wf_0 x) as [x _ IH]; intros s Hs.
  destruct (decide (x = 0)%N) as [->|Hx].
  - rewrite pretty_N_go_0. split; [done|]. lia.
  - rewrite pretty_N_go_step by lia.
    destruct (pretty_N_char_digit (x `mod` 10)%N) as [Hd Hv].
    { apply N.mod_lt. lia. }
    destruct (IH (x `div` 10)%N) with (s := String (pretty_N_char (x `mod` 10)) s)
      as [Hall Hdec].
    { apply N.div_lt; lia. }
    { simpl. by rewrite Hd, Hs. }
    split; [done|]. rewrite Hdec.
    unfold decimal. cbn [decimal_from String.length].
    rewrite (decimal_from_acc (10 * 0 + _)), Hv.
    rewrite Nat2Z.inj_succ, Z.pow_succ_r by lia.
    pose proof (N.div_mod x 10) as Hdm.
    assert (Z.of_N x = 10 * Z.of_N (x `div` 10) + Z.of_N (x `mod` 10)) as ->
      by lia.
    lia.
Qed.

Lemma pretty_N_digits (x : N) :
  all_digits (pretty x) = true ∧ decimal (pretty x) = Z.of_N x ∧
  pretty x ≠ EmptyString.
Proof.
  unfold pretty, pretty_N. case_decide as Hx.
  - subst. by vm_compute.
  - destruct (pretty_N_go_digits x EmptyString eq_refl) as [Hall Hdec].
    split_and!; [done| |].
    + rewrite Hdec. change (decimal EmptyString) with 0. simpl. lia.
    + intros Hempty. rewrite Hempty in Hdec.
      change (decimal EmptyString) with 0 in Hdec. simpl in Hdec. lia.
Qed.

(** [str] of a number, with its sign dropped, is [str] of its absolute
    value, a non-empty string of digits that reads back as that value. *)
Lemma str_digits z :
  sub_non_digits (str z) = str (Z.abs z) ∧
  all_digits (str (Z.abs z)) = true ∧
  decimal (str (Z.abs z)) = Z.abs z ∧
  str (Z.abs z) ≠ EmptyString.
Proof.
  assert (∀ p : positive,
            all_digits (str (Z.pos p)) = true ∧
            decimal (str (Z.pos p)) = Z.pos p ∧
            str (Z.pos p) ≠ EmptyString) as Hpos.
  { intros p. unfold str, pretty, pretty_Z, pretty, pretty_positive.
    destruct (pretty_N_digits (N.pos p)) as (? & ? & ?). by split_and!. }
  destruct z as [|p|p]; simpl Z.abs.
  - by vm_compute.
  - destruct (Hpos p) as (? & ? & ?). split_and!; try done.
    by apply sub_non_digits_all_digits.
  - destruct (Hpos p) as (? & ? & ?). split_and!; try done.
    change (str (Z.neg p)) with ("-" +:+ str (Z.pos p)).
    rewrite sub_non_digits_app. change (sub_non_digits "-") with EmptyString.
    rewrite append_empty. by apply sub_non_digits_all_digits.
Qed.

Lemma append_empty_r s : s +:+ EmptyString = s.
Proof. induction s as [|a s IH]; [done|]. by rewrite append_String, IH. Qed.

Lemma append_not_empty s t : s ≠ EmptyString → s +:+ t ≠ EmptyString.
Proof. destruct s; [done|]. by rewrite append_String. Qed.

(** X9. The section number is read off the digits of the title alone.  A
    title that holds one number [z] among characters that are no digits
    gives [|z|]: a minus sign is dropped like any other character.  A title
    that holds two numbers gives the number written by their digits put
    together.  A title without any digit raises [ValueError]. *)
Theorem section_number_reads_digits int :
  decimal_int int →
  (∀ pre z post,
     no_digit pre = true → no_digit post = true →
     (String.length (str (Z.abs z)) ≤ 4300)%nat →
     get_section_number int (pre +:+ str z +:+ post) = Return (Z.abs z)) ∧
  (∀ pre a mid b post,
     0 ≤ a → 0 ≤ b →
     no_digit pre = true → no_digit mid = true → no_digit post = true →
     (String.length (str a) + String.length (str b) ≤ 4300)%nat →
     get_section_number int (pre +:+ str a +:+ mid +:+ str b +:+ post)
       = Return (a * 10 ^ Z.of_nat (String.length (str b)) + b)) ∧
  (∀ text, no_digit text = true → get_section_number int text = Raise ValueError).
Proof.
  intros [Hempty Hdigits]. unfold get_section_number. split_and!.
  - intros pre z post Hpre Hpost Hlen.
    destruct (str_digits z) as (Hsub & Hall & Hdec & Hne).
    rewrite !sub_non_digits_app, Hsub.
    rewrite (sub_non_digits_no_digit pre), (sub_non_digits_no_digit post)
      by done.
    rewrite append_empty, append_empty_r.
    rewrite Hdigits by done. by rewrite Hdec.
  - intros pre a mid b post Ha Hb Hpre Hmid Hpost Hlen.
    destruct (str_digits a) as (Hsa & Halla & Hdeca & Hnea).
    destruct (str_digits b) as (Hsb & Hallb & Hdecb & Hneb).
    rewrite Z.abs_eq in * by done.
    rewrite !sub_non_digits_app, Hsa, Hsb.
    rewrite (sub_non_digits_no_digit pre), (sub_non_digits_no_digit mid),
      (sub_non_digits_no_digit post) by done.
    rewrite !append_empty, append_empty_r.
    rewrite Hdigits.
    + by rewrite decimal_app, Hdeca, Hdecb.
    + by apply append_not_empty.
    + by rewrite all_digits_app, Halla, Hallb.
    + by rewrite length_append.
  - intros text Htext. by rewrite sub_non_digits_no_digit.
Qed.

Lemma digits_int_decimal : decimal_int digits_int.
Proof.
  split; [done|]. intros s Hs Hall _.
  destruct s; [done|]. unfold digits_int. by rewrite Hall.
Qed.

Lemma section_number_reads_digits_witness :
  get_section_number digits_int ("Juz " +:+ str (-12) +:+ ".")
    = Return (Z.abs (-12)) ∧
  get_section_number digits_int ("" +:+ str 1 +:+ " of " +:+ str 30 +:+ "")
    = Return (1 * 10 ^ Z.of_nat (String.length (str 30)) + 30) ∧
  get_section_number digits_int "Juz" = Raise ValueError.
Proof.
  destruct (section_number_reads_digits digits_int digits_int_decimal)
    as (Hone & Htwo & Hnone).
  split_and!.
  - apply Hone; [reflexivity|reflexivity|]. vm_compute. lia.
  - apply Htwo; try reflexivity; try lia. vm_compute. lia.
  - apply Hnone. reflexivity.
Defined.

(** *** The verse number in an element id *)

Lemma strip_prefix_append p s : strip_prefix p (p +:+ s) = Some s.
Proof.
  induction p as [|a p IH]; [done|].
  rewrite append_String. simpl. by rewrite decide_True.
Qed.

Lemma digit_run_append d r :
  all_digits d = true → digit_run r = (O, r) →
  digit_run (d +:+ r) = (String.length d, r).
Proof.
  intros Hd Hr. induction d as [|a d IH]; [done|].
  simpl in Hd. apply andb_true_iff in Hd as [Ha Hd].
  rewrite append_String. simpl. by rewrite Ha, IH.
Qed.

Lemma match_sura_aya_prefix d rest :
  d ≠ EmptyString → all_digits d = true →
  match_sura_aya ("sura_" +:+ d +:+ "_aya_" +:+ rest)
    = Some (5 + String.length d + 5)%nat.
Proof.
  intros Hne Hd. unfold match_sura_aya.
  rewrite strip_prefix_append.
  rewrite (digit_run_append d ("_aya_" +:+ rest)) by done.
  destruct d as [|a d]; [done|]. simpl String.length.
  by rewrite strip_prefix_append.
Qed.

Lemma sub_sura_aya_skip a b :
  sub_sura_aya_from (String.length a) (a +:+ b) = sub_sura_aya_from O b.
Proof.
  induction a as [|x a IH]; [done|].
  rewrite append_String. simpl. apply IH.
Qed.

Lemma append_assoc a b c : (a +:+ b) +:+ c = a +:+ b +:+ c.
Proof. induction a as [|x a IH]; [done|]. by rewrite !append_String, IH. Qed.

Lemma sub_sura_aya_match x pat rest k :
  match_sura_aya (String x (pat +:+ rest)) = Some (S k) →
  String.length pat = k →
  sub_sura_aya_from O (String x (pat +:+ rest)) = sub_sura_aya_from O rest.
Proof.
  intros Hm <-. cbn [sub_sura_aya_from]. rewrite Hm.
  apply sub_sura_aya_skip.
Qed.

Lemma sub_sura_aya_prefix d rest :
  d ≠ EmptyString → all_digits d = true →
  sub_sura_aya ("sura_" +:+ d +:+ "_aya_" +:+ rest) = sub_sura_aya rest.
Proof.
  intros Hne Hd. unfold sub_sura_aya.
  pose proof (match_sura_aya_prefix d rest Hne Hd) as Hm.
  assert ("sura_" +:+ d +:+ "_aya_" +:+ rest
            = String "s" (("ura_" +:+ d +:+ "_aya_") +:+ rest)) as Heq.
  { by rewrite !append_assoc. }
  rewrite Heq in *.
  apply (sub_sura_aya_match _ _ _ (4 + String.length d + 5)%nat Hm).
  rewrite !length_append. simpl. lia.
Qed.

Lemma digit_not_s a : is_digit a = true → "s"%char ≠ a.
Proof. intros Ha <-. by vm_compute in Ha. Qed.

Lemma sub_sura_aya_digits s :
  all_digits s = true → sub_sura_aya s = s.
Proof.
  unfold sub_sura_aya. induction s as [|a s IH]; [done|].
  simpl all_digits. intros [Ha Hs]%andb_true_iff.
  cbn [sub_sura_aya_from].
  assert (match_sura_aya (String a s) = None) as ->.
  { unfold match_sura_aya. simpl.
    by rewrite decide_False by (by apply digit_not_s). }
  by rewrite IH.
Qed.

(** X10. The verse number is read off the element id by dropping the
    prefix [sura_<digits>_aya_]: for an id made of that prefix and a rest,
    [int] is applied to the rest with its own such prefixes dropped.  For
    the id of verse [v] of chapter [c] the result is [v]; an id that is
    just a number gives that number; an id that ends with the prefix raises
    [ValueError]. *)
Theorem verse_number_of_id int :
  decimal_int int →
  (∀ d rest,
     d ≠ EmptyString → all_digits d = true →
     get_verse_number int ("sura_" +:+ d +:+ "_aya_" +:+ rest)
       = int (sub_sura_aya rest)) ∧
  (∀ c v,
     0 ≤ c → 0 ≤ v → (String.length (str v) ≤ 4300)%nat →
     get_verse_number int ("sura_" +:+ str c +:+ "_aya_" +:+ str v)
       = Return v) ∧
  (∀ v,
     0 ≤ v → (String.length (str v) ≤ 4300)%nat →
     get_verse_number int (str v) = Return v) ∧
  (∀ c, 0 ≤ c →
     get_verse_number int ("sura_" +:+ str c +:+ "_aya_" +:+ EmptyString)
       = Raise ValueError).
Proof.
  intros [Hempty Hdigits]. unfold get_verse_number. split_and!.
  - intros d rest Hne Hd. by rewrite sub_sura_aya_prefix.
  - intros c v Hc Hv Hlen.
    destruct (str_digits c) as (_ & Hallc & _ & Hnec).
    destruct (str_digits v) as (_ & Hallv & Hdecv & Hnev).
    rewrite Z.abs_eq in * by done.
    rewrite sub_sura_aya_prefix, sub_sura_aya_digits by done.
    rewrite Hdigits by done. by rewrite Hdecv.
  - intros v Hv Hlen.
    destruct (str_digits v) as (_ & Hallv & Hdecv & Hnev).
    rewrite Z.abs_eq in * by done.
    rewrite sub_sura_aya_digits by done.
    rewrite Hdigits by done. by rewrite Hdecv.
  - intros c Hc.
    destruct (str_digits c) as (_ & Hallc & _ & Hnec).
    rewrite Z.abs_eq in * by done.
    by rewrite sub_sura_aya_prefix.
Qed.

Lemma verse_number_of_id_witness :
  get_verse_number digits_int ("sura_" +:+ str 2 +:+ "_aya_" +:+ str 255)
    = Return 255 ∧
  get_verse_number digits_int (str 7) = Return 7 ∧
  get_verse_number digits_int ("sura_" +:+ str 2 +:+ "_aya_" +:+ EmptyString)
    = Raise ValueError.
Proof.
  destruct (verse_number_of_id digits_int digits_int_decimal)
    as (_ & Hid & Hbare & Hnone).
  split_and!.
  - apply Hid; [lia|lia|]. vm_compute. lia.
  - apply Hbare; [lia|]. vm_compute. lia.
  - apply Hnone. lia.
Defined.

(** ** The loop with clicks, waits and log lines *)

Lemma io_bind_return_inv {A B} (m : io A) (k : A → io B) w b w' :
  io_bind m k w = (Return b, w') →
  ∃ a w1, m w = (Return a, w1) ∧ k a w1 = (Return b, w').
Proof.
  unfold io_bind. destruct (m w) as [[a|e] w1]; [eauto | discriminate].
Qed.

(** *** The dictionaries do not see the clicks, the conversions and the log *)

Lemma tracks_lift {A} (m : py A) : tracks (lift m) m.
Proof. intros w. unfold lift. by destruct (m (dicts w)). Qed.

Lemma tracks_bind {A B} (m_io : io A) (m : py A) (k_io : A → io B)
    (k : A → py B) :
  tracks m_io m → (∀ a, tracks (k_io a) (k a)) →
  tracks (io_bind m_io k_io) (py_bind m k).
Proof.
  intros Hm Hk w. unfold io_bind, py_bind.
  destruct (Hm w) as [Hr Hd].
  destruct (m_io w) as [r w1], (m (dicts w)) as [r' st1]. simpl in *.
  subst. destruct r' as [a|e]; [apply Hk|done].
Qed.

Lemma tracks_aside_l {B} (m_io : io unit) (k_io : io B) (k : py B) :
  aside m_io → tracks k_io k → tracks (io_bind m_io (λ _, k_io)) k.
Proof.
  intros Hm Hk w. unfold io_bind. destruct (Hm w) as [Hr Hd].
  destruct (m_io w) as [r w1]. simpl in *. subst r. rewrite <-Hd. apply Hk.
Qed.

Lemma tracks_aside_r (m_io n_io : io unit) (m : py unit) :
  tracks m_io m → aside n_io → tracks (io_bind m_io (λ _, n_io)) m.
Proof.
  intros Hm Hn w. unfold io_bind. destruct (Hm w) as [Hr Hd].
  destruct (m_io w) as [r w1]. simpl in *. destruct r as [[]|e]; [|done].
  destruct (Hn w1) as [Hr' Hd']. destruct (n_io w1) as [r' w2]. simpl in *.
  subst r'. rewrite Hd', Hd, Hr. by destruct (m (dicts w)) as [[[]|?] ?].
Qed.

Lemma tracks_when b (m_io : io unit) (m : py unit) :
  tracks m_io m → tracks (when_io b m_io) (when b m).
Proof. by destruct b. Qed.

Lemma aside_ret : aside (io_ret tt).
Proof. by intros w. Qed.

Lemma aside_print line : aside (print line).
Proof. by intros w. Qed.

Lemma aside_bind (m n : io unit) : aside m → aside n → aside (io_bind m (λ _, n)).
Proof.
  intros Hm Hn w. unfold io_bind. destruct (Hm w) as [Hr Hd].
  destruct (m w) as [r w1]. simpl in *. subst r.
  destruct (Hn w1) as [Hr' Hd']. split; [done|]. by rewrite Hd'.
Qed.

Lemma aside_log a key value wrapper : aside (log a key value wrapper).
Proof.
  unfold log, when_io. destruct (args_log a); [|apply aside_ret].
  destruct wrapper;
    repeat first [apply aside_bind | apply aside_print | apply aside_ret].
Qed.

Lemma tracks_click (t : fetch click) {B} (k_io : io B) (k : py B) :
  tracks k_io k →
  tracks (c <- lift (fetched t) ;; click_element c ;; k_io)%io
    (fetched (as_fetch (clicked t)) ;; k).
Proof.
  intros Hk [st out].
  destruct t as [[[[]|e1] [[]|e2]]|e0]; try done;
    apply (Hk (World st out)).
Qed.

Lemma tracks_result {A B} (r : result A) (k_io : A → io B) (k : A → py B) :
  (∀ a, tracks (k_io a) (k a)) →
  tracks (io_bind (of_result r) k_io) (py_bind (fetched (as_fetch r)) k).
Proof. intros Hk w. destruct r as [a|e]; [apply Hk|done]. Qed.

Lemma tracks_got {A B} (x : A) (k_io : A → io B) (k : py B) :
  tracks (k_io x) k → tracks (io_bind (lift (fetched (Got x))) k_io) k.
Proof.
  intros Hk w. apply (Hk {| dicts := dicts w; stdout := stdout w |}).
Qed.

(** A value getter: the attribute is read and converted in the loop, and
    reaches the aggregation as a value or as what either step raised. *)
Lemma tracks_read {A B C} (f : A → result B) (x : fetch A)
    (k_io : B → io C) (k : B → py C) :
  (∀ b, tracks (k_io b) (k b)) →
  tracks (a <- lift (fetched x) ;; b <- of_result (f a) ;; k_io b)%io
    (b <- fetched (read_with f x) ;; k b).
Proof.
  intros Hk. destruct x as [a|e]; [|by intros w].
  apply tracks_got. simpl. by apply tracks_result.
Qed.

Lemma tracks_read_total {A B C} (g : A → B) (x : fetch A)
    (k_io : A → io C) (k : B → py C) :
  (∀ a, tracks (k_io a) (k (g a))) →
  tracks (a <- lift (fetched x) ;; k_io a)%io
    (b <- fetched (read_with (λ a, Return (g a)) x) ;; k b).
Proof.
  intros Hk. destruct x as [a|e]; [|by intros w].
  apply tracks_got. apply Hk.
Qed.

Lemma tracks_for_each {A B} (f : A → io unit) (g : B → py unit) (h : A → B) l :
  (∀ x, tracks (f x) (g (h x))) →
  tracks (for_each_io f l) (for_each g (h <$> l)).
Proof.
  intros Hf. induction l as [|x l IH]; [done|].
  simpl. apply tracks_bind; [apply Hf | by intros _].
Qed.

Lemma tracks_verse_iteration int a page_id v :
  tracks (verse_iteration_io int a page_id v)
    (verse_iteration page_id (verse_fetch int v)).
Proof.
  unfold verse_iteration_io, verse_iteration, verse_fetch. simpl.
  apply tracks_click.
  apply tracks_result. intros _.
  apply tracks_bind; [apply tracks_lift|intros _].
  do 3 (apply tracks_read; intros ?).
  do 2 (apply tracks_bind; [apply tracks_lift|intros ?]).
  apply tracks_bind; [apply tracks_lift|intros _].
  apply tracks_bind; [apply tracks_lift|intros ?].
  apply tracks_bind; [apply tracks_lift|intros _].
  apply tracks_bind; [apply tracks_lift|intros ?].
  apply tracks_bind; [|intros _].
  { apply tracks_when.
    apply tracks_bind; [apply tracks_lift|intros _].
    apply tracks_bind; [apply tracks_lift|intros ?].
    apply tracks_read_total. intros title.
    apply tracks_aside_r; [apply tracks_lift | apply aside_log]. }
  repeat first
    [ apply tracks_lift
    | apply tracks_aside_r; [apply tracks_lift | apply aside_log]
    | apply tracks_when
    | apply tracks_bind; [|intros ?] ].
Qed.

Lemma tracks_page_body int a n (pw : result unit)
    (pvs : fetch (list verse_dom)) :
  tracks
    (of_result pw ;;
     verse_elements <- lift (fetched pvs) ;;
     for_each_io (verse_iteration_io int a n) verse_elements ;;
     lift (page_end n))%io
    (for_each (verse_iteration n)
       match pw, pvs with
       | Raise e, _ => [failing e]
       | Return _, Fault e => [failing e]
       | Return _, Got vs => verse_fetch int <$> vs
       end ;;
     page_end n).
Proof.
  destruct pw as [[]|e]; [|by intros w].
  destruct pvs as [vs|e]; [|by intros w].
  apply (tracks_aside_l (of_result (Return tt))); [by intros w|].
  apply tracks_got.
  apply tracks_bind; [|intros _; apply tracks_lift].
  apply tracks_for_each, tracks_verse_iteration.
Qed.

Lemma tracks_page_opened int a n (pw : result unit)
    (pvs : fetch (list verse_dom)) :
  tracks
    (lift (modify (set_pages (insert n (new_page n n)))) ;;
     log a "Page" (str n) (Some "=") ;;
     of_result pw ;;
     verse_elements <- lift (fetched pvs) ;;
     for_each_io (verse_iteration_io int a n) verse_elements ;;
     lift (page_end n))%io
    (modify (set_pages (insert n (new_page n n))) ;;
     for_each (verse_iteration n)
       match pw, pvs with
       | Raise e, _ => [failing e]
       | Return _, Fault e => [failing e]
       | Return _, Got vs => verse_fetch int <$> vs
       end ;;
     page_end n).
Proof.
  apply tracks_bind; [apply tracks_lift|intros _].
  apply tracks_aside_l; [apply aside_log|apply tracks_page_body].
Qed.

Lemma page_iteration_fetch int p :
  page_iteration (page_fetch int p) =
    (fetched (as_fetch (clicked (page_target p))) ;;
     n <- fetched (read_with (get_page_number int) (page_badge p)) ;;
     modify (set_pages (insert n (new_page n n))) ;;
     for_each (verse_iteration n)
       match page_wait p, page_verses p with
       | Raise e, _ => [failing e]
       | Return _, Fault e => [failing e]
       | Return _, Got vs => verse_fetch int <$> vs
       end ;;
     page_end n).
Proof.
  unfold page_fetch.
  destruct (clicked (page_target p)) as [[]|e]; [|done].
  by destruct (read_with (get_page_number int) (page_badge p)).
Qed.

Lemma tracks_page_iteration int a p :
  tracks (page_iteration_io int a p) (page_iteration (page_fetch int p)).
Proof.
  rewrite page_iteration_fetch. unfold page_iteration_io.
  apply tracks_click. apply tracks_read. intros n.
  apply tracks_page_opened.
Qed.

Lemma tracks_page_loop int a ps :
  tracks
    (lift (modify (set_current_chapter 0)) ;;
     lift (modify (set_current_section 0)) ;;
     for_each_io (page_iteration_io int a) ps)%io
    (scrapping (page_fetch int <$> ps)).
Proof.
  unfold scrapping.
  apply tracks_bind; [apply tracks_lift|intros _].
  apply tracks_bind; [apply tracks_lift|intros _].
  apply tracks_for_each, tracks_page_iteration.
Qed.

Lemma tracks_scrapping int a b :
  tracks (scrapping_io int a b) (scrapping (browser_fetch int b)).
Proof.
  intros [st out]. destruct b as [t ps].
  destruct t as [[[[]|e1] [[]|e2]]|e0], ps as [ps|e3]; try done;
    exact (tracks_page_loop int a ps (World st out)).
Qed.

(** X11. The whole loop, with its clicks, waits, value getters and log
    calls, each where the source has it, does to the dictionaries exactly
    what the aggregation does on what the calls deliver or raise, and ends
    the same way: for every browser, every [int], every setting of the log
    options and every starting state, result and dictionaries are those of
    the loop without clicks, conversions and log lines, however the run
    ends and wherever a call raises. *)
Theorem loop_refines_aggregation int a b w :
  fst (scrapping_io int a b w)
    = fst (scrapping (browser_fetch int b) (dicts w)) ∧
  dicts (snd (scrapping_io int a b w))
    = snd (scrapping (browser_fetch int b) (dicts w)).
Proof.
  destruct w as [st out], b as [t ps].
  destruct t as [[[[]|e1] [[]|e2]]|e0], ps as [ps|e3]; try done;
    exact (tracks_page_loop int a ps (World st out)).
Qed.

(** *** The log *)

Lemma silent_ret {A} (a : A) : silent (io_ret a).
Proof. by intros w. Qed.

Lemma silent_lift {A} (m : py A) : silent (lift m).
Proof. intros w. unfold lift. by destruct (m (dicts w)). Qed.

Lemma silent_of_result {A} (r : result A) : silent (of_result r).
Proof. by intros w. Qed.

Lemma silent_bind {A B} (m : io A) (k : A → io B) :
  silent m → (∀ a, silent (k a)) → silent (io_bind m k).
Proof.
  intros Hm Hk w. unfold io_bind. specialize (Hm w).
  destruct (m w) as [[a|e] w1]; simpl in *; [|done].
  by rewrite Hk.
Qed.

Lemma silent_when b (m : io unit) : silent m → silent (when_io b m).
Proof. destruct b; [done|]. intros _. apply silent_ret. Qed.

Lemma silent_for_each {A} (f : A → io unit) l :
  (∀ x, silent (f x)) → silent (for_each_io f l).
Proof.
  intros Hf. induction l as [|x l IH]; [apply silent_ret|].
  simpl. apply silent_bind; [apply Hf | by intros _].
Qed.

Lemma silent_click c : silent (click_element c).
Proof.
  unfold click_element. destruct (native_click c);
    [apply silent_ret | apply silent_of_result].
Qed.

Lemma silent_log a key value wrapper :
  args_log a = false → silent (log a key value wrapper).
Proof. intros Ha. unfold log. rewrite Ha. apply silent_ret. Qed.

Ltac silent_steps :=
  repeat first
    [ apply silent_lift
    | apply silent_of_result
    | apply silent_click
    | apply silent_ret
    | apply silent_log; assumption
    | apply silent_when
    | apply silent_bind; [|intros ?] ].

Lemma silent_verse_iteration int a page_id v :
  args_log a = false → silent (verse_iteration_io int a page_id v).
Proof. intros Ha. unfold verse_iteration_io. silent_steps. Qed.

Lemma silent_page_iteration int a p :
  args_log a = false → silent (page_iteration_io int a p).
Proof.
  intros Ha. unfold page_iteration_io. silent_steps.
  apply silent_for_each. intros v. by apply silent_verse_iteration.
Qed.

(** X12. Without [--log] the loop prints nothing, whatever the browser
    does and however the loop ends. *)
Theorem log_off_prints_nothing int a b w :
  args_log a = false → stdout (snd (scrapping_io int a b w)) = stdout w.
Proof.
  intros Ha. revert w. change (silent (scrapping_io int a b)).
  unfold scrapping_io. silent_steps.
  apply silent_for_each. intros p. by apply silent_page_iteration.
Qed.

Lemma log_off_prints_nothing_witness :
  stdout (snd (scrapping_io digits_int
                 {| args_log := false; args_log_width := 20 |}
                 two_verse_browser fresh_world)) = [].
Proof.
  exact (log_off_prints_nothing digits_int
           {| args_log := false; args_log_width := 20 |}
           two_verse_browser fresh_world eq_refl).
Defined.

(** *** The ['Verse'] lines *)

Lemma verse_lines_snoc out line :
  verse_lines (out ++ [line])
    = verse_lines out ++ (if is_verse_line line then [line] else []).
Proof.
  unfold verse_lines. rewrite filter_app. f_equal.
  destruct (is_verse_line line) eqn:Hl.
  - by rewrite filter_cons_True.
  - rewrite filter_cons_False; [done|]. by rewrite Hl.
Qed.

Lemma quiet_ret {A} (a : A) : quiet (io_ret a).
Proof. by intros w. Qed.

Lemma quiet_lift {A} (m : py A) : quiet (lift m).
Proof. intros w. unfold lift. by destruct (m (dicts w)). Qed.

Lemma quiet_of_result {A} (r : result A) : quiet (of_result r).
Proof. by intros w. Qed.

Lemma quiet_click c : quiet (click_element c).
Proof.
  unfold click_element. destruct (native_click c);
    [apply quiet_ret | apply quiet_of_result].
Qed.

Lemma quiet_bind {A B} (m : io A) (k : A → io B) :
  quiet m → (∀ a, quiet (k a)) → quiet (io_bind m k).
Proof.
  intros Hm Hk w. unfold io_bind. specialize (Hm w).
  destruct (m w) as [[a|e] w1]; simpl in *; [|done].
  by rewrite Hk.
Qed.

Lemma quiet_when b (m : io unit) : quiet m → quiet (when_io b m).
Proof. destruct b; [done|]. intros _. apply quiet_ret. Qed.

Lemma quiet_print line : is_verse_line line = false → quiet (print line).
Proof.
  intros Hl w. unfold print. simpl.
  by rewrite verse_lines_snoc, Hl, app_nil_r.
Qed.

Lemma str_mul_not_verse_line c n :
  c ≠ "V"%char → is_verse_line (str_mul (String c EmptyString) n) = false.
Proof.
  intros Hc. unfold str_mul. destruct (Z.to_nat n) as [|k]; [done|].
  simpl. destruct c as [[] [] [] [] [] [] [] []]; try done.
Qed.

(** A block whose key does not start with a V, between wrapper lines. *)
Lemma quiet_log_block a c key value wr :
  c ≠ "V"%char → wr ≠ "V"%char →
  quiet (log a (String c key) value (Some (String wr EmptyString))).
Proof.
  intros Hc Hwr. unfold log. apply quiet_when.
  repeat first [apply quiet_bind; [|intros ?] | apply quiet_print].
  - by apply str_mul_not_verse_line.
  - rewrite ?append_String. simpl.
    destruct c as [[] [] [] [] [] [] [] []]; try done.
  - by apply str_mul_not_verse_line.
Qed.

Lemma logs_ret : logs_on_return (io_ret tt) [].
Proof. intros w w' [= <-]. by rewrite app_nil_r. Qed.

Lemma logs_bind_quiet {A} (m : io A) (k : A → io unit) lines :
  quiet m → (∀ a, logs_on_return (k a) lines) →
  logs_on_return (io_bind m k) lines.
Proof.
  intros Hm Hk w w' (a & w1 & Hmw & Hkw)%io_bind_return_inv.
  rewrite (Hk a w1 w' Hkw). specialize (Hm w). rewrite Hmw in Hm.
  simpl in Hm. by rewrite Hm.
Qed.

Lemma logs_bind (m n : io unit) lines1 lines2 :
  logs_on_return m lines1 → logs_on_return n lines2 →
  logs_on_return (io_bind m (λ _, n)) (lines1 ++ lines2).
Proof.
  intros Hm Hn w w' ([] & w1 & Hmw & Hnw)%io_bind_return_inv.
  rewrite (Hn w1 w' Hnw), (Hm w w1 Hmw). by rewrite app_assoc.
Qed.

Lemma logs_verse a id :
  args_log a = true →
  logs_on_return (log a "Verse" id None) ["Verse: " +:+ id].
Proof.
  intros Ha w w'. unfold log. rewrite Ha. simpl.
  intros [= <-]. simpl. by rewrite verse_lines_snoc.
Qed.

Lemma logs_never (m : io unit) lines :
  (∀ w, fst (m w) ≠ Return tt) → logs_on_return m lines.
Proof. intros Hm w w' Hw. destruct (Hm w). by rewrite Hw. Qed.

Lemma logs_bind_fetch {A} (x : fetch A) (k : A → io unit) lines :
  (∀ a, x = Got a → logs_on_return (k a) lines) →
  logs_on_return (io_bind (lift (fetched x)) k) lines.
Proof.
  intros Hk. destruct x as [a|e]; [|apply logs_never; by intros w].
  intros w w' Hw.
  apply (Hk a eq_refl {| dicts := dicts w; stdout := stdout w |} w' Hw).
Qed.

Lemma logs_bind_result {A} (r : result A) (k : A → io unit) lines :
  (∀ a, r = Return a → logs_on_return (k a) lines) →
  logs_on_return (io_bind (of_result r) k) lines.
Proof.
  intros Hk. destruct r as [a|e]; [|apply logs_never; by intros w].
  intros w w' Hw. apply (Hk a eq_refl w w' Hw).
Qed.

Lemma logs_bind_click (t : fetch click) (k : io unit) lines :
  (clicked t = Return tt → logs_on_return k lines) →
  logs_on_return (c <- lift (fetched t) ;; click_element c ;; k)%io lines.
Proof.
  intros Hk.
  destruct t as [[[[]|e1] [[]|e2]]|e0];
    try (apply logs_never; by intros w);
    intros w w' Hw;
    apply (Hk eq_refl {| dicts := dicts w; stdout := stdout w |} w' Hw).
Qed.

Ltac quiet_steps :=
  repeat first
    [ apply quiet_lift
    | apply quiet_log_block; done
    | apply quiet_when
    | apply quiet_bind; [|intros ?] ].

Lemma logs_verse_iteration int a page_id v :
  args_log a = true →
  logs_on_return (verse_iteration_io int a page_id v)
    (verse_line <$> page_entries page_id [verse_fetch int v]).
Proof.
  intros Ha. unfold verse_iteration_io.
  apply logs_bind_click. intros Hclick.
  apply logs_bind_result. intros [] Hwait.
  apply logs_bind_fetch. intros [] Hactive.
  apply logs_bind_fetch. intros id Hid.
  apply logs_bind_result. intros verse Hverse.
  apply logs_bind_fetch. intros chapter_text Hchapter_text.
  apply logs_bind_result. intros chapter Hchapter.
  apply logs_bind_fetch. intros title Htitle.
  apply logs_bind_result. intros section Hsection.
  apply logs_bind_fetch. intros text Htext.
  apply logs_bind_fetch. intros name Hname.
  apply logs_bind_quiet; [apply quiet_lift|intros _].
  apply logs_bind_fetch. intros unicodes Hunicodes.
  do 12 (apply logs_bind_quiet; [by quiet_steps|intros ?]).
  assert (page_entries page_id [verse_fetch int v]
            = [(page_id,
                {| verse_number := verse;
                   chapter_number := chapter;
                   section_number := section;
                   explanation_text := text;
                   explanation_name := name;
                   arabic_unicodes := unicodes;
                   chapter_name := default "" (got (chapter_name_text v));
                   chapter_arabic_unicode :=
                     default ""
                       (got (read_with
                               (λ title, Return
                                           (get_chapter_arabic_unicode title))
                               (chapter_title_text v))) |})]) as ->.
  { unfold page_entries, reading, verse_fetch. simpl.
    rewrite Hclick, Hwait, Hactive, Hid, Hchapter_text, Htitle, Htext,
      Hname, Hunicodes. simpl.
    by rewrite Hverse, Hchapter, Hsection. }
  apply (logs_verse a _ Ha).
Qed.

Lemma page_entries_split page_id x items :
  page_entries page_id (x :: items)
    = page_entries page_id [x] ++ page_entries page_id items.
Proof. unfold page_entries. simpl. by destruct (reading x). Qed.

Lemma logs_verse_loop int a page_id vs :
  args_log a = true →
  logs_on_return (for_each_io (verse_iteration_io int a page_id) vs)
    (verse_line <$> page_entries page_id (verse_fetch int <$> vs)).
Proof.
  intros Ha. induction vs as [|v vs IH]; [apply logs_ret|].
  rewrite fmap_cons, page_entries_split, fmap_app.
  simpl for_each_io. apply logs_bind; [by apply logs_verse_iteration|done].
Qed.

Lemma logs_page_iteration int a p :
  args_log a = true →
  logs_on_return (page_iteration_io int a p)
    (verse_line <$> observed [page_fetch int p]).
Proof.
  intros Ha. unfold page_iteration_io.
  apply logs_bind_click. intros Hclick.
  apply logs_bind_fetch. intros badge Hbadge.
  apply logs_bind_result. intros n Hn.
  apply logs_bind_quiet; [apply quiet_lift|intros _].
  apply logs_bind_quiet; [by apply quiet_log_block|intros _].
  apply logs_bind_result. intros [] Hwait.
  apply logs_bind_fetch. intros vs Hvs.
  assert (observed [page_fetch int p]
            = page_entries n (verse_fetch int <$> vs)) as ->.
  { unfold observed, page_fetch. rewrite Hclick, Hbadge. simpl.
    rewrite Hn. simpl. rewrite Hwait, Hvs. by rewrite app_nil_r. }
  intros w w' Hw.
  apply io_bind_return_inv in Hw as ([] & w1 & Hloop & Hend).
  rewrite <- (logs_verse_loop int a n vs Ha _ _ Hloop).
  pose proof (quiet_lift (page_end n) w1) as Hq.
  by rewrite Hend in Hq.
Qed.

Lemma observed_split x page_list :
  observed (x :: page_list) = observed [x] ++ observed page_list.
Proof. unfold observed. destruct x; simpl; [by rewrite app_nil_r|done]. Qed.

Lemma logs_page_loop int a ps :
  args_log a = true →
  logs_on_return (for_each_io (page_iteration_io int a) ps)
    (verse_line <$> observed (page_fetch int <$> ps)).
Proof.
  intros Ha. induction ps as [|p ps IH]; [apply logs_ret|].
  rewrite fmap_cons, observed_split, fmap_app.
  simpl for_each_io. apply logs_bind; [by apply logs_page_iteration|done].
Qed.

(** X13. With [--log], a run of the loop that comes to its end has printed
    one ['Verse: <id>'] line for every verse that reached the dictionaries,
    in reading order, and no other line that starts with a V: the page,
    chapter and section lines and their wrappers lie between them. *)
Theorem verse_lines_of_log int a b w w' :
  args_log a = true →
  scrapping_io int a b w = (Return tt, w') →
  verse_lines (stdout w')
    = verse_lines (stdout w)
        ++ (verse_line <$> observed (browser_fetch int b)).
Proof.
  intros Ha. revert w w'.
  change (logs_on_return (scrapping_io int a b)
            (verse_line <$> observed (browser_fetch int b))).
  unfold scrapping_io.
  do 2 (apply logs_bind_quiet; [apply quiet_lift|intros _]).
  apply logs_bind_click. intros Hclick.
  apply logs_bind_fetch. intros ps Hps.
  unfold browser_fetch. rewrite Hclick, Hps.
  by apply logs_page_loop.
Qed.

Lemma verse_lines_of_log_witness :
  verse_lines
    (stdout (snd (scrapping_io digits_int
                    {| args_log := true; args_log_width := 3 |}
                    two_verse_browser fresh_world)))
    = verse_lines (stdout fresh_world)
        ++ (verse_line <$> observed (browser_fetch digits_int two_verse_browser)).
Proof.
  apply (verse_lines_of_log digits_int
           {| args_log := true; args_log_width := 3 |});
    [reflexivity | vm_compute; reflexivity].
Defined.

(** *** Exceptions of a native click *)

Lemma clicked_faults t e :
  e ∈ fetch_faults (as_fetch (clicked t)) → e ∈ click_faults t.
Proof.
  destruct t as [[[[]|e1] [[]|e2]]|e0]; simpl; try done.
  by intros ?%elem_of_nil.
Qed.

Lemma result_fetch_faults (r : result unit) :
  fetch_faults (as_fetch r) = result_faults r.
Proof. by destruct r. Qed.

Lemma read_total_faults {A B} (g : A → B) (x : fetch A) :
  fetch_faults (read_with (λ a, Return (g a)) x) = fetch_faults x.
Proof. by destruct x. Qed.

Lemma verse_fetch_faults int v e :
  e ∈ element_faults (verse_fetch int v) → e ∈ verse_dom_faults int v.
Proof.
  unfold element_faults, verse_dom_faults, verse_fetch. simpl.
  rewrite (result_fetch_faults (verse_wait v)), read_total_faults,
    !elem_of_app.
  intros [Hc|H]; [|by right]. left. by apply clicked_faults.
Qed.

Lemma verse_faults_fetch int vs e :
  e ∈ verse_faults (verse_fetch int <$> vs) →
  e ∈ vs ≫= verse_dom_faults int.
Proof.
  induction vs as [|v vs IH]; [done|].
  change ((v :: vs) ≫= verse_dom_faults int)
    with (verse_dom_faults int v ++ (vs ≫= verse_dom_faults int)).
  change (verse_faults (verse_fetch int <$> v :: vs))
    with (element_faults (verse_fetch int v)
            ++ verse_faults (verse_fetch int <$> vs)).
  rewrite !elem_of_app.
  intros [He|He]; [left; by apply verse_fetch_faults|right; by apply IH].
Qed.

Lemma failing_faults e e' : e' ∈ verse_faults [failing e] → e' = e.
Proof.
  unfold verse_faults, element_faults. simpl.
  rewrite !elem_of_cons, elem_of_nil. tauto.
Qed.

Lemma page_fetch_faults int p e :
  e ∈ faults [page_fetch int p] → e ∈ page_dom_faults int p.
Proof.
  unfold faults, page_fetch, page_dom_faults. simpl. rewrite app_nil_r.
  rewrite !elem_of_app.
  destruct (clicked (page_target p)) as [[]|e1] eqn:Hc.
  2:{ intros He. left. apply clicked_faults. by rewrite Hc. }
  destruct (read_with (get_page_number int) (page_badge p)) as [n|e2].
  2:{ intros He. right. by left. }
  simpl. destruct (page_wait p) as [[]|e3].
  2:{ intros ->%failing_faults. right. right. left. by left. }
  destruct (page_verses p) as [vs|e4].
  2:{ intros ->%failing_faults. right. right. right. by left. }
  intros He. right. right. right. by apply verse_faults_fetch.
Qed.

Lemma page_loop_faults int ps e :
  e ∈ faults (page_fetch int <$> ps) → e ∈ ps ≫= page_dom_faults int.
Proof.
  induction ps as [|p ps IH]; [done|].
  change ((p :: ps) ≫= page_dom_faults int)
    with (page_dom_faults int p ++ (ps ≫= page_dom_faults int)).
  rewrite fmap_cons, faults_cons, !elem_of_app.
  intros [He|He]; [left; by apply page_fetch_faults|right; by apply IH].
Qed.

Lemma browser_fetch_faults int b e :
  e ∈ faults (browser_fetch int b) → e ∈ browser_faults int b.
Proof.
  unfold browser_fetch, browser_faults. rewrite elem_of_app.
  destruct (clicked (tafsir_tab b)) as [[]|e1] eqn:Hc.
  2:{ intros He. left. apply clicked_faults. by rewrite Hc. }
  destruct (page_list_elements b) as [ps|e2].
  2:{ intros He. right. exact He. }
  intros He. right. by apply page_loop_faults.
Qed.

(** X14. An exception raised by a native click never leaves the loop:
    started on the empty dictionaries, the loop ends with a return, with
    [KeyError 0], or with an exception raised by a search for an element,
    by a fallback click, by a wait or by a read of a value getter, its
    conversion by [int] included.  What [element.click()] raises,
    [KeyboardInterrupt] included, is caught by the bare [except] of
    [click_element]. *)
Theorem native_click_exception_caught int a b w e :
  dicts w = module_state →
  fst (scrapping_io int a b w) = Raise e →
  e = KeyError 0 ∨ e ∈ browser_faults int b.
Proof.
  intros Hw Hrun.
  destruct (tracks_scrapping int a b w) as [Hfst _].
  rewrite Hrun, Hw, scrapping_loop in Hfst.
  destruct (for_each page_iteration (browser_fetch int b) module_state)
    as [r st'] eqn:Hloop.
  simpl in Hfst. subst r.
  destruct (page_loop_outcome _ _ _ _
              (or_introl (untouched_first_page 0 : untouched module_state))
              Hloop)
    as [?|[[= ->]|(e' & [= ->] & He)]]; [done|by left|].
  right. by apply browser_fetch_faults.
Qed.

Lemma native_click_exception_caught_witness :
  WebDriverException = KeyError 0 ∨
  WebDriverException ∈ browser_faults digits_int stalled_browser.
Proof.
  apply (native_click_exception_caught digits_int
           {| args_log := true; args_log_width := 3 |}
           stalled_browser fresh_world);
    [reflexivity | vm_compute; reflexivity].
Defined.

(** ** Cross references *)

Lemma referenced_start : referenced [] [] module_state.
Proof. constructor; simpl; intros k r; by rewrite lookup_empty. Qed.

Lemma referenced_ingest seen visited st page_id o st' :
  referenced seen visited st →
  ingest page_id o st = (Return tt, st') →
  referenced (seen ++ [(page_id, o)]) visited st'.
Proof.
  intros [Hcs Hcp Hsc Hsp]
    (c0 & p0 & s0 & Hc0 & Hp0 & Hs0 & ->)%ingest_return_inv.
  assert (∀ e, e ∈ seen → e ∈ seen ++ [(page_id, o)]) as Hold_in.
  { intros e He. apply elem_of_app. by left. }
  assert ((page_id, o) ∈ seen ++ [(page_id, o)]) as Hnew_in.
  { apply elem_of_app. right. by apply list_elem_of_singleton. }
  constructor.
  - intros k ch. rewrite linked_chapters, lookup_insert. case_decide as Hk.
    + intros [= <-]. simpl. intros s.
      rewrite elem_of_union, elem_of_singleton. intros [Hs| ->].
      * destruct (recorded_chapters_lookup _ _ _ _ _ Hc0) as [[_ ->]|Hold];
          [by apply elem_of_empty in Hs|].
        destruct (Hcs _ _ Hold s Hs) as (e & He & Hec & Hes).
        exists e. split_and!; [by apply Hold_in|congruence|done].
      * exists (page_id, o). by split_and!.
    + intros Hlk.
      apply (recorded_chapters_lookup page_id o st) in Hlk as [[? _]|Hold];
        [congruence|].
      intros s Hs. destruct (Hcs _ _ Hold s Hs) as (e & He & ?).
      exists e. split; [by apply Hold_in|done].
  - intros k ch. rewrite linked_chapters, lookup_insert. case_decide as Hk.
    + intros [= <-]. simpl. intros p Hp.
      destruct (recorded_chapters_lookup _ _ _ _ _ Hc0) as [[_ ->]|Hold];
        [by apply elem_of_nil in Hp|].
      by apply (Hcp _ _ Hold).
    + intros Hlk.
      apply (recorded_chapters_lookup page_id o st) in Hlk as [[? _]|Hold];
        [congruence|].
      by apply (Hcp _ _ Hold).
  - intros k sec. rewrite linked_sections, lookup_insert. case_decide as Hk.
    + intros [= <-]. simpl. intros c.
      rewrite elem_of_union, elem_of_singleton. intros [Hc| ->].
      * destruct (recorded_sections_lookup _ _ _ _ _ Hs0) as [[_ ->]|Hold];
          [by apply elem_of_empty in Hc|].
        destruct (Hsc _ _ Hold c Hc) as (e & He & Hec & Hes).
        exists e. split_and!; [by apply Hold_in|done|congruence].
      * exists (page_id, o). by split_and!.
    + intros Hlk.
      apply (recorded_sections_lookup page_id o st) in Hlk as [[? _]|Hold];
        [congruence|].
      intros c Hc. destruct (Hsc _ _ Hold c Hc) as (e & He & ?).
      exists e. split; [by apply Hold_in|done].
  - intros k sec. rewrite linked_sections, lookup_insert. case_decide as Hk.
    + intros [= <-]. simpl. intros p Hp.
      destruct (recorded_sections_lookup _ _ _ _ _ Hs0) as [[_ ->]|Hold];
        [by apply elem_of_nil in Hp|].
      by apply (Hsp _ _ Hold).
    + intros Hlk.
      apply (recorded_sections_lookup page_id o st) in Hlk as [[? _]|Hold];
        [congruence|].
      by apply (Hsp _ _ Hold).
Qed.

Lemma referenced_new_page seen visited st page_id pg :
  referenced seen visited st →
  referenced seen (visited ++ [page_id]) (set_pages (insert page_id pg) st).
Proof.
  intros [Hcs Hcp Hsc Hsp]. constructor; simpl; try done.
  - intros c ch Hch p Hp. apply elem_of_app. left. by apply (Hcp _ _ Hch).
  - intros s sec Hsec p Hp. apply elem_of_app. left. by apply (Hsp _ _ Hsec).
Qed.

Lemma referenced_page_end seen visited st page_id st' :
  page_id ∈ visited →
  referenced seen visited st →
  page_end page_id st = (Return tt, st') →
  referenced seen visited st'.
Proof.
  intros Hin [Hcs Hcp Hsc Hsp]
    (ch & sec & Hch & Hsec & ->)%page_end_return_inv.
  constructor; simpl.
  - intros k ch'. rewrite lookup_insert. case_decide; [|apply Hcs].
    intros [= <-]. simpl. subst k. by apply (Hcs _ _ Hch).
  - intros k ch'. rewrite lookup_insert. case_decide; [|apply Hcp].
    intros [= <-]. simpl. intros p [Hp|Hp]%elem_of_app.
    + by apply (Hcp _ _ Hch).
    + by apply list_elem_of_singleton in Hp as ->.
  - intros k sec'. rewrite lookup_insert. case_decide; [|apply Hsc].
    intros [= <-]. simpl. subst k. by apply (Hsc _ _ Hsec).
  - intros k sec'. rewrite lookup_insert. case_decide; [|apply Hsp].
    intros [= <-]. simpl. intros p [Hp|Hp]%elem_of_app.
    + by apply (Hsp _ _ Hsec).
    + by apply list_elem_of_singleton in Hp as ->.
Qed.

Lemma verse_loop_referenced page_id items seen visited st st' :
  referenced seen visited st →
  for_each (verse_iteration page_id) items st = (Return tt, st') →
  referenced (seen ++ page_entries page_id items) visited st'.
Proof.
  revert seen st. induction items as [|x items IH]; intros seen st Hst Hrun.
  - injection Hrun as <-. by rewrite app_nil_r.
  - simpl in Hrun.
    apply bind_return_inv in Hrun as ([] & st1 & Hx & Hrest).
    apply verse_iteration_return_inv in Hx as (o & Ho & Hx).
    rewrite (page_entries_cons _ _ _ _ Ho), cons_middle, app_assoc.
    eapply IH; [|done]. by eapply referenced_ingest.
Qed.

Lemma page_loop_referenced page_list seen visited st st' :
  referenced seen visited st →
  for_each page_iteration page_list st = (Return tt, st') →
  referenced (seen ++ observed page_list)
    (visited ++ page_numbers page_list) st'.
Proof.
  revert seen visited st.
  induction page_list as [|x page_list IH]; intros seen visited st Hst Hrun.
  - injection Hrun as <-. by rewrite !app_nil_r.
  - simpl in Hrun.
    apply bind_return_inv in Hrun as ([] & st2 & Hx & Hrest).
    apply page_iteration_return_inv in Hx as (pe & st1 & -> & Hloop & Hend).
    rewrite observed_cons, page_numbers_cons, app_assoc, cons_middle,
      (app_assoc visited).
    eapply IH; [|done].
    eapply referenced_page_end; [| |done].
    { apply elem_of_app. right. by apply list_elem_of_singleton. }
    eapply verse_loop_referenced; [|done].
    by apply referenced_new_page.
Qed.

(** X15. After a run that returns no reference dangles.  Every verse id in
    the verse list of a chapter, section or page record is a key of
    [verses]; every page number in the page list of a chapter or section
    record is a key of [pages]; every section id in a chapter's or page's
    set is a key of [sections] and every chapter id in a section's or
    page's set is a key of [chapters].  A chapter's set holds a section id,
    and a section's set a chapter id, only if an observation with this
    chapter and this section was read. *)
Theorem references_resolve page_list st :
  scrapping page_list module_state = (Return tt, st) →
  (∀ c ch, chapters st !! c = Some ch →
     (∀ k, k ∈ ch_verses ch → is_Some (verses st !! k)) ∧
     (∀ p, p ∈ ch_pages ch → is_Some (pages st !! p)) ∧
     (∀ s, s ∈ ch_sections ch →
        is_Some (sections st !! s) ∧
        ∃ e, e ∈ observed page_list ∧
             entry_chapter e = c ∧ entry_section e = s)) ∧
  (∀ s sec, sections st !! s = Some sec →
     (∀ k, k ∈ sec_verses sec → is_Some (verses st !! k)) ∧
     (∀ p, p ∈ sec_pages sec → is_Some (pages st !! p)) ∧
     (∀ c, c ∈ sec_chapters sec →
        is_Some (chapters st !! c) ∧
        ∃ e, e ∈ observed page_list ∧
             entry_chapter e = c ∧ entry_section e = s)) ∧
  (∀ p pg, pages st !! p = Some pg →
     (∀ k, k ∈ pg_verses pg → is_Some (verses st !! k)) ∧
     (∀ c, c ∈ pg_chapters pg → is_Some (chapters st !! c)) ∧
     (∀ s, s ∈ pg_sections pg → is_Some (sections st !! s))).
Proof.
  intros Hrun.
  pose proof (scrapping_consistent _ _ Hrun) as [Hv Hva He Hp Hc Hs Hr].
  rewrite scrapping_loop in Hrun.
  pose proof (page_loop_keyed page_list [] [] module_state st keyed_start Hrun)
    as [Hkp _ _ _].
  pose proof (page_loop_referenced page_list [] [] module_state st
                referenced_start Hrun) as [Hcs Hcp Hsc Hsp].
  simpl in *.
  assert (∀ (l : list entry) k,
            l `sublist_of` observed page_list → k ∈ entry_id <$> l →
            is_Some (verses st !! k)) as Hverse.
  { intros l k Hl (e & -> & Hin)%list_elem_of_fmap.
    apply Hva. by apply (sublist_subseteq _ _ Hl). }
  assert (∀ p, p ∈ page_numbers page_list → is_Some (pages st !! p)) as Hpage.
  { intros p Hin. apply elem_of_dom. rewrite Hkp.
    by apply elem_of_list_to_set. }
  split_and!.
  - intros c ch Hch. split_and!.
    + destruct (Hc _ _ Hch) as (l & Hl & ->). intros k. by apply Hverse.
    + intros p Hin. by apply Hpage, (Hcp _ _ Hch).
    + intros s Hin. destruct (Hcs _ _ Hch s Hin) as (e & He' & Hec & Hes).
      split; [|by exists e]. rewrite <-Hes. by apply (Hr e He').
  - intros s sec Hsec. split_and!.
    + destruct (Hs _ _ Hsec) as (l & Hl & ->). intros k. by apply Hverse.
    + intros p Hin. by apply Hpage, (Hsp _ _ Hsec).
    + intros c Hin. destruct (Hsc _ _ Hsec c Hin) as (e & He' & Hec & Hes).
      split; [|by exists e]. rewrite <-Hec. by apply (Hr e He').
  - intros p pg Hpg. destruct (Hp _ _ Hpg) as (l & Hl & -> & -> & ->).
    pose proof (sublist_subseteq _ _ Hl) as Hsub.
    split_and!.
    + intros k. by apply Hverse.
    + intros c (e & -> & Hin)%elem_of_list_to_set%list_elem_of_fmap.
      by apply (Hr e), Hsub.
    + intros s (e & -> & Hin)%elem_of_list_to_set%list_elem_of_fmap.
      by apply (Hr e), Hsub.
Qed.

Lemma references_resolve_witness :
  ∃ st ch,
    scrapping three_observations module_state = (Return tt, st) ∧
    chapters st !! 2 = Some ch ∧
    ch_pages ch = [1] ∧
    is_Some (pages st !! 1).
Proof.
  assert (scrapping three_observations module_state
            = (Return tt, snd (scrapping three_observations module_state)))
    as Hrun by (vm_compute; reflexivity).
  exists (snd (scrapping three_observations module_state)),
    (default (new_chapter (synthetic 2 1 1))
       (chapters (snd (scrapping three_observations module_state)) !! 2)).
  assert (chapters (snd (scrapping three_observations module_state)) !! 2
            = Some (default (new_chapter (synthetic 2 1 1))
                      (chapters (snd (scrapping three_observations module_state))
                         !! 2)))
    as Hch by (vm_compute; reflexivity).
  assert (ch_pages
            (default (new_chapter (synthetic 2 1 1))
               (chapters (snd (scrapping three_observations module_state)) !! 2))
            = [1])
    as Hpages by (vm_compute; reflexivity).
  split_and!; [exact Hrun|exact Hch|exact Hpages|].
  destruct (references_resolve _ _ Hrun) as (Hc & _ & _).
  destruct (Hc 2 _ Hch) as (_ & Hp & _).
  apply Hp. rewrite Hpages. by apply list_elem_of_singleton.
Defined.
